(** * Astreon: the presentation state machine and ambient effects of script.js

    A shallow embedding of the [EarthVisualization] class of [src/script.js]:
    its fields, the browser state its methods read and write (document
    elements, timers, listeners, window size), and every method that takes
    part in the start / zoom / menu / dialog flow, the ambient voice
    scheduler, the text spawner and the resize handler.

    What the embedding leaves to its environment:
    - JavaScript numbers are modelled as exact rationals ([Q]); the rounding
      of IEEE doubles is outside the model, [Math.tan] is a parameter, and
      so is the conversion to binary32 of a store into a [Float32Array];
    - [Math.random] and the settlement of [play()] promises are oracles
      indexed by the number of calls made so far;
    - a tween made by [gsap.to] is recorded when it is started and takes
      effect when it completes (the interpolated frames in between, the
      scene graph and the shaders are not modelled; the render loop is
      modelled apart, on the fields it touches);
    - a timer, the end of a tween and the settlement of a promise are all
      callbacks in one queue, run in the order of their due times and never
      before them;
    - fields that the script only writes ([textSpawnInterval],
      [voiceInterval], [currentAnimation]) and [hideSocialMedia], which it
      never calls, are left out; [zoomOut], never called either, is
      modelled apart from the event loop. *)

From Stdlib Require Import ZArith QArith Qround String Ascii List Lia.
From stdpp Require Import gmap strings list.
Import ListNotations.

Local Open Scope Z_scope.

(** ** JavaScript values *)

(** [a < b] and [a > b] on numbers. *)
Definition Qltb (a b : Q) : bool := negb (Qle_bool b a).
Definition Qgtb (a b : Q) : bool := Qltb b a.

(** [Math.PI], the double nearest to pi, as the rational it denotes. *)
Definition Math_PI : Q := 884279719003555 # 281474976710656.

Definition Math_floor (x : Q) : Z := Qfloor x.

(** [String.prototype.toLowerCase], on the ASCII range. *)
Definition lower_ascii (c : ascii) : ascii :=
  let n := N_of_ascii c in
  if ((65 <=? n) && (n <=? 90))%N then ascii_of_N (n + 32) else c.

Fixpoint toLowerCase (s : string) : string :=
  match s with
  | EmptyString => EmptyString
  | String c r => String (lower_ascii c) (toLowerCase r)
  end.

Fixpoint drop_chars (n : nat) (s : string) : string :=
  match n, s with
  | S n', String _ r => drop_chars n' r
  | _, _ => s
  end.

(** [s.replace(pat, rep)] with a string pattern: the first occurrence only. *)
Fixpoint replace (pat rep s : string) : string :=
  if String.prefix pat s then rep +:+ drop_chars (String.length pat) s
  else match s with
       | EmptyString => EmptyString
       | String c r => String c (replace pat rep r)
       end.

Record Vec3 := { vx : Q; vy : Q; vz : Q }.

(** ** The document *)

(** A text element made by [spawnText]. It has no id: [label_id] stands for
    the identity of the node. *)
Record Label := {
  label_id : nat;
  label_classes : list string;
  textContent : string;
  style_left : Q;                       (* style.left, in px *)
  style_top : Q                         (* style.top, in px *)
}.

(** The properties of an element that the script reads or writes. *)
Record Element := {
  classList : list string;
  style_display : string;
  style_width : option Q;               (* style.width in percent, when set *)
  volume : Q;
  currentTime : Q;
  paused : bool;
  childNodes : list Label
}.

Definition classList_add (c : string) (e : Element) : Element :=
  {| classList := if bool_decide (c ∈ classList e) then classList e else classList e ++ [c];
     style_display := style_display e; style_width := style_width e; volume := volume e;
     currentTime := currentTime e; paused := paused e; childNodes := childNodes e |}.

Definition classList_remove (c : string) (e : Element) : Element :=
  {| classList := filter (λ x, x ≠ c) (classList e);
     style_display := style_display e; style_width := style_width e; volume := volume e;
     currentTime := currentTime e; paused := paused e; childNodes := childNodes e |}.

Definition set_display (d : string) (e : Element) : Element :=
  {| classList := classList e; style_display := d; style_width := style_width e;
     volume := volume e; currentTime := currentTime e; paused := paused e;
     childNodes := childNodes e |}.

Definition set_width (w : Q) (e : Element) : Element :=
  {| classList := classList e; style_display := style_display e; style_width := Some w;
     volume := volume e; currentTime := currentTime e; paused := paused e;
     childNodes := childNodes e |}.

Definition set_volume (v : Q) (e : Element) : Element :=
  {| classList := classList e; style_display := style_display e;
     style_width := style_width e; volume := v; currentTime := currentTime e;
     paused := paused e; childNodes := childNodes e |}.

Definition set_currentTime (t : Q) (e : Element) : Element :=
  {| classList := classList e; style_display := style_display e;
     style_width := style_width e; volume := volume e; currentTime := t;
     paused := paused e; childNodes := childNodes e |}.

Definition set_paused (p : bool) (e : Element) : Element :=
  {| classList := classList e; style_display := style_display e;
     style_width := style_width e; volume := volume e; currentTime := currentTime e;
     paused := p; childNodes := childNodes e |}.

Definition appendChild (l : Label) (e : Element) : Element :=
  {| classList := classList e; style_display := style_display e;
     style_width := style_width e; volume := volume e; currentTime := currentTime e;
     paused := paused e; childNodes := childNodes e ++ [l] |}.

Definition removeChild (lid : nat) (e : Element) : Element :=
  {| classList := classList e; style_display := style_display e;
     style_width := style_width e; volume := volume e; currentTime := currentTime e;
     paused := paused e;
     childNodes := filter (λ l, label_id l ≠ lid) (childNodes e) |}.

(** Modelled from the spec: the stylesheet is not part of the sources. A
    panel counts as shown when it carries the class [visible], does not
    carry the class [hidden], and its inline [display] is not [none]; these
    are the three things the script toggles to show and hide panels. *)
Definition shown (e : Element) : bool :=
  bool_decide ("visible" ∈ classList e) && negb (bool_decide ("hidden" ∈ classList e))
  && negb (bool_decide (style_display e = "none")).

(** ** Timers, tweens, listeners and console output *)

(** How a [play()] promise settles, and how long after the call. *)
Inductive PlayOutcome :=
| Resolves (latency : Z)
| Rejects (latency : Z).

Inductive TweenObject := CameraPosition | ControlsTarget.

(** One [gsap.to] call: the object, the start time, the duration in
    milliseconds, the end values, and whether [onComplete] shows the menu. *)
Record Tween := {
  tw_object : TweenObject;
  tw_start : Z;
  tw_duration : Z;
  tw_to : Vec3;
  tw_showGameMenu : bool
}.

(** The closures the script hands to [setTimeout], [setInterval],
    [gsap.to] and [Promise.then] / [catch], one constructor per closure. *)
Inductive Callback :=
| cb_musicStarted                       (* setupAudio: playPromise.then *)
| cb_autoplayPrevented                  (* setupAudio: playPromise.catch *)
| cb_voiceTick                          (* startRandomVoiceSystem: setInterval, 25000 *)
| cb_voicePlaying (voice : string) (randomIndex : Z)   (* playRandomVoice: play().then *)
| cb_voiceError (randomIndex : Z)                      (* playRandomVoice: play().catch *)
| cb_voiceStop (voice : string) (randomIndex : Z)      (* playRandomVoice: setTimeout, 5000 *)
| cb_loadingHidden                      (* loadingManager.onLoad: setTimeout, 500 *)
| cb_socialVisible                      (* showSocialMedia: setTimeout, 100 *)
| cb_zoomToPlanet                       (* startGame: setTimeout, 300 *)
| cb_tweenComplete (tw : Tween)         (* the end of a gsap.to tween *)
| cb_gameMenuVisible                    (* showGameMenu: setTimeout, 100 *)
| cb_textTick                           (* startRandomTextSpawning: setInterval, 800 *)
| cb_removeText (label : nat)           (* spawnText: setTimeout, 4000 *)
| cb_dialogShow (dialogId : string)     (* showDialog: setTimeout, 500 *)
| cb_dialogVisible (dialogId : string)  (* showDialog: inner setTimeout, 50 *)
| cb_dialogHidden (dialogId : string).  (* hideDialog: setTimeout, 500 *)

(** The listeners the script registers on [document]. An escape handler is
    a fresh closure on every [addEscapeListener]; the number is its
    identity. *)
Inductive Listener :=
| L_voiceTest                           (* keydown: the V key *)
| L_enter                               (* keydown: Enter *)
| L_startAudio                          (* click, keydown and touchstart *)
| L_escape (id : nat).                  (* keydown: the E key *)

Inductive Msg :=
| M_musicStarted
| M_autoplayPrevented
| M_startingVoiceSystem
| M_triggering                          (* 'Triggering atmospheric voice...' *)
| M_manualTest                          (* 'Manual voice test triggered!' *)
| M_attempting (available : nat)
| M_noVoices
| M_selected (randomIndex : Z)
| M_playing (randomIndex : Z)
| M_stopped (randomIndex : Z)
| M_playError (randomIndex : Z)
| M_iconClicked (platform : option string).

#[global] Instance Listener_eq_dec : EqDecision Listener.
Proof. solve_decision. Defined.

(** ** The state: the browser side first, then the fields of [this] *)

Record State := {
  now : Z;                              (* Date.now(), in milliseconds *)
  innerWidth : Z;                       (* window.innerWidth *)
  innerHeight : Z;                      (* window.innerHeight *)
  elements : gmap string Element;       (* what getElementById and querySelector find *)
  timers : list (Z * Callback);         (* pending callbacks with their due times *)
  draws : N;                            (* Math.random() calls made so far *)
  plays : N;                            (* play() calls made so far *)
  console : list (Z * Msg);             (* console output, newest first *)
  tweens : list Tween;                  (* gsap.to calls made so far, newest first *)
  documentListeners : list Listener;    (* listeners on document, oldest first *)
  nextListener : nat;                   (* identity of the next escape closure *)
  startTextClick : bool;                (* click listener on #startText registered *)
  menuSetups : nat;                     (* times setupMenuInteractions has run *)
  nextLabel : nat;                      (* identity of the next spawned label *)
  hasStarted : bool;                    (* this.hasStarted *)
  escapeHandler : option nat;           (* this.escapeHandler *)
  currentDialog : option string;        (* this.currentDialog *)
  backgroundMusic : option string;      (* this.backgroundMusic *)
  clickSound : option string;           (* this.clickSound *)
  distortedVoices : list string;        (* this.distortedVoices *)
  lastVoiceTime : Z;                    (* this.lastVoiceTime *)
  camera_fov : Q;                       (* this.camera.fov, in degrees *)
  camera_aspect : Q;                    (* this.camera.aspect *)
  camera_position : Vec3;               (* this.camera.position *)
  camera_projection : Q * Q;            (* fov and aspect of the projection matrix *)
  controls_target : Vec3;               (* this.controls.target *)
  renderer_size : Z * Z                 (* last this.renderer.setSize *)
}.

Definition set_now (v : Z) (s : State) : State :=
  {| now := v; innerWidth := innerWidth s; innerHeight := innerHeight s; elements := elements s;
     timers := timers s; draws := draws s; plays := plays s; console := console s; tweens :=
     tweens s; documentListeners := documentListeners s; nextListener := nextListener s;
     startTextClick := startTextClick s; menuSetups := menuSetups s; nextLabel := nextLabel s;
     hasStarted := hasStarted s; escapeHandler := escapeHandler s; currentDialog :=
     currentDialog s; backgroundMusic := backgroundMusic s; clickSound := clickSound s;
     distortedVoices := distortedVoices s; lastVoiceTime := lastVoiceTime s; camera_fov :=
     camera_fov s; camera_aspect := camera_aspect s; camera_position := camera_position s;
     camera_projection := camera_projection s; controls_target := controls_target s;
     renderer_size := renderer_size s |}.

Definition set_innerWidth (v : Z) (s : State) : State :=
  {| now := now s; innerWidth := v; innerHeight := innerHeight s; elements := elements s; timers
     := timers s; draws := draws s; plays := plays s; console := console s; tweens := tweens s;
     documentListeners := documentListeners s; nextListener := nextListener s; startTextClick :=
     startTextClick s; menuSetups := menuSetups s; nextLabel := nextLabel s; hasStarted :=
     hasStarted s; escapeHandler := escapeHandler s; currentDialog := currentDialog s;
     backgroundMusic := backgroundMusic s; clickSound := clickSound s; distortedVoices :=
     distortedVoices s; lastVoiceTime := lastVoiceTime s; camera_fov := camera_fov s;
     camera_aspect := camera_aspect s; camera_position := camera_position s; camera_projection
     := camera_projection s; controls_target := controls_target s; renderer_size :=
     renderer_size s |}.

Definition set_innerHeight (v : Z) (s : State) : State :=
  {| now := now s; innerWidth := innerWidth s; innerHeight := v; elements := elements s; timers
     := timers s; draws := draws s; plays := plays s; console := console s; tweens := tweens s;
     documentListeners := documentListeners s; nextListener := nextListener s; startTextClick :=
     startTextClick s; menuSetups := menuSetups s; nextLabel := nextLabel s; hasStarted :=
     hasStarted s; escapeHandler := escapeHandler s; currentDialog := currentDialog s;
     backgroundMusic := backgroundMusic s; clickSound := clickSound s; distortedVoices :=
     distortedVoices s; lastVoiceTime := lastVoiceTime s; camera_fov := camera_fov s;
     camera_aspect := camera_aspect s; camera_position := camera_position s; camera_projection
     := camera_projection s; controls_target := controls_target s; renderer_size :=
     renderer_size s |}.

Definition set_elements (v : gmap string Element) (s : State) : State :=
  {| now := now s; innerWidth := innerWidth s; innerHeight := innerHeight s; elements := v;
     timers := timers s; draws := draws s; plays := plays s; console := console s; tweens :=
     tweens s; documentListeners := documentListeners s; nextListener := nextListener s;
     startTextClick := startTextClick s; menuSetups := menuSetups s; nextLabel := nextLabel s;
     hasStarted := hasStarted s; escapeHandler := escapeHandler s; currentDialog :=
     currentDialog s; backgroundMusic := backgroundMusic s; clickSound := clickSound s;
     distortedVoices := distortedVoices s; lastVoiceTime := lastVoiceTime s; camera_fov :=
     camera_fov s; camera_aspect := camera_aspect s; camera_position := camera_position s;
     camera_projection := camera_projection s; controls_target := controls_target s;
     renderer_size := renderer_size s |}.

Definition set_timers (v : list (Z * Callback)) (s : State) : State :=
  {| now := now s; innerWidth := innerWidth s; innerHeight := innerHeight s; elements :=
     elements s; timers := v; draws := draws s; plays := plays s; console := console s; tweens
     := tweens s; documentListeners := documentListeners s; nextListener := nextListener s;
     startTextClick := startTextClick s; menuSetups := menuSetups s; nextLabel := nextLabel s;
     hasStarted := hasStarted s; escapeHandler := escapeHandler s; currentDialog :=
     currentDialog s; backgroundMusic := backgroundMusic s; clickSound := clickSound s;
     distortedVoices := distortedVoices s; lastVoiceTime := lastVoiceTime s; camera_fov :=
     camera_fov s; camera_aspect := camera_aspect s; camera_position := camera_position s;
     camera_projection := camera_projection s; controls_target := controls_target s;
     renderer_size := renderer_size s |}.

Definition set_draws (v : N) (s : State) : State :=
  {| now := now s; innerWidth := innerWidth s; innerHeight := innerHeight s; elements :=
     elements s; timers := timers s; draws := v; plays := plays s; console := console s; tweens
     := tweens s; documentListeners := documentListeners s; nextListener := nextListener s;
     startTextClick := startTextClick s; menuSetups := menuSetups s; nextLabel := nextLabel s;
     hasStarted := hasStarted s; escapeHandler := escapeHandler s; currentDialog :=
     currentDialog s; backgroundMusic := backgroundMusic s; clickSound := clickSound s;
     distortedVoices := distortedVoices s; lastVoiceTime := lastVoiceTime s; camera_fov :=
     camera_fov s; camera_aspect := camera_aspect s; camera_position := camera_position s;
     camera_projection := camera_projection s; controls_target := controls_target s;
     renderer_size := renderer_size s |}.

Definition set_plays (v : N) (s : State) : State :=
  {| now := now s; innerWidth := innerWidth s; innerHeight := innerHeight s; elements :=
     elements s; timers := timers s; draws := draws s; plays := v; console := console s; tweens
     := tweens s; documentListeners := documentListeners s; nextListener := nextListener s;
     startTextClick := startTextClick s; menuSetups := menuSetups s; nextLabel := nextLabel s;
     hasStarted := hasStarted s; escapeHandler := escapeHandler s; currentDialog :=
     currentDialog s; backgroundMusic := backgroundMusic s; clickSound := clickSound s;
     distortedVoices := distortedVoices s; lastVoiceTime := lastVoiceTime s; camera_fov :=
     camera_fov s; camera_aspect := camera_aspect s; camera_position := camera_position s;
     camera_projection := camera_projection s; controls_target := controls_target s;
     renderer_size := renderer_size s |}.

Definition set_console (v : list (Z * Msg)) (s : State) : State :=
  {| now := now s; innerWidth := innerWidth s; innerHeight := innerHeight s; elements :=
     elements s; timers := timers s; draws := draws s; plays := plays s; console := v; tweens :=
     tweens s; documentListeners := documentListeners s; nextListener := nextListener s;
     startTextClick := startTextClick s; menuSetups := menuSetups s; nextLabel := nextLabel s;
     hasStarted := hasStarted s; escapeHandler := escapeHandler s; currentDialog :=
     currentDialog s; backgroundMusic := backgroundMusic s; clickSound := clickSound s;
     distortedVoices := distortedVoices s; lastVoiceTime := lastVoiceTime s; camera_fov :=
     camera_fov s; camera_aspect := camera_aspect s; camera_position := camera_position s;
     camera_projection := camera_projection s; controls_target := controls_target s;
     renderer_size := renderer_size s |}.

Definition set_tweens (v : list Tween) (s : State) : State :=
  {| now := now s; innerWidth := innerWidth s; innerHeight := innerHeight s; elements :=
     elements s; timers := timers s; draws := draws s; plays := plays s; console := console s;
     tweens := v; documentListeners := documentListeners s; nextListener := nextListener s;
     startTextClick := startTextClick s; menuSetups := menuSetups s; nextLabel := nextLabel s;
     hasStarted := hasStarted s; escapeHandler := escapeHandler s; currentDialog :=
     currentDialog s; backgroundMusic := backgroundMusic s; clickSound := clickSound s;
     distortedVoices := distortedVoices s; lastVoiceTime := lastVoiceTime s; camera_fov :=
     camera_fov s; camera_aspect := camera_aspect s; camera_position := camera_position s;
     camera_projection := camera_projection s; controls_target := controls_target s;
     renderer_size := renderer_size s |}.

Definition set_documentListeners (v : list Listener) (s : State) : State :=
  {| now := now s; innerWidth := innerWidth s; innerHeight := innerHeight s; elements :=
     elements s; timers := timers s; draws := draws s; plays := plays s; console := console s;
     tweens := tweens s; documentListeners := v; nextListener := nextListener s; startTextClick
     := startTextClick s; menuSetups := menuSetups s; nextLabel := nextLabel s; hasStarted :=
     hasStarted s; escapeHandler := escapeHandler s; currentDialog := currentDialog s;
     backgroundMusic := backgroundMusic s; clickSound := clickSound s; distortedVoices :=
     distortedVoices s; lastVoiceTime := lastVoiceTime s; camera_fov := camera_fov s;
     camera_aspect := camera_aspect s; camera_position := camera_position s; camera_projection
     := camera_projection s; controls_target := controls_target s; renderer_size :=
     renderer_size s |}.

Definition set_nextListener (v : nat) (s : State) : State :=
  {| now := now s; innerWidth := innerWidth s; innerHeight := innerHeight s; elements :=
     elements s; timers := timers s; draws := draws s; plays := plays s; console := console s;
     tweens := tweens s; documentListeners := documentListeners s; nextListener := v;
     startTextClick := startTextClick s; menuSetups := menuSetups s; nextLabel := nextLabel s;
     hasStarted := hasStarted s; escapeHandler := escapeHandler s; currentDialog :=
     currentDialog s; backgroundMusic := backgroundMusic s; clickSound := clickSound s;
     distortedVoices := distortedVoices s; lastVoiceTime := lastVoiceTime s; camera_fov :=
     camera_fov s; camera_aspect := camera_aspect s; camera_position := camera_position s;
     camera_projection := camera_projection s; controls_target := controls_target s;
     renderer_size := renderer_size s |}.

Definition set_startTextClick (v : bool) (s : State) : State :=
  {| now := now s; innerWidth := innerWidth s; innerHeight := innerHeight s; elements :=
     elements s; timers := timers s; draws := draws s; plays := plays s; console := console s;
     tweens := tweens s; documentListeners := documentListeners s; nextListener := nextListener
     s; startTextClick := v; menuSetups := menuSetups s; nextLabel := nextLabel s; hasStarted :=
     hasStarted s; escapeHandler := escapeHandler s; currentDialog := currentDialog s;
     backgroundMusic := backgroundMusic s; clickSound := clickSound s; distortedVoices :=
     distortedVoices s; lastVoiceTime := lastVoiceTime s; camera_fov := camera_fov s;
     camera_aspect := camera_aspect s; camera_position := camera_position s; camera_projection
     := camera_projection s; controls_target := controls_target s; renderer_size :=
     renderer_size s |}.

Definition set_menuSetups (v : nat) (s : State) : State :=
  {| now := now s; innerWidth := innerWidth s; innerHeight := innerHeight s; elements :=
     elements s; timers := timers s; draws := draws s; plays := plays s; console := console s;
     tweens := tweens s; documentListeners := documentListeners s; nextListener := nextListener
     s; startTextClick := startTextClick s; menuSetups := v; nextLabel := nextLabel s;
     hasStarted := hasStarted s; escapeHandler := escapeHandler s; currentDialog :=
     currentDialog s; backgroundMusic := backgroundMusic s; clickSound := clickSound s;
     distortedVoices := distortedVoices s; lastVoiceTime := lastVoiceTime s; camera_fov :=
     camera_fov s; camera_aspect := camera_aspect s; camera_position := camera_position s;
     camera_projection := camera_projection s; controls_target := controls_target s;
     renderer_size := renderer_size s |}.

Definition set_nextLabel (v : nat) (s : State) : State :=
  {| now := now s; innerWidth := innerWidth s; innerHeight := innerHeight s; elements :=
     elements s; timers := timers s; draws := draws s; plays := plays s; console := console s;
     tweens := tweens s; documentListeners := documentListeners s; nextListener := nextListener
     s; startTextClick := startTextClick s; menuSetups := menuSetups s; nextLabel := v;
     hasStarted := hasStarted s; escapeHandler := escapeHandler s; currentDialog :=
     currentDialog s; backgroundMusic := backgroundMusic s; clickSound := clickSound s;
     distortedVoices := distortedVoices s; lastVoiceTime := lastVoiceTime s; camera_fov :=
     camera_fov s; camera_aspect := camera_aspect s; camera_position := camera_position s;
     camera_projection := camera_projection s; controls_target := controls_target s;
     renderer_size := renderer_size s |}.

Definition set_hasStarted (v : bool) (s : State) : State :=
  {| now := now s; innerWidth := innerWidth s; innerHeight := innerHeight s; elements :=
     elements s; timers := timers s; draws := draws s; plays := plays s; console := console s;
     tweens := tweens s; documentListeners := documentListeners s; nextListener := nextListener
     s; startTextClick := startTextClick s; menuSetups := menuSetups s; nextLabel := nextLabel
     s; hasStarted := v; escapeHandler := escapeHandler s; currentDialog := currentDialog s;
     backgroundMusic := backgroundMusic s; clickSound := clickSound s; distortedVoices :=
     distortedVoices s; lastVoiceTime := lastVoiceTime s; camera_fov := camera_fov s;
     camera_aspect := camera_aspect s; camera_position := camera_position s; camera_projection
     := camera_projection s; controls_target := controls_target s; renderer_size :=
     renderer_size s |}.

Definition set_escapeHandler (v : option nat) (s : State) : State :=
  {| now := now s; innerWidth := innerWidth s; innerHeight := innerHeight s; elements :=
     elements s; timers := timers s; draws := draws s; plays := plays s; console := console s;
     tweens := tweens s; documentListeners := documentListeners s; nextListener := nextListener
     s; startTextClick := startTextClick s; menuSetups := menuSetups s; nextLabel := nextLabel
     s; hasStarted := hasStarted s; escapeHandler := v; currentDialog := currentDialog s;
     backgroundMusic := backgroundMusic s; clickSound := clickSound s; distortedVoices :=
     distortedVoices s; lastVoiceTime := lastVoiceTime s; camera_fov := camera_fov s;
     camera_aspect := camera_aspect s; camera_position := camera_position s; camera_projection
     := camera_projection s; controls_target := controls_target s; renderer_size :=
     renderer_size s |}.

Definition set_currentDialog (v : option string) (s : State) : State :=
  {| now := now s; innerWidth := innerWidth s; innerHeight := innerHeight s; elements :=
     elements s; timers := timers s; draws := draws s; plays := plays s; console := console s;
     tweens := tweens s; documentListeners := documentListeners s; nextListener := nextListener
     s; startTextClick := startTextClick s; menuSetups := menuSetups s; nextLabel := nextLabel
     s; hasStarted := hasStarted s; escapeHandler := escapeHandler s; currentDialog := v;
     backgroundMusic := backgroundMusic s; clickSound := clickSound s; distortedVoices :=
     distortedVoices s; lastVoiceTime := lastVoiceTime s; camera_fov := camera_fov s;
     camera_aspect := camera_aspect s; camera_position := camera_position s; camera_projection
     := camera_projection s; controls_target := controls_target s; renderer_size :=
     renderer_size s |}.

Definition set_backgroundMusic (v : option string) (s : State) : State :=
  {| now := now s; innerWidth := innerWidth s; innerHeight := innerHeight s; elements :=
     elements s; timers := timers s; draws := draws s; plays := plays s; console := console s;
     tweens := tweens s; documentListeners := documentListeners s; nextListener := nextListener
     s; startTextClick := startTextClick s; menuSetups := menuSetups s; nextLabel := nextLabel
     s; hasStarted := hasStarted s; escapeHandler := escapeHandler s; currentDialog :=
     currentDialog s; backgroundMusic := v; clickSound := clickSound s; distortedVoices :=
     distortedVoices s; lastVoiceTime := lastVoiceTime s; camera_fov := camera_fov s;
     camera_aspect := camera_aspect s; camera_position := camera_position s; camera_projection
     := camera_projection s; controls_target := controls_target s; renderer_size :=
     renderer_size s |}.

Definition set_clickSound (v : option string) (s : State) : State :=
  {| now := now s; innerWidth := innerWidth s; innerHeight := innerHeight s; elements :=
     elements s; timers := timers s; draws := draws s; plays := plays s; console := console s;
     tweens := tweens s; documentListeners := documentListeners s; nextListener := nextListener
     s; startTextClick := startTextClick s; menuSetups := menuSetups s; nextLabel := nextLabel
     s; hasStarted := hasStarted s; escapeHandler := escapeHandler s; currentDialog :=
     currentDialog s; backgroundMusic := backgroundMusic s; clickSound := v; distortedVoices :=
     distortedVoices s; lastVoiceTime := lastVoiceTime s; camera_fov := camera_fov s;
     camera_aspect := camera_aspect s; camera_position := camera_position s; camera_projection
     := camera_projection s; controls_target := controls_target s; renderer_size :=
     renderer_size s |}.

Definition set_distortedVoices (v : list string) (s : State) : State :=
  {| now := now s; innerWidth := innerWidth s; innerHeight := innerHeight s; elements :=
     elements s; timers := timers s; draws := draws s; plays := plays s; console := console s;
     tweens := tweens s; documentListeners := documentListeners s; nextListener := nextListener
     s; startTextClick := startTextClick s; menuSetups := menuSetups s; nextLabel := nextLabel
     s; hasStarted := hasStarted s; escapeHandler := escapeHandler s; currentDialog :=
     currentDialog s; backgroundMusic := backgroundMusic s; clickSound := clickSound s;
     distortedVoices := v; lastVoiceTime := lastVoiceTime s; camera_fov := camera_fov s;
     camera_aspect := camera_aspect s; camera_position := camera_position s; camera_projection
     := camera_projection s; controls_target := controls_target s; renderer_size :=
     renderer_size s |}.

Definition set_lastVoiceTime (v : Z) (s : State) : State :=
  {| now := now s; innerWidth := innerWidth s; innerHeight := innerHeight s; elements :=
     elements s; timers := timers s; draws := draws s; plays := plays s; console := console s;
     tweens := tweens s; documentListeners := documentListeners s; nextListener := nextListener
     s; startTextClick := startTextClick s; menuSetups := menuSetups s; nextLabel := nextLabel
     s; hasStarted := hasStarted s; escapeHandler := escapeHandler s; currentDialog :=
     currentDialog s; backgroundMusic := backgroundMusic s; clickSound := clickSound s;
     distortedVoices := distortedVoices s; lastVoiceTime := v; camera_fov := camera_fov s;
     camera_aspect := camera_aspect s; camera_position := camera_position s; camera_projection
     := camera_projection s; controls_target := controls_target s; renderer_size :=
     renderer_size s |}.

Definition set_camera_fov (v : Q) (s : State) : State :=
  {| now := now s; innerWidth := innerWidth s; innerHeight := innerHeight s; elements :=
     elements s; timers := timers s; draws := draws s; plays := plays s; console := console s;
     tweens := tweens s; documentListeners := documentListeners s; nextListener := nextListener
     s; startTextClick := startTextClick s; menuSetups := menuSetups s; nextLabel := nextLabel
     s; hasStarted := hasStarted s; escapeHandler := escapeHandler s; currentDialog :=
     currentDialog s; backgroundMusic := backgroundMusic s; clickSound := clickSound s;
     distortedVoices := distortedVoices s; lastVoiceTime := lastVoiceTime s; camera_fov := v;
     camera_aspect := camera_aspect s; camera_position := camera_position s; camera_projection
     := camera_projection s; controls_target := controls_target s; renderer_size :=
     renderer_size s |}.

Definition set_camera_aspect (v : Q) (s : State) : State :=
  {| now := now s; innerWidth := innerWidth s; innerHeight := innerHeight s; elements :=
     elements s; timers := timers s; draws := draws s; plays := plays s; console := console s;
     tweens := tweens s; documentListeners := documentListeners s; nextListener := nextListener
     s; startTextClick := startTextClick s; menuSetups := menuSetups s; nextLabel := nextLabel
     s; hasStarted := hasStarted s; escapeHandler := escapeHandler s; currentDialog :=
     currentDialog s; backgroundMusic := backgroundMusic s; clickSound := clickSound s;
     distortedVoices := distortedVoices s; lastVoiceTime := lastVoiceTime s; camera_fov :=
     camera_fov s; camera_aspect := v; camera_position := camera_position s; camera_projection
     := camera_projection s; controls_target := controls_target s; renderer_size :=
     renderer_size s |}.

Definition set_camera_position (v : Vec3) (s : State) : State :=
  {| now := now s; innerWidth := innerWidth s; innerHeight := innerHeight s; elements :=
     elements s; timers := timers s; draws := draws s; plays := plays s; console := console s;
     tweens := tweens s; documentListeners := documentListeners s; nextListener := nextListener
     s; startTextClick := startTextClick s; menuSetups := menuSetups s; nextLabel := nextLabel
     s; hasStarted := hasStarted s; escapeHandler := escapeHandler s; currentDialog :=
     currentDialog s; backgroundMusic := backgroundMusic s; clickSound := clickSound s;
     distortedVoices := distortedVoices s; lastVoiceTime := lastVoiceTime s; camera_fov :=
     camera_fov s; camera_aspect := camera_aspect s; camera_position := v; camera_projection :=
     camera_projection s; controls_target := controls_target s; renderer_size := renderer_size s
     |}.

Definition set_camera_projection (v : Q * Q) (s : State) : State :=
  {| now := now s; innerWidth := innerWidth s; innerHeight := innerHeight s; elements :=
     elements s; timers := timers s; draws := draws s; plays := plays s; console := console s;
     tweens := tweens s; documentListeners := documentListeners s; nextListener := nextListener
     s; startTextClick := startTextClick s; menuSetups := menuSetups s; nextLabel := nextLabel
     s; hasStarted := hasStarted s; escapeHandler := escapeHandler s; currentDialog :=
     currentDialog s; backgroundMusic := backgroundMusic s; clickSound := clickSound s;
     distortedVoices := distortedVoices s; lastVoiceTime := lastVoiceTime s; camera_fov :=
     camera_fov s; camera_aspect := camera_aspect s; camera_position := camera_position s;
     camera_projection := v; controls_target := controls_target s; renderer_size :=
     renderer_size s |}.

Definition set_controls_target (v : Vec3) (s : State) : State :=
  {| now := now s; innerWidth := innerWidth s; innerHeight := innerHeight s; elements :=
     elements s; timers := timers s; draws := draws s; plays := plays s; console := console s;
     tweens := tweens s; documentListeners := documentListeners s; nextListener := nextListener
     s; startTextClick := startTextClick s; menuSetups := menuSetups s; nextLabel := nextLabel
     s; hasStarted := hasStarted s; escapeHandler := escapeHandler s; currentDialog :=
     currentDialog s; backgroundMusic := backgroundMusic s; clickSound := clickSound s;
     distortedVoices := distortedVoices s; lastVoiceTime := lastVoiceTime s; camera_fov :=
     camera_fov s; camera_aspect := camera_aspect s; camera_position := camera_position s;
     camera_projection := camera_projection s; controls_target := v; renderer_size :=
     renderer_size s |}.

Definition set_renderer_size (v : Z * Z) (s : State) : State :=
  {| now := now s; innerWidth := innerWidth s; innerHeight := innerHeight s; elements :=
     elements s; timers := timers s; draws := draws s; plays := plays s; console := console s;
     tweens := tweens s; documentListeners := documentListeners s; nextListener := nextListener
     s; startTextClick := startTextClick s; menuSetups := menuSetups s; nextLabel := nextLabel
     s; hasStarted := hasStarted s; escapeHandler := escapeHandler s; currentDialog :=
     currentDialog s; backgroundMusic := backgroundMusic s; clickSound := clickSound s;
     distortedVoices := distortedVoices s; lastVoiceTime := lastVoiceTime s; camera_fov :=
     camera_fov s; camera_aspect := camera_aspect s; camera_position := camera_position s;
     camera_projection := camera_projection s; controls_target := controls_target s;
     renderer_size := v |}.
(** ** The environment and the primitives of the browser *)

Record Env := {
  Math_tan : Q → Q;
  Math_random_at : N → Q;               (* the value of the n-th Math.random() call *)
  play_outcome : N → PlayOutcome        (* how the promise of the n-th play() call settles *)
}.

(** A method that can throw: only [createRenderer], and so [init], can. *)
Inductive Exn (A : Type) :=
| Ok (a : A)
| TypeError (msg : string).
Arguments Ok {A} a.
Arguments TypeError {A} msg.

(** [l[i]] on a JavaScript array: [undefined] out of range. *)
Definition array_get {A} (l : list A) (i : Z) : option A :=
  if i <? 0 then None else l !! Z.to_nat i.

Definition Number (z : Z) : Q := inject_Z z.

Section Script.
Context (env : Env).

Definition Math_random (s : State) : Q * State :=
  (Math_random_at env (draws s), set_draws (N.succ (draws s)) s).

Definition console_log (m : Msg) (s : State) : State :=
  set_console ((now s, m) :: console s) s.

(** Queue a callback to run [delay] milliseconds from now. [setTimeout],
    the first period of [setInterval], the end of a tween and the
    settlement of a promise all go through it. *)
Definition schedule (cb : Callback) (delay : Z) (s : State) : State :=
  set_timers (timers s ++ [(now s + delay, cb)]) s.

Definition setTimeout := schedule.
Definition setInterval := schedule.

Definition getElementById (id : string) (s : State) : option Element :=
  elements s !! id.

Definition querySelector := getElementById.

(** Apply a mutation to the element found under [id]. *)
Definition update (id : string) (f : Element → Element) (s : State) : State :=
  set_elements (alter f id (elements s)) s.

(** [element.play()]: the promise settles as the oracle says; the element
    leaves the paused state unless the call is rejected. *)
Definition play (id : string) (s : State) : PlayOutcome * State :=
  let r := play_outcome env (plays s) in
  let s := match r with
           | Resolves _ => update id (set_paused false) s
           | Rejects _ => s
           end in
  (r, set_plays (N.succ (plays s)) s).

Definition pause (id : string) (s : State) : State := update id (set_paused true) s.

(** [gsap.to(object, { duration, x, y, z, ... })]. *)
Definition gsap_to (obj : TweenObject) (duration : Z) (to : Vec3) (showMenu : bool)
    (s : State) : State :=
  let tw := {| tw_object := obj; tw_start := now s; tw_duration := duration;
               tw_to := to; tw_showGameMenu := showMenu |} in
  schedule (cb_tweenComplete tw) duration (set_tweens (tw :: tweens s) s).

(** ** Audio *)

Definition addAudioStartListener (s : State) : State :=
  set_documentListeners (documentListeners s ++ [L_startAudio]) s.

Definition startAudio (s : State) : State :=
  let s := match backgroundMusic s with
           | Some id =>
               match getElementById id s with
               | Some e => if paused e then snd (play id s) else s
               | None => s
               end
           | None => s
           end in
  set_documentListeners (filter (λ l, l ≠ L_startAudio) (documentListeners s)) s.

Definition startRandomVoiceSystem (s : State) : State :=
  let s := console_log M_startingVoiceSystem s in
  setInterval cb_voiceTick 25000 s.

(** [setupAudio], one definition for each of its three blocks. *)
Definition setupBackgroundMusic (s : State) : State :=
  let s := set_backgroundMusic
             (match getElementById "backgroundMusic" s with
              | Some _ => Some "backgroundMusic" | None => None end) s in
  match backgroundMusic s with
  | Some id =>
      let s := update id (set_volume 0.3%Q) s in
      let '(r, s) := play id s in
      match r with
      | Resolves d => schedule cb_musicStarted d s
      | Rejects d => schedule cb_autoplayPrevented d s
      end
  | None => s
  end.

Definition setupClickSound (s : State) : State :=
  let s := set_clickSound
             (match getElementById "clickSound" s with
              | Some _ => Some "clickSound" | None => None end) s in
  match clickSound s with
  | Some id => update id (set_volume 0.6%Q) s
  | None => s
  end.

Definition setupDistortedVoices (s : State) : State :=
  match getElementById "distortedVoice1" s, getElementById "distortedVoice2" s with
  | Some _, Some _ =>
      let s := update "distortedVoice1" (set_volume 0.4%Q) s in
      let s := update "distortedVoice2" (set_volume 0.4%Q) s in
      let s := set_distortedVoices ["distortedVoice1"; "distortedVoice2"] s in
      startRandomVoiceSystem s
  | _, _ => s
  end.

Definition setupAudio (s : State) : State :=
  let s := setupBackgroundMusic s in
  let s := setupClickSound s in
  setupDistortedVoices s.

Definition playClickSound (s : State) : State :=
  match clickSound s with
  | Some id =>
      let s := update id (set_currentTime 0%Q) s in
      snd (play id s)
  | None => s
  end.

Definition playRandomVoice (s : State) : State :=
  let s := console_log (M_attempting (length (distortedVoices s))) s in
  if Nat.eqb (length (distortedVoices s)) 0 then console_log M_noVoices s
  else
    let '(r, s) := Math_random s in
    let randomIndex :=
      Math_floor (r * Number (Z.of_nat (length (distortedVoices s))))%Q in
    let selectedVoice := array_get (distortedVoices s) randomIndex in
    let s := console_log (M_selected randomIndex) s in
    match selectedVoice with
    | Some v =>
        let s := update v (set_currentTime 0%Q) s in
        let '(p, s) := play v s in
        match p with
        | Resolves d => schedule (cb_voicePlaying v randomIndex) d s
        | Rejects d => schedule (cb_voiceError randomIndex) d s
        end
    | None => s
    end.

Definition maybePlayRandomVoice (s : State) : State :=
  let timeSinceLastVoice := now s - lastVoiceTime s in
  let '(randomChance, s) := Math_random s in
  if (60000 <? timeSinceLastVoice) && Qltb randomChance 0.15%Q
  then playRandomVoice (console_log M_triggering s)
  else s.

(** The [then] callback of [playRandomVoice]. *)
Definition voicePlaying (v : string) (randomIndex : Z) (s : State) : State :=
  let s := console_log (M_playing randomIndex) s in
  let s := set_lastVoiceTime (now s) s in
  setTimeout (cb_voiceStop v randomIndex) 5000 s.

Definition voiceStop (v : string) (randomIndex : Z) (s : State) : State :=
  let s := pause v s in
  let s := update v (set_currentTime 0%Q) s in
  console_log (M_stopped randomIndex) s.

(** ** Scene set-up *)

Definition createCamera (s : State) : State :=
  let aspect := (Number (innerWidth s) / Number (innerHeight s))%Q in
  let s := set_camera_fov 45%Q s in
  let s := set_camera_aspect aspect s in
  let s := set_camera_projection (45%Q, aspect) s in
  set_camera_position {| vx := 0%Q; vy := 0%Q; vz := 1000%Q |} s.

(** The last line is
    [document.getElementById('canvas-container').appendChild(...)], with no
    test of what the lookup returned. *)
Definition createRenderer (s : State) : Exn State :=
  let s := set_renderer_size (innerWidth s, innerHeight s) s in
  match getElementById "canvas-container" s with
  | Some _ => Ok s
  | None => TypeError "Cannot read properties of null (reading 'appendChild')"
  end.

(** [OrbitControls] is a library outside the sources. Of [this.controls]
    the model keeps the target; [controls.update()], which on every frame
    places the camera about the target, no nearer than [minDistance] and no
    farther than [maxDistance], is not modelled. [camera_position] and
    [controls_target] are the values the script and the ends of its tweens
    assign. *)
Definition createControls (s : State) : State :=
  set_controls_target {| vx := 0%Q; vy := 0%Q; vz := 0%Q |} s.

(** Three coordinates for each of the 15000 stars: what [createStarfield]
    does to the state is to make the draws. *)
Definition createStarfield (s : State) : State :=
  set_draws (draws s + 45000)%N s.

Definition onWindowResize (s : State) : State :=
  let s := set_camera_aspect (Number (innerWidth s) / Number (innerHeight s))%Q s in
  let s := set_camera_projection (camera_fov s, camera_aspect s) s in
  set_renderer_size (innerWidth s, innerHeight s) s.

(** ** Camera moves *)

Definition zoomToPlanet (s : State) : State :=
  let aspect := (Number (innerWidth s) / Number (innerHeight s))%Q in
  let fov := (camera_fov s * Math_PI / 180)%Q in
  let distance := 160%Q in
  let rightLookOffset := (Math_tan env (fov / 2) * distance * aspect)%Q in
  let s := gsap_to CameraPosition 3000
             {| vx := 0%Q; vy := 0%Q; vz := distance |} false s in
  gsap_to ControlsTarget 3000
    {| vx := rightLookOffset; vy := 0%Q; vz := 0%Q |} true s.

Definition moveEarthTo (direction : string) (s : State) : State :=
  let aspect := (Number (innerWidth s) / Number (innerHeight s))%Q in
  let fov := (camera_fov s * Math_PI / 180)%Q in
  let distance := 160%Q in
  let '(targetX, targetY) :=
    if String.eqb direction "right" then
      ((- Math_tan env (fov / 2) * distance * aspect * 0.8)%Q, 0%Q)
    else if String.eqb direction "top" then
      ((Math_tan env (fov / 2) * distance * aspect * 0.6)%Q,
       (Math_tan env (fov / 2) * distance * 0.8)%Q)
    else if String.eqb direction "bottom" then
      ((Math_tan env (fov / 2) * distance * aspect * 0.6)%Q,
       (- Math_tan env (fov / 2) * distance * 0.8)%Q)
    else if String.eqb direction "bottomRight" then
      ((- Math_tan env (fov / 2) * distance * aspect * 0.6)%Q,
       (- Math_tan env (fov / 2) * distance * 0.6)%Q)
    else (0%Q, 0%Q) in
  gsap_to ControlsTarget 2500 {| vx := targetX; vy := targetY; vz := 0%Q |} false s.

Definition moveEarthToLeft (s : State) : State :=
  let aspect := (Number (innerWidth s) / Number (innerHeight s))%Q in
  let fov := (camera_fov s * Math_PI / 180)%Q in
  let distance := 160%Q in
  let rightLookOffset := (Math_tan env (fov / 2) * distance * aspect)%Q in
  gsap_to ControlsTarget 2500 {| vx := rightLookOffset; vy := 0%Q; vz := 0%Q |} false s.

(** ** The start of the experience *)

Definition showSocialMedia (s : State) : State :=
  match getElementById "socialMedia" s with
  | Some _ =>
      let s := update "socialMedia" (classList_remove "hidden") s in
      setTimeout cb_socialVisible 100 s
  | None => s
  end.

Definition startGame (s : State) : State :=
  let s := playClickSound s in
  let s := set_hasStarted true s in
  let s := match getElementById "startText" s with
           | Some _ => update "startText" (classList_add "hidden") s
           | None => s
           end in
  let s := match getElementById "titleContainer" s with
           | Some _ => update "titleContainer" (classList_add "hidden") s
           | None => s
           end in
  let s := match getElementById "socialMedia" s with
           | Some _ => update "socialMedia" (set_display "none") s
           | None => s
           end in
  setTimeout cb_zoomToPlanet 300 s.

(** [setupSocialMediaInteractions] only registers listeners on the icons. *)
Definition setupStartExperience (s : State) : State :=
  let startText := getElementById "startText" s in
  let s := showSocialMedia s in
  let s := set_documentListeners (documentListeners s ++ [L_voiceTest]) s in
  let s := set_documentListeners (documentListeners s ++ [L_enter]) s in
  match startText with
  | Some _ => set_startTextClick true s
  | None => s
  end.

Definition setupEventListeners (s : State) : State := setupStartExperience s.

(** [init]: the methods that build the scene graph, the lights and the
    textures touch nothing that is modelled; [animate] is the render loop. *)
Definition init (s : State) : Exn State :=
  let s := setupAudio s in
  let s := createCamera s in
  match createRenderer s with
  | Ok s =>
      let s := createControls s in
      let s := createStarfield s in
      Ok (setupEventListeners s)
  | TypeError msg => TypeError msg
  end.

(** The page before the constructor runs: the field initialisers of the
    constructor, the document as the HTML gives it, no timer, no listener. *)
Definition initial (page : gmap string Element) (width height clock : Z) : State :=
  {| now := clock; innerWidth := width; innerHeight := height; elements := page;
     timers := []; draws := 0%N; plays := 0%N; console := []; tweens := [];
     documentListeners := []; nextListener := 0; startTextClick := false;
     menuSetups := 0; nextLabel := 0; hasStarted := false; escapeHandler := None;
     currentDialog := None; backgroundMusic := None; clickSound := None;
     distortedVoices := []; lastVoiceTime := 0; camera_fov := 0%Q; camera_aspect := 0%Q;
     camera_position := {| vx := 0%Q; vy := 0%Q; vz := 0%Q |};
     camera_projection := (0%Q, 0%Q);
     controls_target := {| vx := 0%Q; vy := 0%Q; vz := 0%Q |};
     renderer_size := (0, 0) |}.

(** ** Menu and text spawning *)

Definition showGameMenu (s : State) : State :=
  match getElementById "gameMenu" s with
  | Some _ =>
      let s := update "gameMenu" (classList_remove "hidden") s in
      setTimeout cb_gameMenuVisible 100 s
  | None => s
  end.

Definition techWords : list string :=
  [ "INITIALIZE"; "PROTOCOL"; "MATRIX"; "VECTOR"; "QUANTUM";
    "NEURAL"; "SYSTEM"; "BINARY"; "CODE"; "DATA";
    "CYBER"; "DIGITAL"; "STREAM"; "FLUX"; "NEXUS";
    "ORBIT"; "PLASMA"; "LASER"; "SIGNAL"; "CORE";
    "ALPHA"; "BETA"; "GAMMA"; "DELTA"; "OMEGA";
    "ERROR"; "LOADING"; "PROCESS"; "EXECUTE"; "RUN" ].

(** [spawnText] runs only where [container] was found, and the element it
    makes has a parent when its removal timer fires. An index outside
    [techWords] would give [undefined]; the empty string stands for it. *)
Definition spawnText (s : State) : State :=
  let '(r1, s) := Math_random s in
  let classes := if Qgtb r1 0.7%Q then ["random-text"; "fade"] else ["random-text"] in
  let '(r2, s) := Math_random s in
  let randomWord :=
    default "" (array_get techWords
                  (Math_floor (r2 * Number (Z.of_nat (length techWords)))%Q)) in
  let '(r3, s) := Math_random s in
  let '(r4, s) := Math_random s in
  let textElement :=
    {| label_id := nextLabel s; label_classes := classes; textContent := randomWord;
       style_left := (r3 * 300)%Q; style_top := (r4 * 500 + 200)%Q |} in
  let s := set_nextLabel (S (nextLabel s)) s in
  let s := update "randomTextContainer" (appendChild textElement) s in
  setTimeout (cb_removeText (label_id textElement)) 4000 s.

Definition removeText (lid : nat) (s : State) : State :=
  update "randomTextContainer" (removeChild lid) s.

(** The body of the [setInterval] callback of [startRandomTextSpawning]. *)
Definition textTick (s : State) : State :=
  let '(r, s) := Math_random s in
  if Qgtb r 0.4%Q then spawnText s else s.

Definition startRandomTextSpawning (s : State) : State :=
  match getElementById "randomTextContainer" s with
  | None => s
  | Some _ => setInterval cb_textTick 800 s
  end.

Definition setupMenuInteractions (s : State) : State :=
  set_menuSetups (S (menuSetups s)) s.

Definition gameMenuVisible (s : State) : State :=
  let s := update "gameMenu" (classList_add "visible") s in
  let s := startRandomTextSpawning s in
  setupMenuInteractions s.


(** ** Dialogs *)

Definition menuOptions : list (string * (string * string)) :=
  [ ("2", ("aboutDialog", "right"));
    ("3", ("problemDialog", "top"));
    ("4", ("contactDialog", "bottom"));
    ("5", ("sponsorsDialog", "bottomRight")) ].

Definition menuOption (key : string) : option (string * string) :=
  snd <$> List.find (λ kv, String.eqb (fst kv) key) menuOptions.

Definition dialogs : list string :=
  [ "aboutDialog"; "problemDialog"; "contactDialog"; "sponsorsDialog" ].

Definition addEscapeListener (s : State) : State :=
  let h := nextListener s in
  let s := set_nextListener (S h) s in
  let s := set_escapeHandler (Some h) s in
  set_documentListeners (documentListeners s ++ [L_escape h]) s.

Definition removeEscapeListener (s : State) : State :=
  match escapeHandler s with
  | Some h =>
      let s := set_documentListeners
                 (filter (λ l, l ≠ L_escape h) (documentListeners s)) s in
      set_escapeHandler None s
  | None => s
  end.

Definition showDialog (dialogId animationType : string) (s : State) : State :=
  let s := match getElementById "gameMenu" s with
           | Some _ => update "gameMenu" (set_display "none") s
           | None => s
           end in
  let s := set_currentDialog (Some dialogId) s in
  let s := moveEarthTo animationType s in
  let s := setTimeout (cb_dialogShow dialogId) 500 s in
  addEscapeListener s.

(** The two nested [setTimeout] callbacks of [showDialog]. *)
Definition dialogShow (dialogId : string) (s : State) : State :=
  match getElementById dialogId s with
  | Some _ =>
      let s := update dialogId (classList_remove "hidden") s in
      setTimeout (cb_dialogVisible dialogId) 50 s
  | None => s
  end.

Definition dialogVisible (dialogId : string) (s : State) : State :=
  update dialogId (classList_add "visible") s.

Definition hideDialog (dialogType : string) (s : State) : State :=
  let dialogId := dialogType +:+ "Dialog" in
  let s := match getElementById dialogId s with
           | Some _ =>
               let s := update dialogId (classList_remove "visible") s in
               setTimeout (cb_dialogHidden dialogId) 500 s
           | None => s
           end in
  removeEscapeListener s.

(** The [setTimeout] callback of [hideDialog]. *)
Definition dialogHidden (dialogId : string) (s : State) : State :=
  let s := update dialogId (classList_add "hidden") s in
  let s := match getElementById "gameMenu" s with
           | Some _ => update "gameMenu" (set_display "") s
           | None => s
           end in
  moveEarthToLeft s.

(** ** Callbacks *)

Definition tweenComplete (tw : Tween) (s : State) : State :=
  let s := match tw_object tw with
           | CameraPosition => set_camera_position (tw_to tw) s
           | ControlsTarget => set_controls_target (tw_to tw) s
           end in
  if tw_showGameMenu tw then showGameMenu s else s.

Definition run_callback (cb : Callback) (s : State) : State :=
  match cb with
  | cb_musicStarted => console_log M_musicStarted s
  | cb_autoplayPrevented => addAudioStartListener (console_log M_autoplayPrevented s)
  | cb_voiceTick => setInterval cb_voiceTick 25000 (maybePlayRandomVoice s)
  | cb_voicePlaying v i => voicePlaying v i s
  | cb_voiceError i => console_log (M_playError i) s
  | cb_voiceStop v i => voiceStop v i s
  | cb_loadingHidden =>
      match getElementById "loading" s with
      | Some _ => update "loading" (classList_add "hidden") s
      | None => s
      end
  | cb_socialVisible => update "socialMedia" (classList_add "visible") s
  | cb_zoomToPlanet => zoomToPlanet s
  | cb_tweenComplete tw => tweenComplete tw s
  | cb_gameMenuVisible => gameMenuVisible s
  | cb_textTick => setInterval cb_textTick 800 (textTick s)
  | cb_removeText lid => removeText lid s
  | cb_dialogShow d => dialogShow d s
  | cb_dialogVisible d => dialogVisible d s
  | cb_dialogHidden d => dialogHidden d s
  end.

(** ** Listeners *)

Inductive Event :=
| ev_click
| ev_touchstart
| ev_keydown (key code : string).

(** The body of each listener on [document]. *)
Definition handleEvent (l : Listener) (ev : Event) (s : State) : State :=
  match l, ev with
  | L_voiceTest, ev_keydown key _ =>
      if String.eqb (toLowerCase key) "v"
      then playRandomVoice (console_log M_manualTest s)
      else s
  | L_enter, ev_keydown _ code =>
      if String.eqb code "Enter" && negb (hasStarted s) then startGame s else s
  | L_escape _, ev_keydown key _ =>
      if String.eqb (toLowerCase key) "e" then
        let s := playClickSound s in
        match currentDialog s with
        | Some d => if String.eqb d "" then s else hideDialog (replace "Dialog" "" d) s
        | None => s
        end
      else s
  | L_startAudio, _ => startAudio s
  | _, _ => s
  end.

(** An event reaching [document]: the listeners registered when the
    dispatch starts run in order, except those removed meanwhile. *)
Definition dispatch (ev : Event) (s : State) : State :=
  fold_left
    (λ s l, if bool_decide (l ∈ documentListeners s) then handleEvent l ev s else s)
    (documentListeners s) s.

(** The click listeners on elements. *)
Definition startTextClicked (s : State) : State :=
  if negb (hasStarted s) then startGame s else s.

Definition menuItemClicked (key : string) (s : State) : State :=
  match menuOption key with
  | Some (dialog, animation) => showDialog dialog animation (playClickSound s)
  | None => s
  end.

(** [btn.getAttribute('data-dialog')] is [null] without the attribute, and
    [null + 'Dialog'] is the string [nullDialog]. *)
Definition closeButtonClicked (data_dialog : option string) (s : State) : State :=
  let s := playClickSound s in
  let dialogType := default "null" data_dialog in
  hideDialog dialogType s.

Definition overlayClicked (dialogId : string) (targetIsOverlay : bool) (s : State) : State :=
  if targetIsOverlay then hideDialog (replace "Dialog" "" dialogId) s else s.

Definition socialIconClicked (platform : option string) (s : State) : State :=
  let s := playClickSound s in
  console_log (M_iconClicked platform) s.

(** ** The event loop *)

(** What can happen to the page. A click names the element whose listener
    it reaches first; every click then bubbles to [document]. *)
Inductive Input :=
| Wait (ms : Z)                         (* time passes and no callback runs *)
| RunNext                               (* the pending callback due first runs *)
| Keydown (key code : string)
| Touchstart
| ClickElsewhere
| ClickStartText
| ClickMenuItem (key : string)          (* the element with this data-option *)
| ClickCloseButton (data_dialog : option string)
| ClickDialog (dialogId : string) (targetIsOverlay : bool)
| ClickSocialIcon (platform : option string)
| Resize (width height : Z)
| LoadProgress (itemsLoaded itemsTotal : Z)
| LoadComplete.

Definition min_due (l : list (Z * Callback)) : option Z :=
  match l with
  | [] => None
  | (d, _) :: r => Some (fold_left Z.min (fst <$> r) d)
  end.

(** Take out the first timer with due time [d]. *)
Fixpoint take_due (d : Z) (l : list (Z * Callback)) : option (Callback * list (Z * Callback)) :=
  match l with
  | [] => None
  | (d', cb) :: r =>
      if d' =? d then Some (cb, r)
      else match take_due d r with
           | Some (cb', r') => Some (cb', (d', cb) :: r')
           | None => None
           end
  end.

Definition runNext (s : State) : State :=
  match min_due (timers s) with
  | Some d =>
      match take_due d (timers s) with
      | Some (cb, rest) => run_callback cb (set_now (Z.max (now s) d) (set_timers rest s))
      | None => s
      end
  | None => s
  end.

Definition onProgress (itemsLoaded itemsTotal : Z) (s : State) : State :=
  let progress := (Number itemsLoaded / Number itemsTotal * 100)%Q in
  match querySelector ".loading-progress" s with
  | Some _ => update ".loading-progress" (set_width progress) s
  | None => s
  end.

Definition step (i : Input) (s : State) : State :=
  match i with
  | Wait ms => set_now (now s + Z.max 0 ms) s
  | RunNext => runNext s
  | Keydown key code => dispatch (ev_keydown key code) s
  | Touchstart => dispatch ev_touchstart s
  | ClickElsewhere => dispatch ev_click s
  | ClickStartText =>
      dispatch ev_click (if startTextClick s then startTextClicked s else s)
  | ClickMenuItem key =>
      dispatch ev_click (Nat.iter (menuSetups s) (menuItemClicked key) s)
  | ClickCloseButton data_dialog =>
      dispatch ev_click (Nat.iter (menuSetups s) (closeButtonClicked data_dialog) s)
  | ClickDialog dialogId targetIsOverlay =>
      dispatch ev_click
        (if bool_decide (dialogId ∈ dialogs) then
           match getElementById dialogId s with
           | Some _ => Nat.iter (menuSetups s) (overlayClicked dialogId targetIsOverlay) s
           | None => s
           end
         else s)
  | ClickSocialIcon platform => dispatch ev_click (socialIconClicked platform s)
  | Resize width height =>
      onWindowResize (set_innerHeight height (set_innerWidth width s))
  | LoadProgress itemsLoaded itemsTotal => onProgress itemsLoaded itemsTotal s
  | LoadComplete => setTimeout cb_loadingHidden 500 s
  end.

Definition run (inputs : list Input) (s : State) : State :=
  fold_left (λ s i, step i s) inputs s.

End Script.

(** ** Observations used to state the properties *)

(** Whether the panel with this id is on screen; a missing panel is not. *)
Definition panelShown (id : string) (s : State) : bool :=
  match elements s !! id with
  | Some e => shown e
  | None => false
  end.

Definition is_tick (t : Z * Callback) : bool :=
  match snd t with cb_voiceTick => true | _ => false end.

Definition is_zoom (t : Z * Callback) : bool :=
  match snd t with cb_zoomToPlanet => true | _ => false end.

Definition is_playing (t : Z * Callback) : bool :=
  match snd t with cb_voicePlaying _ _ => true | _ => false end.

(** Pending calls of [zoomToPlanet], and zoom-in tweens already started:
    the zoom-in tween is the only one whose [onComplete] shows the menu. *)
Definition zoomTimers (s : State) : nat := length (List.filter is_zoom (timers s)).
Definition zoomTweens (s : State) : nat := length (List.filter tw_showGameMenu (tweens s)).

Definition is_triggering (m : Z * Msg) : bool :=
  match snd m with M_triggering => true | _ => false end.

Definition is_nowPlaying (m : Z * Msg) : bool :=
  match snd m with M_playing _ => true | _ => false end.

(** The times at which the scheduler fired ('Triggering atmospheric
    voice...'), newest first; and the times at which a clip started to play
    ('Successfully playing...'), whoever asked for it. *)
Definition fires (s : State) : list Z := fst <$> List.filter is_triggering (console s).
Definition playbacks (s : State) : list Z := fst <$> List.filter is_nowPlaying (console s).

(** No two of these times, listed newest first, are within the cooldown. *)
Fixpoint spaced (l : list Z) : Prop :=
  match l with
  | [] => True
  | a :: r => (∀ b, b ∈ r → b + 60000 < a) ∧ spaced r
  end.

(** The start guard as an invariant: before the start, no zoom is pending
    and none was made; after it, the pending and started zoom-ins number
    exactly one. *)
Definition started_once (s : State) : Prop :=
  (zoomTimers s + zoomTweens s)%nat = if hasStarted s then 1%nat else 0%nat.

(** The two start triggers: the Enter key and a click on the start text. *)
Inductive StartTrigger := EnterKey | StartClick.

Definition trigger (env : Env) (t : StartTrigger) (s : State) : State :=
  match t with
  | EnterKey => handleEvent env L_enter (ev_keydown "Enter" "Enter") s
  | StartClick => startTextClicked env s
  end.

Definition triggers (env : Env) (l : list StartTrigger) (s : State) : State :=
  fold_left (λ s t, trigger env t s) l s.

(** The classes and the inline display of the element with this id. *)
Definition look (id : string) (s : State) : option (list string * string) :=
  (λ e, (classList e, style_display e)) <$> elements s !! id.

(** An element mutation that leaves classes and display alone. *)
Definition styleNeutral (f : Element → Element) : Prop :=
  ∀ e, classList (f e) = classList e ∧ style_display (f e) = style_display e.

(** ** Frames: what a method leaves alone *)

(** [sframe s0 s]: going from [s0] to [s] did not touch the start flag, the
    pending zoom timers or the zoom-in tweens. *)
Definition sframe (s0 s : State) : Prop :=
  hasStarted s = hasStarted s0 ∧ zoomTimers s = zoomTimers s0 ∧ zoomTweens s = zoomTweens s0.

(** [vframe s0 s]: time may have passed, but the voice scheduler's data are
    the same, its interval timers are the same, and no pending
    [play().then] callback was lost. *)
Record vframe (s0 s : State) : Prop := {
  vf_now : now s0 ≤ now s;
  vf_last : lastVoiceTime s = lastVoiceTime s0;
  vf_voices : distortedVoices s = distortedVoices s0;
  vf_fires : fires s = fires s0;
  vf_ticks : List.filter is_tick (timers s) = List.filter is_tick (timers s0);
  vf_playing : ∀ t, is_playing t = true → t ∈ timers s0 → t ∈ timers s
}.

(** A state transformer that touches none of the fields a frame looks at. *)
Definition neutral (f : State → State) : Prop :=
  ∀ s, now (f s) = now s ∧ hasStarted (f s) = hasStarted s ∧
       lastVoiceTime (f s) = lastVoiceTime s ∧ distortedVoices (f s) = distortedVoices s ∧
       console (f s) = console s ∧ timers (f s) = timers s ∧ tweens (f s) = tweens s.

(** [lsame s0 s]: every element has kept its classes and its display. *)
Record lsame (s0 s : State) : Prop := { ls_look : ∀ id, look id s = look id s0 }.

(** What [playRandomVoice] does once it has picked an element of the pool. *)
Definition voiceSelected (env : Env) (v : string) (i : Z) (s : State) : State :=
  let s := console_log (M_attempting (length (distortedVoices s))) s in
  let s := snd (Math_random env s) in
  let s := console_log (M_selected i) s in
  let s := update v (set_currentTime 0%Q) s in
  let '(p, s) := play env v s in
  match p with
  | Resolves d => schedule (cb_voicePlaying v i) d s
  | Rejects d => schedule (cb_voiceError i) d s
  end.


(** ** The voice scheduler's invariant *)

(** What the amended cooldown property asks of the environment. *)
Definition draws_in_range (env : Env) : Prop :=
  ∀ n, (0 <= Math_random_at env n)%Q ∧ (Math_random_at env n < 1)%Q.

Definition plays_settle_promptly (env : Env) : Prop :=
  ∀ n, ∃ d, play_outcome env n = Resolves d ∧ 0 ≤ d < 25000.

(** Every scheduler firing is in the past and is either already covered by
    [lastVoiceTime] or still has its [then] callback pending, due before
    the next tick; there is at most one interval timer, and it exists only
    where the pool has its two voices. *)
Record voice_inv (s : State) : Prop := {
  vi_spaced : spaced (fires s);
  vi_past : ∀ b, b ∈ fires s → b ≤ now s;
  vi_covered : ∀ b, b ∈ fires s →
    b ≤ lastVoiceTime s ∨
    ∃ dr v i, (dr, cb_voicePlaying v i) ∈ timers s ∧ b ≤ dr ∧
              ∀ t, t ∈ List.filter is_tick (timers s) → dr < fst t;
  vi_one_tick : (length (List.filter is_tick (timers s)) ≤ 1)%nat;
  vi_pool : List.filter is_tick (timers s) ≠ [] → length (distortedVoices s) = 2%nat
}.

(** ** A concrete page, for examples *)

Definition blankElement : Element :=
  {| classList := []; style_display := ""; style_width := None; volume := 1%Q;
     currentTime := 0%Q; paused := true; childNodes := [] |}.

Definition hiddenPanel : Element :=
  {| classList := ["hidden"]; style_display := ""; style_width := None; volume := 1%Q;
     currentTime := 0%Q; paused := true; childNodes := [] |}.

(** A page with every element the script looks up; the panels start with
    the class [hidden]. *)
Definition demoPage : gmap string Element :=
  list_to_map
    [ ("canvas-container", blankElement); ("loading", blankElement);
      (".loading-progress", blankElement); ("startText", blankElement);
      ("titleContainer", blankElement); ("socialMedia", hiddenPanel);
      ("gameMenu", hiddenPanel); ("randomTextContainer", blankElement);
      ("aboutDialog", hiddenPanel); ("problemDialog", hiddenPanel);
      ("contactDialog", hiddenPanel); ("sponsorsDialog", hiddenPanel);
      ("backgroundMusic", blankElement); ("clickSound", blankElement);
      ("distortedVoice1", blankElement); ("distortedVoice2", blankElement) ].

(** The same page without the canvas container. *)
Definition pageWithoutCanvas : gmap string Element := delete "canvas-container" demoPage.

Definition demoClock : Z := 1700000000000.

(** Every draw is 0.1 and every [play()] resolves at once. *)
Definition promptEnv : Env :=
  {| Math_tan := λ x, x; Math_random_at := λ _, 0.1%Q; play_outcome := λ _, Resolves 0 |}.

(** Every draw is 0.1 and every [play()] takes 30 seconds to resolve. *)
Definition slowEnv : Env :=
  {| Math_tan := λ x, x; Math_random_at := λ _, 0.1%Q;
     play_outcome := λ _, Resolves 30000 |}.

(** Every draw is 0.1 and every [play()] is rejected at once, as under an
    autoplay policy before the first user gesture. *)
Definition blockedEnv : Env :=
  {| Math_tan := λ x, x; Math_random_at := λ _, 0.1%Q; play_outcome := λ _, Rejects 0 |}.

(** The state [init] leaves behind on the demo page, 1600 by 900. *)
Definition constructed (env : Env) : State :=
  match init env (initial demoPage 1600 900 demoClock) with
  | Ok s => s
  | TypeError _ => initial demoPage 1600 900 demoClock
  end.

(** ** Camera poses *)

Definition viewAspect (s : State) : Q := (Number (innerWidth s) / Number (innerHeight s))%Q.

(** The camera's field of view in radians. *)
Definition fovRadians (s : State) : Q := (camera_fov s * Math_PI / 180)%Q.

(** The pose the zoom-in ends at and [moveEarthToLeft] returns to. *)
Definition menuPose (env : Env) (s : State) : Vec3 :=
  {| vx := (Math_tan env (fovRadians s / 2) * 160 * viewAspect s)%Q; vy := 0%Q; vz := 0%Q |}.

(** The pose of the [top] direction, as the scenario states it. *)
Definition topPose (env : Env) (s : State) : Vec3 :=
  {| vx := (Math_tan env (fovRadians s / 2) * 160 * viewAspect s * 0.6)%Q;
     vy := (Math_tan env (fovRadians s / 2) * 160 * 0.8)%Q;
     vz := 0%Q |}.

(** The pose each direction of [moveEarthTo] aims at. *)
Definition earthTarget (env : Env) (direction : string) (s : State) : Vec3 :=
  let t := Math_tan env (fovRadians s / 2) in
  if String.eqb direction "right" then
    {| vx := (- t * 160 * viewAspect s * 0.8)%Q; vy := 0%Q; vz := 0%Q |}
  else if String.eqb direction "top" then
    {| vx := (t * 160 * viewAspect s * 0.6)%Q; vy := (t * 160 * 0.8)%Q; vz := 0%Q |}
  else if String.eqb direction "bottom" then
    {| vx := (t * 160 * viewAspect s * 0.6)%Q; vy := (- t * 160 * 0.8)%Q; vz := 0%Q |}
  else if String.eqb direction "bottomRight" then
    {| vx := (- t * 160 * viewAspect s * 0.6)%Q; vy := (- t * 160 * 0.6)%Q; vz := 0%Q |}
  else {| vx := 0%Q; vy := 0%Q; vz := 0%Q |}.

(** A tween of the camera target over 2500 ms, as the dialog moves make. *)
Definition targetTween (s : State) (to : Vec3) : Tween :=
  {| tw_object := ControlsTarget; tw_start := now s; tw_duration := 2500;
     tw_to := to; tw_showGameMenu := false |}.

(** ** Closing a dialog *)

(** The three ways to close: a close button (with its [data-dialog]
    attribute), a click whose target is the backdrop itself, and a key
    handled by the escape listener. *)
Inductive CloseMechanism :=
| CloseButton (data_dialog : string)
| BackdropClick
| ExitKey (key code : string) (listener : nat).

Definition close (env : Env) (dialogId : string) (m : CloseMechanism) (s : State) : State :=
  match m with
  | CloseButton ty => closeButtonClicked env (Some ty) s
  | BackdropClick => overlayClicked dialogId true s
  | ExitKey key code h => handleEvent env (L_escape h) (ev_keydown key code) s
  end.

(** The mechanism is aimed at this dialog: the button belongs to it, or
    the key is E while it is the current dialog. *)
Definition closes (dialogId : string) (m : CloseMechanism) (s : State) : Prop :=
  match m with
  | CloseButton ty => ty +:+ "Dialog" = dialogId
  | BackdropClick => True
  | ExitKey key _ _ => toLowerCase key = "e" ∧ currentDialog s = Some dialogId
  end.

(** ** Input sequences for examples *)

(** On the demo page with [promptEnv]: the start click, then the callbacks
    up to the one that makes the menu visible and registers its listeners
    (music started, social icons, [zoomToPlanet], the two zoom tweens, the
    menu). *)
Definition toMenu : list Input :=
  [ClickStartText; RunNext; RunNext; RunNext; RunNext; RunNext; RunNext].

(** From the menu: select option 2 and let its dialog appear. *)
Definition openAbout : list Input := [ClickMenuItem "2"; RunNext; RunNext].

(** The dialogs on screen. *)
Definition shownDialogs (s : State) : list string :=
  List.filter (λ d, panelShown d s) dialogs.

(** [promptEnv] with any [Math.tan]. *)
Definition tanEnv (tan : Q → Q) : Env :=
  {| Math_tan := tan; Math_random_at := λ _, 0.1%Q; play_outcome := λ _, Resolves 0 |}.


(** ** Further observations *)

(** The element with this id, if the page has it, carries the class
    [hidden]; has the inline display [none]. *)
Definition hiddenClass (id : string) (s : State) : Prop :=
  ∀ e, elements s !! id = Some e → "hidden" ∈ classList e.

Definition displayNone (id : string) (s : State) : Prop :=
  ∀ e, elements s !! id = Some e → style_display e = "none".

(** Every pending [showDialog] callback is for one of the four dialogs. *)
Definition dialogShowsOk (s : State) : Prop :=
  ∀ t d, (t, cb_dialogShow d) ∈ timers s → d ∈ dialogs.

(** The intro is off the screen. *)
Definition introGone (s : State) : Prop :=
  displayNone "socialMedia" s ∧ hiddenClass "startText" s ∧ hiddenClass "titleContainer" s.

(** After the start the intro is gone; [sticky] says whether the start is
    known to have happened. *)
Definition introInv (sticky : bool) (s : State) : Prop :=
  dialogShowsOk s ∧ (sticky = true → hasStarted s = true) ∧
  (hasStarted s = true → introGone s).

(** ** From the start to the menu *)

Definition is_menuTween (t : Z * Callback) : bool :=
  match snd t with cb_tweenComplete tw => tw_showGameMenu tw | _ => false end.

Definition is_menuVisible (t : Z * Callback) : bool :=
  match snd t with cb_gameMenuVisible => true | _ => false end.

Definition is_textTick (t : Z * Callback) : bool :=
  match snd t with cb_textTick => true | _ => false end.

(** How many pending callbacks satisfy [P]. *)
Definition pending (P : Z * Callback → bool) (s : State) : nat :=
  length (List.filter P (timers s)).

(** How far the page is on its way from the start to the menu: the start
    flag, the pending [zoomToPlanet] calls, the zoom-in tweens still
    running, the pending reveals of the menu, how many times the menu's
    listeners were registered, and the text spawners running. *)
Record Progress := {
  p_started : bool;
  p_zoom : nat;
  p_tween : nat;
  p_reveal : nat;
  p_setups : nat;
  p_spawners : nat
}.

Definition progress (s : State) : Progress :=
  {| p_started := hasStarted s; p_zoom := pending is_zoom s;
     p_tween := pending is_menuTween s; p_reveal := pending is_menuVisible s;
     p_setups := menuSetups s; p_spawners := pending is_textTick s |}.

Definition progressInv (J : Progress → Prop) (s : State) : Prop := J (progress s).

(** At most one thing is on that way, and only after the start; a text
    spawner runs only where the menu was set up. *)
Definition oneWay (p : Progress) : Prop :=
  (p_zoom p + p_tween p + p_reveal p + p_setups p ≤ if p_started p then 1 else 0)%nat ∧
  (p_spawners p ≤ p_setups p)%nat.

(** ** Where the camera looks *)

(** A point of the z axis. *)
Definition onAxis (z : Q) : Vec3 := {| vx := 0%Q; vy := 0%Q; vz := z |}.

(** What the script asks of a tween: on the camera position, the end
    point at distance 160 on the z axis, in 3000 ms; on the controls
    target, an end point in the plane z = 0, in 3000 or 2500 ms. *)
Definition aimed (tw : Tween) : Prop :=
  match tw_object tw with
  | CameraPosition => tw_to tw = onAxis 160 ∧ tw_duration tw = 3000
  | ControlsTarget =>
      vz (tw_to tw) = 0%Q ∧ (tw_duration tw = 3000 ∨ tw_duration tw = 2500)
  end.

(** Every [gsap.to] call made so far is one of these. *)
Definition tweensAimed (s : State) : Prop := ∀ tw, tw ∈ tweens s → aimed tw.

(** ** The view and the window *)

(** The camera has the field of view and the aspect ratio of the window,
    its projection matrix was computed from them, and the renderer has the
    size of the window. *)
Definition viewInv (s : State) : Prop :=
  camera_fov s = 45%Q ∧ camera_aspect s = viewAspect s ∧
  camera_projection s = (camera_fov s, camera_aspect s) ∧
  renderer_size s = (innerWidth s, innerHeight s).

(** ** The voices *)

(** Whether the page has an element with this id. *)
Definition present (id : string) (s : State) : bool :=
  match elements s !! id with Some _ => true | None => false end.

Definition bothVoices (s : State) : bool :=
  present "distortedVoice1" s && present "distortedVoice2" s.

(** The pool is [pool], [n] interval timers of the scheduler are pending,
    and the page has both voice elements or not as [b] says. *)
Definition tickInv (b : bool) (pool : list string) (n : nat) (s : State) : Prop :=
  bothVoices s = b ∧ distortedVoices s = pool ∧ pending is_tick s = n.

(** Nothing of the voice system is under way: the pool is empty, no tick
    and no [then] callback is pending, nothing was fired or played, and a
    voice element is missing. *)
Definition silent (s : State) : Prop :=
  bothVoices s = false ∧ distortedVoices s = [] ∧
  (∀ t, t ∈ timers s → is_tick t = false ∧ is_playing t = false) ∧
  fires s = [] ∧ playbacks s = [].

(** Every clip that started to play has its stop pending 5000 ms after its
    start, or was stopped no earlier than that. *)
Definition clipsStopped (s : State) : Prop :=
  ∀ t i, (t, M_playing i) ∈ console s →
    (∃ v, (t + 5000, cb_voiceStop v i) ∈ timers s) ∨
    (∃ t', t + 5000 ≤ t' ∧ (t', M_stopped i) ∈ console s).

(** ** The listeners on document *)

(** Every escape handler on [document] was made by an earlier
    [addEscapeListener], and the one [this.escapeHandler] holds is
    registered. *)
Definition listenersOk (s : State) : Prop :=
  (∀ h, L_escape h ∈ documentListeners s → (h < nextListener s)%nat) ∧
  (∀ h, escapeHandler s = Some h → L_escape h ∈ documentListeners s).

(** The escape handler [h] is registered, and [this.escapeHandler] holds
    another one or none. *)
Definition orphan (h : nat) (s : State) : Prop :=
  L_escape h ∈ documentListeners s ∧ escapeHandler s ≠ Some h ∧ (h < nextListener s)%nat.

(** The inputs that deliver an event to [document]. *)
Definition interaction (i : Input) : bool :=
  match i with
  | Keydown _ _ | Touchstart | ClickElsewhere | ClickStartText | ClickMenuItem _
  | ClickCloseButton _ | ClickDialog _ _ | ClickSocialIcon _ => true
  | _ => false
  end.

(** No [startAudio] listener is registered. *)
Definition noAudioListener (s : State) : Prop := L_startAudio ∉ documentListeners s.

Definition is_prevented (t : Z * Callback) : bool :=
  match snd t with cb_autoplayPrevented => true | _ => false end.

(** The fallback of [setupAudio] is not under way: no [startAudio]
    listener is registered and no [catch] callback of the music is
    pending. *)
Definition noFallback (s : State) : Prop :=
  noAudioListener s ∧ (∀ t, t ∈ timers s → is_prevented t = false).

(** ** Before the start *)

(** The inputs that can start the experience. *)
Definition startInput (i : Input) : bool :=
  match i with
  | Keydown _ code => String.eqb code "Enter"
  | ClickStartText => true
  | _ => false
  end.

(** The callbacks of the flow from the start to the menu and the dialogs. *)
Definition is_flow (cb : Callback) : bool :=
  match cb with
  | cb_zoomToPlanet | cb_tweenComplete _ | cb_gameMenuVisible | cb_textTick
  | cb_removeText _ | cb_dialogShow _ | cb_dialogVisible _ | cb_dialogHidden _ => true
  | _ => false
  end.

(** Nothing of that flow has happened or is pending. *)
Definition waiting (s : State) : Prop :=
  hasStarted s = false ∧ tweens s = [] ∧ menuSetups s = 0%nat ∧
  currentDialog s = None ∧ escapeHandler s = None ∧
  ∀ t cb, (t, cb) ∈ timers s → is_flow cb = false.

(** ** The loading bar *)

(** The width of the loading bar, when the page has one. *)
Definition barWidth (s : State) : option (option Q) :=
  style_width <$> elements s !! ".loading-progress".

Definition is_progress (i : Input) : bool :=
  match i with LoadProgress _ _ => true | _ => false end.

Definition barIs (w : option (option Q)) (s : State) : Prop := barWidth s = w.

(** The loading overlay is hidden, or the timer that hides it is pending. *)
Definition loadedInv (s : State) : Prop :=
  dialogShowsOk s ∧
  (hiddenClass "loading" s ∨ ∃ t, (t, cb_loadingHidden) ∈ timers s).

(** ** The spawned labels *)

Definition labels (s : State) : list Label :=
  match elements s !! "randomTextContainer" with
  | Some c => childNodes c
  | None => []
  end.

(** The labels on the page have distinct identities, all below the next
    one, and each has its removal pending, due at most 4000 ms from now. *)
Definition labelsExpire (s : State) : Prop :=
  NoDup (label_id <$> labels s) ∧
  ∀ l, l ∈ labels s →
    (label_id l < nextLabel s)%nat ∧
    ∃ t, (t, cb_removeText (label_id l)) ∈ timers s ∧ t ≤ now s + 4000.

(** ** The star field *)

Definition starCount : nat := Z.to_nat 15000.

(** The loop of [createStarfield], [for (let i = 0; i < starCount * 3;
    i += 3)]: [n] more rounds, the next at index [i] of [positions].
    [positions] is a [Float32Array]: [fround] is the conversion to the
    nearest binary32 number that a store into it applies. *)
Fixpoint starLoop (env : Env) (fround : Q → Q) (n i : nat) (positions : list Q) (s : State)
    : list Q * State :=
  match n with
  | O => (positions, s)
  | S n =>
      let '(r, s) := Math_random env s in
      let positions := <[i := fround ((r - 0.5) * 2000)%Q]> positions in
      let '(r, s) := Math_random env s in
      let positions := <[(i + 1)%nat := fround ((r - 0.5) * 2000)%Q]> positions in
      let '(r, s) := Math_random env s in
      let positions := <[(i + 2)%nat := fround ((r - 0.5) * 2000)%Q]> positions in
      starLoop env fround n (i + 3) positions s
  end.

(** The [positions] array of [createStarfield] when its loop ends, with
    the state the draws leave. A new [Float32Array] holds zeros. *)
Definition starPositions (env : Env) (fround : Q → Q) (s : State) : list Q * State :=
  starLoop env fround starCount 0 (replicate (starCount * 3) 0%Q) s.

(** What the bounds of the star field need of the conversion: rounding to
    nearest keeps the order, and 1000 and -1000 are binary32 numbers. *)
Definition rounds (fround : Q → Q) : Prop :=
  (∀ x y, (x <= y)%Q → (fround x <= fround y)%Q) ∧
  (fround (-1000) == -1000)%Q ∧ (fround 1000 == 1000)%Q.

(** To the nearest multiple of 2^-14, the spacing of the binary32 numbers
    of magnitude between 512 and 1024. *)
Definition toGrid (x : Q) : Q := (inject_Z (Qfloor (x * 16384 + (1 # 2))) / 16384)%Q.

(** Every draw is 0.99999999 and every [play()] resolves at once. *)
Definition edgeEnv : Env :=
  {| Math_tan := λ x, x; Math_random_at := λ _, 0.99999999%Q;
     play_outcome := λ _, Resolves 0 |}.

(** ** Zooming out *)

(** [zoomOut]: no caller in the script. *)
Definition zoomOut (s : State) : State :=
  let s := gsap_to CameraPosition 3000 {| vx := 0%Q; vy := 0%Q; vz := 1000%Q |} false s in
  gsap_to ControlsTarget 3000 {| vx := 0%Q; vy := 0%Q; vz := 0%Q |} false s.

(** The callbacks that start a tween or are the end of one. *)
Definition is_move (cb : Callback) : bool :=
  match cb with
  | cb_zoomToPlanet | cb_tweenComplete _ | cb_dialogHidden _ => true
  | _ => false
  end.

(** The inputs that reach no listener of the script but the resize
    handler and the loading manager. *)
Definition passive (i : Input) : bool :=
  match i with
  | Wait _ | RunNext | Resize _ _ | LoadProgress _ _ | LoadComplete => true
  | _ => false
  end.

(** Where [zoomOut] leads. *)
Definition home (obj : TweenObject) : Vec3 :=
  match obj with
  | CameraPosition => onAxis 1000
  | ControlsTarget => onAxis 0
  end.

Definition at_ (obj : TweenObject) (s : State) : Vec3 :=
  match obj with
  | CameraPosition => camera_position s
  | ControlsTarget => controls_target s
  end.

(** The camera position and the controls target are each at home or have
    a tween pending; every pending tween leads home and shows no menu, and
    no other callback that starts a tween is pending. *)
Definition zoomingOut (s : State) : Prop :=
  (∀ obj, at_ obj s = home obj ∨
          ∃ t tw, (t, cb_tweenComplete tw) ∈ timers s ∧ tw_object tw = obj) ∧
  (∀ t cb, (t, cb) ∈ timers s →
     match cb with
     | cb_tweenComplete tw => tw_to tw = home (tw_object tw) ∧ tw_showGameMenu tw = false
     | _ => is_move cb = false
     end).

(** ** One more environment *)

(** Every draw is 0.9 and every [play()] resolves at once: every tick of
    the spawner makes a label. *)
Definition busyEnv : Env :=
  {| Math_tan := λ x, x; Math_random_at := λ _, 0.9%Q; play_outcome := λ _, Resolves 0 |}.

(** ** The render loop *)

(** What [animate] reads and writes: the animation fields of [this], the
    rotation about the y axis of the three objects it turns, whether the
    objects it tests exist, and counters for the calls it makes
    ([requestAnimationFrame] callbacks pending, [controls.update] and
    [renderer.render] calls made). *)
Record Scene := {
  isAnimating : bool;
  earthRotationSpeed : Q;
  cloudRotationSpeed : Q;
  earthGroup : bool;                    (* this.earthGroup is set *)
  earth_rotation_y : Q;                 (* this.earth.rotation.y *)
  clouds_rotation_y : option Q;         (* this.clouds.rotation.y, when this.clouds is set *)
  stars_rotation_y : option Q;          (* this.stars.rotation.y, when this.stars is set *)
  has_controls : bool;                  (* this.controls is set *)
  can_render : bool;                    (* this.renderer, this.scene and this.camera are set *)
  frameRequests : nat;
  controlsUpdates : nat;
  renders : nat
}.

Definition animate (sc : Scene) : Scene :=
  let turning := isAnimating sc && earthGroup sc in
  {| isAnimating := isAnimating sc;
     earthRotationSpeed := earthRotationSpeed sc;
     cloudRotationSpeed := cloudRotationSpeed sc;
     earthGroup := earthGroup sc;
     earth_rotation_y :=
       if turning then (earth_rotation_y sc + 0.0028 * earthRotationSpeed sc)%Q
       else earth_rotation_y sc;
     clouds_rotation_y :=
       if turning then (λ r, r + 0.0063 * cloudRotationSpeed sc)%Q <$> clouds_rotation_y sc
       else clouds_rotation_y sc;
     stars_rotation_y :=
       if turning then (λ r, r + 0.0001)%Q <$> stars_rotation_y sc
       else stars_rotation_y sc;
     has_controls := has_controls sc;
     can_render := can_render sc;
     frameRequests := S (frameRequests sc);
     controlsUpdates :=
       if has_controls sc then S (controlsUpdates sc) else controlsUpdates sc;
     renders := if can_render sc then S (renders sc) else renders sc |}.

(** The browser runs one of the requested frames. *)
Definition nextFrame (sc : Scene) : Scene :=
  match frameRequests sc with
  | O => sc
  | S n =>
      animate {| isAnimating := isAnimating sc;
                 earthRotationSpeed := earthRotationSpeed sc;
                 cloudRotationSpeed := cloudRotationSpeed sc;
                 earthGroup := earthGroup sc;
                 earth_rotation_y := earth_rotation_y sc;
                 clouds_rotation_y := clouds_rotation_y sc;
                 stars_rotation_y := stars_rotation_y sc;
                 has_controls := has_controls sc;
                 can_render := can_render sc;
                 frameRequests := n;
                 controlsUpdates := controlsUpdates sc;
                 renders := renders sc |}
  end.

(** [n] times the step [d], added to [r]. *)
Definition turned (r d : Q) (n : nat) : Q := (r + inject_Z (Z.of_nat n) * d)%Q.

(** Equal as rationals, where both are there. *)
Definition option_Qeq (a b : option Q) : Prop :=
  match a, b with
  | Some x, Some y => (x == y)%Q
  | None, None => True
  | _, _ => False
  end.

(** The scene after [n] calls of [animate], each but the first from a
    requested frame. *)
Record after_frames (sc : Scene) (n : nat) (sc' : Scene) : Prop := {
  af_isAnimating : isAnimating sc' = isAnimating sc;
  af_earthSpeed : earthRotationSpeed sc' = earthRotationSpeed sc;
  af_cloudSpeed : cloudRotationSpeed sc' = cloudRotationSpeed sc;
  af_earthGroup : earthGroup sc' = earthGroup sc;
  af_controls : has_controls sc' = has_controls sc;
  af_render : can_render sc' = can_render sc;
  af_requests : frameRequests sc' = S (frameRequests sc);
  af_updates :
    controlsUpdates sc' = (controlsUpdates sc + if has_controls sc then n else 0)%nat;
  af_renders : renders sc' = (renders sc + if can_render sc then n else 0)%nat;
  af_earth :
    (earth_rotation_y sc'
     == if isAnimating sc && earthGroup sc
        then turned (earth_rotation_y sc) (0.0028 * earthRotationSpeed sc) n
        else earth_rotation_y sc)%Q;
  af_clouds :
    option_Qeq (clouds_rotation_y sc')
      (if isAnimating sc && earthGroup sc
       then (λ r, turned r (0.0063 * cloudRotationSpeed sc) n) <$> clouds_rotation_y sc
       else clouds_rotation_y sc);
  af_stars :
    option_Qeq (stars_rotation_y sc')
      (if isAnimating sc && earthGroup sc
       then (λ r, turned r 0.0001 n) <$> stars_rotation_y sc
       else stars_rotation_y sc)
}.

(** ** Inputs no listener answers *)

(** A key that is neither V nor E (in either case) and not the Enter key,
    a touch, or a click outside every element with a listener. *)
Definition stray (i : Input) : bool :=
  match i with
  | Keydown key code =>
      negb (String.eqb (toLowerCase key) "v") && negb (String.eqb (toLowerCase key) "e")
      && negb (String.eqb code "Enter")
  | Touchstart | ClickElsewhere => true
  | _ => false
  end.

(** ** Opening a dialog *)

(** The inputs that reach the listeners of the dialogs: a click on a menu
    item, on a close button or on a dialog, and the E key. *)
Definition dialogInput (i : Input) : bool :=
  match i with
  | ClickMenuItem _ | ClickCloseButton _ | ClickDialog _ _ => true
  | Keydown key _ => String.eqb (toLowerCase key) "e"
  | _ => false
  end.

(** The callbacks of [showDialog] and [hideDialog]. *)
Definition is_dialogCallback (cb : Callback) : bool :=
  match cb with
  | cb_dialogShow _ | cb_dialogVisible _ | cb_dialogHidden _ => true
  | _ => false
  end.

(** None of them is pending. *)
Definition settled (s : State) : Prop :=
  ∀ t cb, (t, cb) ∈ timers s → is_dialogCallback cb = false.

(** The menu panel, if the page has it, has the inline display [none]. *)
Definition menuOff (s : State) : Prop :=
  ∀ cl dp, look "gameMenu" s = Some (cl, dp) → dp = "none".

(** Dialog [d] is current and is opening or open, the menu is off, the
    other dialogs look as [others] says, and no callback of the dialogs is
    pending but those that open [d]: the one that takes [hidden] off it,
    then the one that puts [visible] on it. *)
Definition opening (others : string → option (list string * string)) (d : string)
    (s : State) : Prop :=
  currentDialog s = Some d ∧
  menuOff s ∧
  (∀ t cb, (t, cb) ∈ timers s → is_dialogCallback cb = true →
     cb = cb_dialogShow d ∨ cb = cb_dialogVisible d) ∧
  (∀ id, id ∈ dialogs → id ≠ d → look id s = others id) ∧
  ∃ cl dp, look d s = Some (cl, dp) ∧ dp ≠ "none" ∧
    ((∃ t, (t, cb_dialogShow d) ∈ timers s) ∨
     (("hidden" ∉ cl) ∧ ((∃ t, (t, cb_dialogVisible d) ∈ timers s) ∨ "visible" ∈ cl))).

(** * Properties *)

(** Keep arithmetic and map operations folded under [simpl]. *)
Arguments Math_floor : simpl never.
Arguments Number : simpl never.
Arguments array_get : simpl never.
Arguments Qmult : simpl never.
Arguments Qdiv : simpl never.
Arguments Qplus : simpl never.
Arguments Qopp : simpl never.
Arguments inject_Z : simpl never.
Arguments lookup : simpl never.
Arguments alter : simpl never.

(** ** Numbers and strings *)

Lemma Qltb_lt (a b : Q) : Qltb a b = true ↔ (a < b)%Q.
Proof.
  unfold Qltb. rewrite negb_true_iff. split.
  - intros H. apply Qnot_le_lt. intros Hle. apply Qle_bool_iff in Hle. congruence.
  - intros H. destruct (Qle_bool b a) eqn:E; [| reflexivity].
    apply Qle_bool_iff in E. exfalso. exact (Qlt_not_le _ _ H E).
Qed.

(** Scaling a draw from [0, 1) by a positive integer and taking the floor
    gives an index below that integer. *)
Lemma floor_scale_bounds (r : Q) (n : Z) :
  (0 <= r)%Q → (r < 1)%Q → 0 < n → 0 ≤ Math_floor (r * Number n) < n.
Proof.
  intros H0 H1 Hn. unfold Math_floor, Number.
  assert (Hn' : (inject_Z 0 < inject_Z n)%Q) by (rewrite <- Zlt_Qlt; exact Hn).
  split.
  - rewrite <- (Qfloor_Z 0). apply Qfloor_resp_le.
    apply Qmult_le_0_compat; [exact H0 | apply Qlt_le_weak; exact Hn'].
  - rewrite Zlt_Qlt. eapply Qle_lt_trans; [apply Qfloor_le |].
    eapply Qlt_le_trans; [apply Qmult_lt_compat_r; [exact Hn' | exact H1] |].
    rewrite Qmult_1_l. apply Qle_refl.
Qed.

Lemma array_get_in_range {A} (l : list A) (i : Z) :
  0 ≤ i < Z.of_nat (length l) → ∃ x, array_get l i = Some x ∧ x ∈ l.
Proof.
  intros [Hlo Hhi]. unfold array_get.
  destruct (Z.ltb_spec i 0) as [Hneg | _]; [lia |].
  destruct (lookup_lt_is_Some_2 l (Z.to_nat i)) as [x Hx]; [lia |].
  exists x. split; [exact Hx |]. eapply list_elem_of_lookup_2; exact Hx.
Qed.



(** ** Window resize *)

(** C7. After the resize handler has run for a viewport of [width] by
    [height], the camera's aspect is exactly [width / height], the
    projection has been recomputed from the camera's current field of view
    and aspect, and the renderer's size is exactly [width] by [height]. *)
Theorem resize_matches_viewport (env : Env) (s : State) (width height : Z) :
  let s' := step env (Resize width height) s in
  camera_aspect s' = (Number width / Number height)%Q ∧
  camera_projection s' = (camera_fov s', camera_aspect s') ∧
  renderer_size s' = (width, height).
Proof. repeat split. Qed.


(** ** Voice selection *)

Lemma playRandomVoice_selected (env : Env) (s : State) (v : string) :
  let i := Math_floor (Math_random_at env (draws s)
                       * Number (Z.of_nat (length (distortedVoices s)))) in
  distortedVoices s ≠ [] →
  array_get (distortedVoices s) i = Some v →
  playRandomVoice env s = voiceSelected env v i s.
Proof.
  intros i Hne Hv. unfold playRandomVoice, voiceSelected.
  change (distortedVoices (console_log _ s)) with (distortedVoices s).
  destruct (distortedVoices s) as [| v0 pool] eqn:Hpool; [congruence |].
  cbn [length Nat.eqb].
  unfold Math_random at 1. cbv beta iota.
  change (draws (console_log _ s)) with (draws s).
  change (distortedVoices (set_draws _ _)) with (distortedVoices s).
  rewrite Hpool. fold i. rewrite Hv. reflexivity.
Qed.

Lemma voiceSelected_counters (env : Env) (v : string) (i : Z) (s : State) :
  plays (voiceSelected env v i s) = N.succ (plays s) ∧
  draws (voiceSelected env v i s) = N.succ (draws s).
Proof.
  unfold voiceSelected, play, Math_random. cbv zeta beta iota.
  destruct (play_outcome env _); split; reflexivity.
Qed.

(** With voices in the pool and a draw in [0, 1), the lookup succeeds. *)
Lemma playRandomVoice_picks (env : Env) (s : State) :
  distortedVoices s ≠ [] →
  (0 <= Math_random_at env (draws s))%Q → (Math_random_at env (draws s) < 1)%Q →
  let i := Math_floor (Math_random_at env (draws s)
                       * Number (Z.of_nat (length (distortedVoices s)))) in
  0 ≤ i < Z.of_nat (length (distortedVoices s)) ∧
  ∃ v, array_get (distortedVoices s) i = Some v ∧ v ∈ distortedVoices s ∧
       playRandomVoice env s = voiceSelected env v i s.
Proof.
  intros Hne H0 H1 i.
  assert (Hlen : 0 < Z.of_nat (length (distortedVoices s)))
    by (destruct (distortedVoices s); [congruence | simpl; lia]).
  pose proof (floor_scale_bounds _ _ H0 H1 Hlen) as Hi.
  split; [exact Hi |].
  destruct (array_get_in_range _ _ Hi) as (v & Hv & Hin).
  exists v. split; [exact Hv |]. split; [exact Hin |].
  by apply playRandomVoice_selected.
Qed.

(** C10. [playRandomVoice] with an empty pool only writes its two console
    messages; with a non-empty pool and a draw in [0, 1) the index
    [floor(r * length)] lies within the pool, the lookup yields one of the
    pool's elements, the guard on it holds and [play()] is called on it. *)
Theorem playRandomVoice_in_bounds (env : Env) (s : State) :
  (0 <= Math_random_at env (draws s))%Q →
  (Math_random_at env (draws s) < 1)%Q →
  match distortedVoices s with
  | [] => playRandomVoice env s = console_log M_noVoices (console_log (M_attempting 0) s)
  | pool =>
      let i := Math_floor (Math_random_at env (draws s) * Number (Z.of_nat (length pool))) in
      0 ≤ i < Z.of_nat (length pool) ∧
      ∃ v, array_get pool i = Some v ∧ v ∈ pool ∧
           playRandomVoice env s = voiceSelected env v i s ∧
           plays (playRandomVoice env s) = N.succ (plays s)
  end.
Proof.
  intros H0 H1. destruct (distortedVoices s) as [| v0 pool'] eqn:Hpool.
  - unfold playRandomVoice.
    change (distortedVoices (console_log _ s)) with (distortedVoices s).
    rewrite Hpool. reflexivity.
  - rewrite <- Hpool.
    destruct (playRandomVoice_picks env s ltac:(congruence) H0 H1) as (Hi & v & Hv & Hin & Heq).
    split; [exact Hi |]. exists v. split; [exact Hv |]. split; [exact Hin |].
    split; [exact Heq |]. rewrite Heq. apply voiceSelected_counters.
Qed.

(** ** Text spawning *)


(** ** Frames: what a method leaves alone *)

Create HintDb sf discriminated.
Create HintDb vf discriminated.

Lemma sframe_refl s : sframe s s.
Proof. by repeat split. Qed.

Lemma vframe_refl s : vframe s s.
Proof. by split; try lia. Qed.

Lemma sframe_neutral f s0 s : neutral f → sframe s0 s → sframe s0 (f s).
Proof.
  intros Hf (? & ? & ?). destruct (Hf s) as (_ & Hs & _ & _ & _ & Ht & Hw).
  unfold sframe, zoomTimers, zoomTweens in *. rewrite Hs, Ht, Hw. auto.
Qed.

Lemma vframe_neutral f s0 s : neutral f → vframe s0 s → vframe s0 (f s).
Proof.
  intros Hf []. destruct (Hf s) as (Hn & _ & Hl & Hv & Hc & Ht & _).
  split; unfold fires in *; rewrite ?Hn, ?Hl, ?Hv, ?Hc, ?Ht; auto.
Qed.

Lemma sframe_console_log s0 m s : sframe s0 s → sframe s0 (console_log m s).
Proof. intros (? & ? & ?). by repeat split. Qed.

Lemma vframe_console_log s0 m s :
  m ≠ M_triggering → vframe s0 s → vframe s0 (console_log m s).
Proof.
  intros Hm []. split; try assumption. unfold fires in *. simpl.
  destruct m; try congruence; assumption.
Qed.

Lemma sframe_schedule s0 cb d s :
  cb ≠ cb_zoomToPlanet → sframe s0 s → sframe s0 (schedule cb d s).
Proof.
  intros Hcb (? & Hz & ?). repeat split; try assumption.
  unfold zoomTimers in *. simpl. rewrite List.filter_app, length_app. simpl.
  destruct cb; try congruence; simpl; lia.
Qed.

Lemma vframe_schedule s0 cb d s :
  cb ≠ cb_voiceTick → vframe s0 s → vframe s0 (schedule cb d s).
Proof.
  intros Hcb []. split; try assumption; simpl.
  - rewrite List.filter_app. simpl. destruct cb; try congruence; simpl;
      by rewrite app_nil_r.
  - intros t Ht Hin. apply elem_of_app. left. auto.
Qed.

Lemma sframe_gsap_to s0 obj d to s :
  sframe s0 s → sframe s0 (gsap_to obj d to false s).
Proof.
  intros H. unfold gsap_to. apply sframe_schedule; [discriminate |].
  destruct H as (? & ? & ?). by repeat split.
Qed.

Lemma vframe_gsap_to s0 obj d to b s : vframe s0 s → vframe s0 (gsap_to obj d to b s).
Proof.
  intros H. unfold gsap_to. apply vframe_schedule; [discriminate |].
  destruct H. by split.
Qed.

Lemma vframe_set_hasStarted s0 b s : vframe s0 s → vframe s0 (set_hasStarted b s).
Proof. intros []. by split. Qed.

#[export] Hint Resolve sframe_refl sframe_console_log sframe_gsap_to : sf.
#[export] Hint Resolve vframe_refl vframe_gsap_to vframe_set_hasStarted : vf.
#[export] Hint Extern 2 (sframe _ (schedule _ _ _)) =>
  apply sframe_schedule; [discriminate |] : sf.
#[export] Hint Extern 2 (vframe _ (schedule _ _ _)) =>
  apply vframe_schedule; [discriminate |] : vf.
#[export] Hint Extern 2 (vframe _ (console_log _ _)) =>
  apply vframe_console_log; [discriminate |] : vf.
#[export] Hint Extern 8 (sframe _ (_ _)) =>
  eapply sframe_neutral; [solve [intros ?; repeat split] |] : sf.
#[export] Hint Extern 8 (vframe _ (_ _)) =>
  eapply vframe_neutral; [solve [intros ?; repeat split] |] : vf.
#[export] Hint Extern 20 (sframe _ _) => case_match : sf.
#[export] Hint Extern 20 (vframe _ _) => case_match : vf.

(** Unfold a method down to the primitives the hints know, then let the
    hints walk through it. *)
Ltac open_method :=
  cbv beta iota zeta delta [Math_random play pause setTimeout setInterval fst snd].
Ltac frames db :=
  intros; open_method;
  first [ solve [eauto 60 with db] | repeat case_match; solve [eauto 60 with db] ].

Section Methods.
Context (env : Env).

Lemma sframe_playClickSound s0 s : sframe s0 s → sframe s0 (playClickSound env s).
Proof. unfold playClickSound. frames sf. Qed.
Lemma vframe_playClickSound s0 s : vframe s0 s → vframe s0 (playClickSound env s).
Proof. unfold playClickSound. frames vf. Qed.

Lemma sframe_startAudio s0 s : sframe s0 s → sframe s0 (startAudio env s).
Proof. unfold startAudio. frames sf. Qed.
Lemma vframe_startAudio s0 s : vframe s0 s → vframe s0 (startAudio env s).
Proof. unfold startAudio. frames vf. Qed.

Lemma sframe_playRandomVoice s0 s : sframe s0 s → sframe s0 (playRandomVoice env s).
Proof. unfold playRandomVoice. frames sf. Qed.
Lemma vframe_playRandomVoice s0 s : vframe s0 s → vframe s0 (playRandomVoice env s).
Proof. unfold playRandomVoice. frames vf. Qed.


Lemma sframe_voiceStop s0 v i s : sframe s0 s → sframe s0 (voiceStop v i s).
Proof. unfold voiceStop. frames sf. Qed.
Lemma vframe_voiceStop s0 v i s : vframe s0 s → vframe s0 (voiceStop v i s).
Proof. unfold voiceStop. frames vf. Qed.

Lemma sframe_maybePlayRandomVoice s0 s :
  sframe s0 s → sframe s0 (maybePlayRandomVoice env s).
Proof. pose proof sframe_playRandomVoice. unfold maybePlayRandomVoice. frames sf. Qed.

Lemma sframe_voicePlaying s0 v i s : sframe s0 s → sframe s0 (voicePlaying v i s).
Proof.
  intros (? & ? & ?). unfold voicePlaying. open_method.
  apply sframe_schedule; [discriminate |]. by repeat split.
Qed.

Lemma sframe_onWindowResize s0 s : sframe s0 s → sframe s0 (onWindowResize s).
Proof. unfold onWindowResize. frames sf. Qed.
Lemma vframe_onWindowResize s0 s : vframe s0 s → vframe s0 (onWindowResize s).
Proof. unfold onWindowResize. frames vf. Qed.

Lemma sframe_moveEarthTo s0 d s : sframe s0 s → sframe s0 (moveEarthTo env d s).
Proof. unfold moveEarthTo. frames sf. Qed.
Lemma vframe_moveEarthTo s0 d s : vframe s0 s → vframe s0 (moveEarthTo env d s).
Proof. unfold moveEarthTo. frames vf. Qed.

Lemma sframe_moveEarthToLeft s0 s : sframe s0 s → sframe s0 (moveEarthToLeft env s).
Proof. unfold moveEarthToLeft. frames sf. Qed.
Lemma vframe_moveEarthToLeft s0 s : vframe s0 s → vframe s0 (moveEarthToLeft env s).
Proof. unfold moveEarthToLeft. frames vf. Qed.

Lemma vframe_zoomToPlanet s0 s : vframe s0 s → vframe s0 (zoomToPlanet env s).
Proof. unfold zoomToPlanet. frames vf. Qed.

Lemma sframe_showSocialMedia s0 s : sframe s0 s → sframe s0 (showSocialMedia s).
Proof. unfold showSocialMedia, getElementById. frames sf. Qed.
Lemma vframe_showSocialMedia s0 s : vframe s0 s → vframe s0 (showSocialMedia s).
Proof. unfold showSocialMedia, getElementById. frames vf. Qed.

Lemma vframe_startGame s0 s : vframe s0 s → vframe s0 (startGame env s).
Proof.
  pose proof vframe_playClickSound. unfold startGame, getElementById. frames vf.
Qed.

Lemma sframe_showGameMenu s0 s : sframe s0 s → sframe s0 (showGameMenu s).
Proof. unfold showGameMenu, getElementById. frames sf. Qed.
Lemma vframe_showGameMenu s0 s : vframe s0 s → vframe s0 (showGameMenu s).
Proof. unfold showGameMenu, getElementById. frames vf. Qed.

Lemma sframe_spawnText s0 s : sframe s0 s → sframe s0 (spawnText env s).
Proof. unfold spawnText. frames sf. Qed.
Lemma vframe_spawnText s0 s : vframe s0 s → vframe s0 (spawnText env s).
Proof. unfold spawnText. frames vf. Qed.

Lemma sframe_textTick s0 s : sframe s0 s → sframe s0 (textTick env s).
Proof. pose proof sframe_spawnText. unfold textTick. frames sf. Qed.
Lemma vframe_textTick s0 s : vframe s0 s → vframe s0 (textTick env s).
Proof. pose proof vframe_spawnText. unfold textTick. frames vf. Qed.

Lemma sframe_gameMenuVisible s0 s : sframe s0 s → sframe s0 (gameMenuVisible s).
Proof.
  unfold gameMenuVisible, setupMenuInteractions, startRandomTextSpawning, getElementById.
  frames sf.
Qed.
Lemma vframe_gameMenuVisible s0 s : vframe s0 s → vframe s0 (gameMenuVisible s).
Proof.
  unfold gameMenuVisible, setupMenuInteractions, startRandomTextSpawning, getElementById.
  frames vf.
Qed.

Lemma sframe_addEscapeListener s0 s : sframe s0 s → sframe s0 (addEscapeListener s).
Proof. unfold addEscapeListener. frames sf. Qed.
Lemma vframe_addEscapeListener s0 s : vframe s0 s → vframe s0 (addEscapeListener s).
Proof. unfold addEscapeListener. frames vf. Qed.

Lemma sframe_removeEscapeListener s0 s : sframe s0 s → sframe s0 (removeEscapeListener s).
Proof. unfold removeEscapeListener. frames sf. Qed.
Lemma vframe_removeEscapeListener s0 s : vframe s0 s → vframe s0 (removeEscapeListener s).
Proof. unfold removeEscapeListener. frames vf. Qed.

Lemma sframe_showDialog s0 d a s : sframe s0 s → sframe s0 (showDialog env d a s).
Proof.
  pose proof sframe_moveEarthTo. pose proof sframe_addEscapeListener.
  unfold showDialog, getElementById. frames sf.
Qed.
Lemma vframe_showDialog s0 d a s : vframe s0 s → vframe s0 (showDialog env d a s).
Proof.
  pose proof vframe_moveEarthTo. pose proof vframe_addEscapeListener.
  unfold showDialog, getElementById. frames vf.
Qed.

Lemma sframe_hideDialog s0 d s : sframe s0 s → sframe s0 (hideDialog d s).
Proof. pose proof sframe_removeEscapeListener. unfold hideDialog, getElementById. frames sf. Qed.
Lemma vframe_hideDialog s0 d s : vframe s0 s → vframe s0 (hideDialog d s).
Proof. pose proof vframe_removeEscapeListener. unfold hideDialog, getElementById. frames vf. Qed.

Lemma sframe_dialogShow s0 d s : sframe s0 s → sframe s0 (dialogShow d s).
Proof. unfold dialogShow, getElementById. frames sf. Qed.
Lemma vframe_dialogShow s0 d s : vframe s0 s → vframe s0 (dialogShow d s).
Proof. unfold dialogShow, getElementById. frames vf. Qed.

Lemma sframe_dialogHidden s0 d s : sframe s0 s → sframe s0 (dialogHidden env d s).
Proof. pose proof sframe_moveEarthToLeft. unfold dialogHidden, getElementById. frames sf. Qed.
Lemma vframe_dialogHidden s0 d s : vframe s0 s → vframe s0 (dialogHidden env d s).
Proof. pose proof vframe_moveEarthToLeft. unfold dialogHidden, getElementById. frames vf. Qed.

Lemma sframe_tweenComplete s0 tw s : sframe s0 s → sframe s0 (tweenComplete tw s).
Proof. pose proof sframe_showGameMenu. unfold tweenComplete. frames sf. Qed.
Lemma vframe_tweenComplete s0 tw s : vframe s0 s → vframe s0 (tweenComplete tw s).
Proof. pose proof vframe_showGameMenu. unfold tweenComplete. frames vf. Qed.

End Methods.

(** ** The timer queue *)

Lemma take_due_elem d l cb rest :
  take_due d l = Some (cb, rest) → (d, cb) ∈ l.
Proof.
  revert cb rest. induction l as [| [d' cb'] l IH]; intros cb rest H; simpl in H.
  - discriminate.
  - destruct (Z.eqb_spec d' d) as [-> | Hne].
    + inversion H; subst. left.
    + destruct (take_due d l) as [[cb'' r'] |]; [| discriminate].
      inversion H; subst. right. eapply IH. reflexivity.
Qed.

Lemma take_due_filter (P : Z * Callback → bool) d l cb rest :
  take_due d l = Some (cb, rest) →
  List.filter P l = List.filter P rest ∧ P (d, cb) = false ∨
  length (List.filter P l) = S (length (List.filter P rest)) ∧ P (d, cb) = true.
Proof.
  revert cb rest. induction l as [| [d' cb'] l IH]; intros cb rest H; simpl in H.
  - discriminate.
  - destruct (Z.eqb_spec d' d) as [-> | Hne].
    + inversion H; subst. simpl. destruct (P (d, cb)); [right | left]; auto.
    + destruct (take_due d l) as [[cb'' r'] |]; [| discriminate].
      inversion H; subst. simpl.
      destruct (IH _ _ eq_refl) as [[He Hp] | [He Hp]]; [left | right];
        (split; [| exact Hp]); destruct (P (d', cb')); simpl; congruence.
Qed.

Lemma take_due_rest d l cb rest t :
  take_due d l = Some (cb, rest) → t ∈ l → t = (d, cb) ∨ t ∈ rest.
Proof.
  revert cb rest. induction l as [| [d' cb'] l IH]; intros cb rest H Ht; simpl in H.
  - discriminate.
  - destruct (Z.eqb_spec d' d) as [-> | Hne].
    + inversion H; subst. apply elem_of_cons in Ht. tauto.
    + destruct (take_due d l) as [[cb'' r'] |]; [| discriminate].
      inversion H; subst. apply elem_of_cons in Ht as [-> | Ht].
      * right. left.
      * destruct (IH _ _ eq_refl Ht); [by left | right; by right].
Qed.

Lemma fold_min_le (l : list Z) (a : Z) :
  fold_left Z.min l a ≤ a ∧ ∀ x, x ∈ l → fold_left Z.min l a ≤ x.
Proof.
  revert a. induction l as [| y l IH]; intros a; simpl.
  - split; [lia | intros x Hx; inversion Hx].
  - destruct (IH (Z.min a y)) as [H1 H2]. split; [lia |].
    intros x Hx. apply elem_of_cons in Hx as [-> | Hx]; [lia | auto].
Qed.

Lemma min_due_le l d t : min_due l = Some d → t ∈ l → d ≤ fst t.
Proof.
  destruct l as [| [d0 cb0] r]; simpl; [discriminate |].
  intros [= <-] Ht. destruct (fold_min_le (fst <$> r) d0) as [H1 H2].
  apply elem_of_cons in Ht as [-> | Ht]; [exact H1 |].
  apply H2. apply list_elem_of_fmap. eauto.
Qed.

(** ** The start guard *)

Section Start.
Context (env : Env).

Lemma iter_inv (P : State → Prop) (f : State → State) n s :
  (∀ s, P s → P (f s)) → P s → P (Nat.iter n f s).
Proof. intros Hf Hs. induction n; simpl; auto. Qed.

Lemma dispatch_inv (P : State → Prop) ev s :
  (∀ l s, P s → P (handleEvent env l ev s)) → P s → P (dispatch env ev s).
Proof.
  intros Hh. unfold dispatch. generalize (documentListeners s) at 1 as ls.
  intros ls. revert s. induction ls as [| l ls IH]; intros s Hs; simpl; [exact Hs |].
  apply IH. case_match; auto.
Qed.

(** An event whose listeners all do nothing changes nothing. *)
Lemma dispatch_id ev s :
  (∀ l, l ∈ documentListeners s → handleEvent env l ev s = s) → dispatch env ev s = s.
Proof.
  intros H. unfold dispatch.
  assert (G : ∀ ls, fold_left
                (λ s l, if bool_decide (l ∈ documentListeners s)
                        then handleEvent env l ev s else s) ls s = s).
  { induction ls as [| l ls IH]; simpl; [reflexivity |].
    case_bool_decide as Hin; [rewrite (H l Hin) |]; exact IH. }
  apply G.
Qed.

(** A click reaches only the audio fallback among the document's listeners. *)
Lemma dispatch_click s :
  L_startAudio ∉ documentListeners s → dispatch env ev_click s = s.
Proof.
  intros H. apply dispatch_id. intros l Hl. destruct l; try reflexivity. contradiction.
Qed.

Lemma started_once_frame s0 s : started_once s0 → sframe s0 s → started_once s.
Proof. unfold started_once. intros H (-> & -> & ->). exact H. Qed.

Lemma startGame_starts s :
  hasStarted (startGame env s) = true ∧
  zoomTimers (startGame env s) = S (zoomTimers s) ∧
  zoomTweens (startGame env s) = zoomTweens s.
Proof.
  unfold startGame, setTimeout. cbv zeta.
  match goal with
  | |- context [schedule _ _ ?X] => assert (H : sframe (set_hasStarted true (playClickSound env s)) X)
      by (unfold getElementById; frames sf)
  end.
  destruct H as (Hs & Ht & Hw).
  destruct (sframe_playClickSound env s s (sframe_refl s)) as (_ & Ht' & Hw').
  split; [| split].
  - exact Hs.
  - unfold zoomTimers in *. simpl timers. rewrite List.filter_app, length_app.
    rewrite Ht. simpl. rewrite Ht'. lia.
  - unfold zoomTweens in *. simpl tweens. rewrite Hw. simpl. exact Hw'.
Qed.

Lemma zoomToPlanet_tween s :
  hasStarted (zoomToPlanet env s) = hasStarted s ∧
  zoomTimers (zoomToPlanet env s) = zoomTimers s ∧
  zoomTweens (zoomToPlanet env s) = S (zoomTweens s).
Proof.
  unfold zoomToPlanet, gsap_to, schedule, zoomTimers, zoomTweens. simpl.
  rewrite !List.filter_app, !length_app. simpl. repeat split; lia.
Qed.

Lemma started_once_handleEvent l ev s :
  started_once s → started_once (handleEvent env l ev s).
Proof.
  intros H. destruct l, ev; simpl; try exact H.
  - case_match; [| exact H]. eapply started_once_frame; [exact H |].
    apply sframe_playRandomVoice, sframe_console_log, sframe_refl.
  - destruct (String.eqb code "Enter" && negb (hasStarted s)) eqn:E; [| exact H].
    apply andb_true_iff in E as [_ E]. apply negb_true_iff in E.
    destruct (startGame_starts s) as (Hs & Ht & Hw).
    unfold started_once in *. rewrite Hs, Ht, Hw. rewrite E in H. lia.
  - eapply started_once_frame; [exact H |]. apply sframe_startAudio, sframe_refl.
  - eapply started_once_frame; [exact H |]. apply sframe_startAudio, sframe_refl.
  - eapply started_once_frame; [exact H |]. apply sframe_startAudio, sframe_refl.
  - eapply started_once_frame; [exact H |].
    pose proof (sframe_playClickSound env). pose proof sframe_hideDialog.
    frames sf.
Qed.

Lemma started_once_startTextClicked s :
  started_once s → started_once (startTextClicked env s).
Proof.
  intros H. unfold startTextClicked. destruct (hasStarted s) eqn:E; simpl; [exact H |].
  destruct (startGame_starts s) as (Hs & Ht & Hw).
  unfold started_once in *. rewrite Hs, Ht, Hw. rewrite E in H. lia.
Qed.

Lemma sframe_menuItemClicked s0 k s : sframe s0 s → sframe s0 (menuItemClicked env k s).
Proof.
  pose proof (sframe_playClickSound env). pose proof (sframe_showDialog env).
  unfold menuItemClicked. frames sf.
Qed.

Lemma sframe_closeButtonClicked s0 a s :
  sframe s0 s → sframe s0 (closeButtonClicked env a s).
Proof.
  pose proof (sframe_playClickSound env). pose proof sframe_hideDialog.
  unfold closeButtonClicked. frames sf.
Qed.

Lemma sframe_overlayClicked s0 d b s : sframe s0 s → sframe s0 (overlayClicked d b s).
Proof. pose proof sframe_hideDialog. unfold overlayClicked. frames sf. Qed.

Lemma sframe_socialIconClicked s0 p s :
  sframe s0 s → sframe s0 (socialIconClicked env p s).
Proof. pose proof (sframe_playClickSound env). unfold socialIconClicked. frames sf. Qed.

Lemma sframe_onProgress s0 a b s : sframe s0 s → sframe s0 (onProgress a b s).
Proof. unfold onProgress, querySelector, getElementById. frames sf. Qed.

Lemma sframe_run_callback s0 cb s :
  cb ≠ cb_zoomToPlanet → sframe s0 s → sframe s0 (run_callback env cb s).
Proof.
  pose proof (sframe_maybePlayRandomVoice env). pose proof sframe_voicePlaying.
  pose proof sframe_voiceStop. pose proof sframe_tweenComplete.
  pose proof sframe_gameMenuVisible. pose proof (sframe_textTick env).
  pose proof sframe_dialogShow. pose proof (sframe_dialogHidden env).
  intros Hcb Hs. destruct cb; try congruence;
    unfold run_callback, addAudioStartListener, removeText, dialogVisible, getElementById;
    frames sf.
Qed.

Lemma started_once_runNext s : started_once s → started_once (runNext env s).
Proof.
  intros H. unfold runNext. destruct (min_due (timers s)) as [d |]; [| exact H].
  destruct (take_due d (timers s)) as [[cb rest] |] eqn:Htake; [| exact H].
  set (s1 := set_now (Z.max (now s) d) (set_timers rest s)).
  destruct (take_due_filter is_zoom _ _ _ _ Htake) as [[He Hp] | [He Hp]].
  - assert (Hcb : cb ≠ cb_zoomToPlanet) by (intros ->; discriminate).
    eapply started_once_frame; [exact H |]. apply sframe_run_callback; [exact Hcb |].
    unfold sframe, zoomTimers. simpl. rewrite He. auto.
  - assert (cb = cb_zoomToPlanet) as -> by (destruct cb; try discriminate; reflexivity).
    simpl. destruct (zoomToPlanet_tween s1) as (Hs & Ht & Hw).
    unfold started_once in *. rewrite Hs, Ht, Hw.
    unfold zoomTimers in *. simpl. rewrite He in H. simpl in H.
    change (zoomTweens s1) with (zoomTweens s). lia.
Qed.

Lemma started_once_step i s : started_once s → started_once (step env i s).
Proof.
  intros H. destruct i; simpl.
  - exact H.
  - apply started_once_runNext, H.
  - apply (dispatch_inv started_once); [intros; by apply started_once_handleEvent | exact H].
  - apply (dispatch_inv started_once); [intros; by apply started_once_handleEvent | exact H].
  - apply (dispatch_inv started_once); [intros; by apply started_once_handleEvent | exact H].
  - apply (dispatch_inv started_once); [intros; by apply started_once_handleEvent |].
    case_match; [apply started_once_startTextClicked |]; exact H.
  - apply (dispatch_inv started_once); [intros; by apply started_once_handleEvent |].
    eapply started_once_frame; [exact H |].
    apply (iter_inv (sframe s)); [apply sframe_menuItemClicked | apply sframe_refl].
  - apply (dispatch_inv started_once); [intros; by apply started_once_handleEvent |].
    eapply started_once_frame; [exact H |].
    apply (iter_inv (sframe s)); [apply sframe_closeButtonClicked | apply sframe_refl].
  - apply (dispatch_inv started_once); [intros; by apply started_once_handleEvent |].
    eapply started_once_frame; [exact H |].
    repeat case_match; try apply sframe_refl.
    apply (iter_inv (sframe s)); [apply sframe_overlayClicked | apply sframe_refl].
  - apply (dispatch_inv started_once); [intros; by apply started_once_handleEvent |].
    eapply started_once_frame; [exact H |]. apply sframe_socialIconClicked, sframe_refl.
  - eapply started_once_frame; [exact H |]. apply sframe_onWindowResize.
    by repeat split.
  - eapply started_once_frame; [exact H |]. apply sframe_onProgress, sframe_refl.
  - eapply started_once_frame; [exact H |].
    apply sframe_schedule; [discriminate | apply sframe_refl].
Qed.

Lemma started_once_run inputs s : started_once s → started_once (run env inputs s).
Proof.
  revert s. induction inputs as [| i inputs IH]; intros s H; simpl; [exact H |].
  apply IH, started_once_step, H.
Qed.

End Start.

(** ** What the panels look like *)


Lemma panelShown_look id s s' : look id s' = look id s → panelShown id s' = panelShown id s.
Proof.
  unfold look, panelShown, shown. intros H.
  destruct (elements s !! id), (elements s' !! id); simpl in H; try congruence.
  inversion H as [[H1 H2]]. by rewrite H1, H2.
Qed.

Lemma look_update_ne id id' f s : id ≠ id' → look id (update id' f s) = look id s.
Proof. intros H. unfold look, update. simpl. by rewrite lookup_alter_ne. Qed.

Lemma look_update_neutral id id' f s :
  styleNeutral f → look id (update id' f s) = look id s.
Proof.
  intros Hf. unfold look, update. simpl. rewrite lookup_alter.
  case_decide; [| reflexivity]. subst. destruct (elements s !! id) as [e |]; [| reflexivity].
  simpl. destruct (Hf e) as [-> ->]. reflexivity.
Qed.

Lemma look_update_eq id f s :
  look id (update id f s)
  = (λ e, (classList (f e), style_display (f e))) <$> elements s !! id.
Proof. unfold look, update. simpl. rewrite lookup_alter_eq. by destruct (elements s !! id). Qed.

Lemma classList_add_elem c e : c ∈ classList (classList_add c e).
Proof.
  unfold classList_add. simpl. case_bool_decide as Hin; [exact Hin |].
  apply elem_of_app. right. left.
Qed.

Lemma shown_hidden e : shown (classList_add "hidden" e) = false.
Proof.
  unfold shown. rewrite (bool_decide_eq_true_2 _ (classList_add_elem "hidden" e)).
  simpl. by rewrite andb_false_r.
Qed.

Lemma panelShown_hidden id s :
  panelShown id (update id (classList_add "hidden") s) = false.
Proof.
  unfold panelShown, update. simpl. rewrite lookup_alter_eq.
  destruct (elements s !! id) as [e |]; [| reflexivity]. apply shown_hidden.
Qed.

Lemma panelShown_display_none id s :
  panelShown id (update id (set_display "none") s) = false.
Proof.
  unfold panelShown, update. simpl. rewrite lookup_alter_eq.
  destruct (elements s !! id) as [e |]; [| reflexivity]. simpl. unfold shown. simpl.
  by rewrite andb_false_r.
Qed.

(** A guard around a lone mutation changes nothing: mutating an element
    that is not there is already a no-op in the model. *)
Lemma guarded_update id f (s : State) :
  match getElementById id s with Some _ => update id f s | None => s end = update id f s.
Proof.
  unfold getElementById, update. destruct (elements s !! id) eqn:E; [reflexivity |].
  destruct s. unfold set_elements. simpl in *. f_equal. symmetry. apply map_eq. intros j.
  rewrite lookup_alter. case_decide; [| reflexivity]. subst. by rewrite E.
Qed.

Create HintDb lf discriminated.

Lemma lsame_refl s : lsame s s.
Proof. by split. Qed.

Lemma lsame_update s0 id f s : styleNeutral f → lsame s0 s → lsame s0 (update id f s).
Proof. intros Hf [H]. split. intros id'. rewrite look_update_neutral by exact Hf. apply H. Qed.

Lemma lsame_eneutral (f : State → State) s0 s :
  (∀ s, elements (f s) = elements s) → lsame s0 s → lsame s0 (f s).
Proof. intros Hf [H]. split. intros id. unfold look. rewrite Hf. apply H. Qed.

#[export] Hint Resolve lsame_refl : lf.
#[export] Hint Extern 2 (lsame _ (update _ _ _)) =>
  apply lsame_update; [solve [intros ?; split; reflexivity] |] : lf.
#[export] Hint Extern 8 (lsame _ (_ _)) =>
  eapply lsame_eneutral; [solve [intros ?; reflexivity] |] : lf.
#[export] Hint Extern 20 (lsame _ _) => case_match : lf.

Section Looks.
Context (env : Env).

Lemma lsame_playClickSound s0 s : lsame s0 s → lsame s0 (playClickSound env s).
Proof. unfold playClickSound. frames lf. Qed.

Lemma lsame_setupAudio s0 s : lsame s0 s → lsame s0 (setupAudio env s).
Proof.
  assert (H1 : ∀ s0 s, lsame s0 s → lsame s0 (setupBackgroundMusic env s))
    by (unfold setupBackgroundMusic, getElementById; frames lf).
  assert (H2 : ∀ s0 s, lsame s0 s → lsame s0 (setupClickSound s))
    by (unfold setupClickSound, getElementById; frames lf).
  assert (H3 : ∀ s0 s, lsame s0 s → lsame s0 (setupDistortedVoices s))
    by (unfold setupDistortedVoices, startRandomVoiceSystem, getElementById; frames lf).
  unfold setupAudio. frames lf.
Qed.

End Looks.

(** ** Construction *)

Lemma look_None id s : look id s = None ↔ elements s !! id = None.
Proof. unfold look. apply fmap_None. Qed.

Lemma setupAudio_present (env : Env) (s : State) (id : string) :
  elements (setupAudio env s) !! id = None ↔ elements s !! id = None.
Proof.
  rewrite <- !look_None.
  by rewrite (ls_look _ _ (lsame_setupAudio env s s (lsame_refl s)) id).
Qed.

(** C6. With no element [canvas-container] in the document, [init] ends in
    the TypeError thrown by [createRenderer], whose lookup is used without a
    presence check; nothing after [createRenderer] runs. *)
Theorem init_throws_without_canvas (env : Env) (page : gmap string Element)
    (width height clock : Z) :
  page !! "canvas-container" = None →
  init env (initial page width height clock)
  = TypeError "Cannot read properties of null (reading 'appendChild')".
Proof.
  intros Hnone. unfold init, createRenderer, getElementById. cbv zeta.
  change (elements (set_renderer_size ?v (createCamera ?s))) with (elements s).
  assert (H : elements (setupAudio env (initial page width height clock))
              !! "canvas-container" = None) by (apply setupAudio_present; exact Hnone).
  rewrite H. reflexivity.
Qed.

(** Every other lookup made during construction is guarded. *)
Lemma init_ok_with_canvas (env : Env) (page : gmap string Element)
    (width height clock : Z) :
  is_Some (page !! "canvas-container") →
  ∃ s, init env (initial page width height clock) = Ok s.
Proof.
  intros [e He]. unfold init, createRenderer, getElementById. cbv zeta.
  change (elements (set_renderer_size ?v (createCamera ?s))) with (elements s).
  destruct (elements (setupAudio env (initial page width height clock))
            !! "canvas-container") eqn:E; [eauto |].
  apply setupAudio_present in E. simpl in E. congruence.
Qed.

Section StartTheorem.
Context (env : Env).

Lemma startGame_eq s :
  startGame env s
  = setTimeout cb_zoomToPlanet 300
      (update "socialMedia" (set_display "none")
         (update "titleContainer" (classList_add "hidden")
            (update "startText" (classList_add "hidden")
               (set_hasStarted true (playClickSound env s))))).
Proof. unfold startGame. cbv zeta. by rewrite !guarded_update. Qed.

Lemma panelShown_update_ne id id' f s :
  id ≠ id' → panelShown id (update id' f s) = panelShown id s.
Proof. intros H. apply panelShown_look, look_update_ne, H. Qed.

Lemma startGame_hides_intro s :
  panelShown "startText" (startGame env s) = false ∧
  panelShown "titleContainer" (startGame env s) = false ∧
  panelShown "socialMedia" (startGame env s) = false.
Proof.
  rewrite startGame_eq. unfold setTimeout.
  change (panelShown ?i (schedule ?c ?d ?s)) with (panelShown i s).
  repeat split.
  - rewrite !panelShown_update_ne by discriminate. apply panelShown_hidden.
  - rewrite panelShown_update_ne by discriminate. apply panelShown_hidden.
  - apply panelShown_display_none.
Qed.

Lemma playClickSound_timers s :
  timers (playClickSound env s) = timers s ∧ now (playClickSound env s) = now s.
Proof. unfold playClickSound, play. repeat case_match; simpl; auto. Qed.

Lemma startGame_timer s :
  timers (startGame env s) = timers s ++ [(now s + 300, cb_zoomToPlanet)].
Proof.
  rewrite startGame_eq. unfold setTimeout, schedule. simpl.
  destruct (playClickSound_timers s) as [-> ->]. reflexivity.
Qed.

Lemma trigger_started t s : hasStarted s = true → trigger env t s = s.
Proof. intros H. destruct t; simpl; unfold startTextClicked; by rewrite H. Qed.

Lemma trigger_first t s : hasStarted s = false → trigger env t s = startGame env s.
Proof. intros H. destruct t; simpl; unfold startTextClicked; by rewrite H. Qed.

Lemma triggers_started l s : hasStarted s = true → triggers env l s = s.
Proof.
  intros H. induction l as [| t l IH]; [reflexivity |].
  unfold triggers in *. simpl. by rewrite trigger_started.
Qed.

(** Once started, the Enter key and a click on the start text are no-ops
    for the whole page, the audio fallback apart. *)
Lemma later_start_events s :
  hasStarted s = true → L_startAudio ∉ documentListeners s →
  step env (Keydown "Enter" "Enter") s = s ∧ step env ClickStartText s = s.
Proof.
  intros Hs Hl. split; simpl.
  - apply dispatch_id. intros l Hin. destruct l; simpl; try reflexivity.
    + by rewrite Hs.
    + contradiction.
  - unfold startTextClicked. rewrite Hs. simpl.
    destruct (startTextClick s); by apply dispatch_click.
Qed.

Lemma sframe_set_distortedVoices s0 v s : sframe s0 s → sframe s0 (set_distortedVoices v s).
Proof. intros (? & ? & ?). by repeat split. Qed.

Lemma sframe_setupAudio s0 s : sframe s0 s → sframe s0 (setupAudio env s).
Proof.
  pose proof sframe_set_distortedVoices.
  assert (H1 : ∀ s0 s, sframe s0 s → sframe s0 (setupBackgroundMusic env s))
    by (unfold setupBackgroundMusic, getElementById; frames sf).
  assert (H2 : ∀ s0 s, sframe s0 s → sframe s0 (setupClickSound s))
    by (unfold setupClickSound, getElementById; frames sf).
  assert (H3 : ∀ s0 s, sframe s0 s → sframe s0 (setupDistortedVoices s))
    by (unfold setupDistortedVoices, startRandomVoiceSystem, getElementById; frames sf).
  unfold setupAudio. frames sf.
Qed.

(** What [init] returns when it does not throw. *)
Lemma init_Ok s s' :
  init env s = Ok s' →
  s' = setupEventListeners
         (createStarfield
            (createControls
               (set_renderer_size
                  (innerWidth (createCamera (setupAudio env s)),
                   innerHeight (createCamera (setupAudio env s)))
                  (createCamera (setupAudio env s))))).
Proof.
  unfold init, createRenderer. cbv zeta.
  destruct (getElementById "canvas-container" _); [| discriminate]. by intros [= <-].
Qed.

Lemma sframe_init s s' : init env s = Ok s' → sframe s s'.
Proof.
  pose proof sframe_setupAudio. pose proof sframe_showSocialMedia.
  intros ->%init_Ok.
  unfold createCamera, createControls, createStarfield, setupEventListeners,
    setupStartExperience, getElementById.
  frames sf.
Qed.

Lemma started_once_init page width height clock s0 :
  init env (initial page width height clock) = Ok s0 → started_once s0.
Proof.
  intros H. eapply started_once_frame; [| apply sframe_init, H]. reflexivity.
Qed.
End StartTheorem.

(** C1. In every state the page can reach, the pending and started
    zoom-ins number one if the experience has started and none otherwise.
    Once [hasStarted] is set, a start trigger (Enter or a click on the start
    text) changes nothing. Before that, any sequence of triggers does what
    its first one does: it runs [startGame] once, which sets the flag at
    once, hides the start text, the title and the social icons, and leaves
    exactly one call of [zoomToPlanet] pending, 300 ms away. As events, a
    later Enter key or click on the start text leaves the whole state as it
    is (unless the one-shot audio fallback is still waiting for a first
    interaction). *)
Theorem start_is_idempotent (env : Env) (page : gmap string Element)
    (width height clock : Z) (s0 : State) (inputs : list Input) :
  init env (initial page width height clock) = Ok s0 →
  let s := run env inputs s0 in
  started_once s ∧
  (∀ t, hasStarted s = true → trigger env t s = s) ∧
  (hasStarted s = true → L_startAudio ∉ documentListeners s →
   step env (Keydown "Enter" "Enter") s = s ∧ step env ClickStartText s = s) ∧
  (∀ t l, hasStarted s = false →
     let s' := triggers env (t :: l) s in
     s' = startGame env s ∧
     hasStarted s' = true ∧
     timers s' = timers s ++ [(now s + 300, cb_zoomToPlanet)] ∧
     zoomTimers s' = 1%nat ∧ zoomTweens s' = 0%nat ∧
     panelShown "startText" s' = false ∧
     panelShown "titleContainer" s' = false ∧
     panelShown "socialMedia" s' = false).
Proof.
  intros Hinit s.
  assert (Hs : started_once s) by (apply started_once_run, (started_once_init env _ _ _ _ _ Hinit)).
  split; [exact Hs |]. split; [intros t; apply trigger_started |].
  split; [apply later_start_events |].
  intros t l Hno s'.
  destruct (startGame_starts env s) as (Hst & Hzt & Hzw).
  assert (Heq : s' = startGame env s).
  { unfold s', triggers. simpl. rewrite (trigger_first env t s Hno).
    apply (triggers_started env l), Hst. }
  rewrite Heq. split; [reflexivity |]. split; [exact Hst |].
  split; [apply startGame_timer |].
  unfold started_once in Hs. rewrite Hno in Hs.
  split; [lia |]. split; [lia |]. apply startGame_hides_intro.
Qed.

(** ** The voice scheduler *)

Section Voice.
Context (env : Env).

Lemma voice_inv_frame s0 s : voice_inv s0 → vframe s0 s → voice_inv s.
Proof.
  intros [Hsp Hpast Hcov Hone Hpool] [Hn Hl Hv Hf Ht Hp]. split.
  - congruence.
  - intros b Hb. rewrite Hf in Hb. specialize (Hpast b Hb). lia.
  - intros b Hb. rewrite Hf in Hb.
    destruct (Hcov b Hb) as [H | (dr & v & i & Hin & Hle & Hticks)].
    + left. congruence.
    + right. exists dr, v, i. split; [by apply Hp |]. split; [exact Hle |].
      intros t Htk. rewrite Ht in Htk. auto.
  - by rewrite Ht.
  - rewrite Ht, Hv. assumption.
Qed.

Lemma vframe_handleEvent s0 l ev s : vframe s0 s → vframe s0 (handleEvent env l ev s).
Proof.
  pose proof (vframe_playRandomVoice env). pose proof (vframe_startGame env).
  pose proof (vframe_startAudio env). pose proof (vframe_playClickSound env).
  pose proof vframe_hideDialog.
  intros Hs. destruct l, ev; unfold handleEvent; frames vf.
Qed.

Lemma vframe_startTextClicked s0 s : vframe s0 s → vframe s0 (startTextClicked env s).
Proof. pose proof (vframe_startGame env). unfold startTextClicked. frames vf. Qed.

Lemma vframe_menuItemClicked s0 k s : vframe s0 s → vframe s0 (menuItemClicked env k s).
Proof.
  pose proof (vframe_playClickSound env). pose proof (vframe_showDialog env).
  unfold menuItemClicked. frames vf.
Qed.

Lemma vframe_closeButtonClicked s0 a s :
  vframe s0 s → vframe s0 (closeButtonClicked env a s).
Proof.
  pose proof (vframe_playClickSound env). pose proof vframe_hideDialog.
  unfold closeButtonClicked. frames vf.
Qed.

Lemma vframe_overlayClicked s0 d b s : vframe s0 s → vframe s0 (overlayClicked d b s).
Proof. pose proof vframe_hideDialog. unfold overlayClicked. frames vf. Qed.

Lemma vframe_socialIconClicked s0 p s :
  vframe s0 s → vframe s0 (socialIconClicked env p s).
Proof. pose proof (vframe_playClickSound env). unfold socialIconClicked. frames vf. Qed.

Lemma vframe_onProgress s0 a b s : vframe s0 s → vframe s0 (onProgress a b s).
Proof. unfold onProgress, querySelector, getElementById. frames vf. Qed.

Lemma vframe_run_callback s0 cb s :
  is_tick (0, cb) = false → is_playing (0, cb) = false →
  vframe s0 s → vframe s0 (run_callback env cb s).
Proof.
  pose proof vframe_voiceStop. pose proof (vframe_zoomToPlanet env).
  pose proof vframe_tweenComplete. pose proof vframe_gameMenuVisible.
  pose proof (vframe_textTick env). pose proof vframe_dialogShow.
  pose proof (vframe_dialogHidden env).
  intros Ht Hp Hs. destruct cb; try discriminate;
    unfold run_callback, addAudioStartListener, removeText, dialogVisible, getElementById;
    frames vf.
Qed.

Lemma vframe_set_now s0 t s : now s ≤ t → vframe s0 s → vframe s0 (set_now t s).
Proof. intros Ht []. split; simpl; auto; lia. Qed.

(** Taking a timer that is neither a tick nor a [then] callback off the
    queue, and moving the clock to its due time, is a frame. *)
Lemma vframe_take s d cb rest :
  take_due d (timers s) = Some (cb, rest) →
  is_tick (0, cb) = false → is_playing (0, cb) = false →
  vframe s (set_now (Z.max (now s) d) (set_timers rest s)).
Proof.
  intros Htake Ht Hp. split; simpl; try reflexivity; try lia.
  - destruct (take_due_filter is_tick _ _ _ _ Htake) as [[He _] | [_ Hc]];
      [by rewrite He | unfold is_tick in *; simpl in *; congruence].
  - intros t Hpt Hin. destruct (take_due_rest _ _ _ _ t Htake Hin) as [-> | Hr];
      [unfold is_playing in *; simpl in *; congruence | exact Hr].
Qed.

Lemma fires_frame s0 s : vframe s0 s → fires s = fires s0.
Proof. by intros []. Qed.

(** When the scheduler fires: exactly when more than 60000 ms have passed
    since [lastVoiceTime] and the draw is below 0.15. *)
Lemma maybePlayRandomVoice_fires s :
  fires (maybePlayRandomVoice env s)
  = if (60000 <? now s - lastVoiceTime s) && Qltb (Math_random_at env (draws s)) 0.15%Q
    then now s :: fires s else fires s.
Proof.
  unfold maybePlayRandomVoice, Math_random. cbv zeta beta iota.
  change (now (set_draws _ s)) with (now s).
  change (lastVoiceTime (set_draws _ s)) with (lastVoiceTime s).
  case_match; [| reflexivity].
  rewrite (fires_frame _ _ (vframe_playRandomVoice env _ _ (vframe_refl _))).
  reflexivity.
Qed.

Lemma voiceSelected_settled v i s d :
  play_outcome env (plays s) = Resolves d →
  now (voiceSelected env v i s) = now s ∧
  lastVoiceTime (voiceSelected env v i s) = lastVoiceTime s ∧
  distortedVoices (voiceSelected env v i s) = distortedVoices s ∧
  fires (voiceSelected env v i s) = fires s ∧
  timers (voiceSelected env v i s) = timers s ++ [(now s + d, cb_voicePlaying v i)].
Proof.
  intros Hd. unfold voiceSelected, play, Math_random. cbv zeta beta iota. simpl plays.
  rewrite Hd. repeat split.
Qed.

Lemma in_ticks t l : t ∈ l → is_tick t = true → t ∈ List.filter is_tick l.
Proof. intros H1 H2. apply list_elem_of_In, filter_In. split; [by apply list_elem_of_In | exact H2]. Qed.

Lemma voice_inv_tick s d rest :
  draws_in_range env → plays_settle_promptly env → voice_inv s →
  min_due (timers s) = Some d →
  take_due d (timers s) = Some (cb_voiceTick, rest) →
  voice_inv (run_callback env cb_voiceTick (set_now (Z.max (now s) d) (set_timers rest s))).
Proof.
  intros Hdraws Hplays Hinv Hmin Htake.
  set (T := Z.max (now s) d). set (s1 := set_now T (set_timers rest s)).
  pose proof (take_due_elem _ _ _ _ Htake) as Hin.
  assert (Hrest : List.filter is_tick rest = []).
  { destruct (take_due_filter is_tick _ _ _ _ Htake) as [[_ Hc] | [Hl _]]; [discriminate |].
    pose proof (vi_one_tick _ Hinv) as H1. rewrite Hl in H1.
    destruct (List.filter is_tick rest); [reflexivity | simpl in H1; lia]. }
  assert (Hpool : length (distortedVoices s) = 2%nat).
  { apply (vi_pool _ Hinv). intros He.
    pose proof (in_ticks _ _ Hin eq_refl) as Hi. rewrite He in Hi. inversion Hi. }
  assert (Hcov : ∀ b, b ∈ fires s → b ≤ lastVoiceTime s).
  { intros b Hb. destruct (vi_covered _ Hinv b Hb) as [H | (dr & v & i & Hdr & _ & Hlt)];
      [exact H |].
    specialize (Hlt _ (in_ticks _ _ Hin eq_refl)). simpl in Hlt.
    pose proof (min_due_le _ _ _ Hmin Hdr) as Hle. simpl in Hle. lia. }
  assert (HT : now s ≤ T) by (unfold T; lia).
  unfold run_callback, setInterval.
  pose proof (maybePlayRandomVoice_fires s1) as Hfires.
  unfold maybePlayRandomVoice, Math_random in *. cbv zeta beta iota in *.
  change (now (set_draws _ s1)) with T in *. change (now s1) with T in *.
  change (lastVoiceTime (set_draws _ s1)) with (lastVoiceTime s) in *.
  change (lastVoiceTime s1) with (lastVoiceTime s) in *.
  change (draws s1) with (draws s) in *. change (fires s1) with (fires s) in *.
  destruct ((60000 <? T - lastVoiceTime s) && Qltb (Math_random_at env (draws s)) 0.15%Q)
    eqn:Hcond.
  - (* the scheduler fires *)
    apply andb_true_iff in Hcond as [Hgap _]. apply Z.ltb_lt in Hgap.
    set (s2 := console_log M_triggering (set_draws (N.succ (draws s)) s1)) in *.
    assert (Hne : distortedVoices s2 ≠ []).
    { change (distortedVoices s2) with (distortedVoices s).
      destruct (distortedVoices s); [discriminate | congruence]. }
    destruct (Hdraws (draws s2)) as [Hr0 Hr1].
    assert (Hlen : 0 < Z.of_nat (length (distortedVoices s2)))
      by (change (distortedVoices s2) with (distortedVoices s); lia).
    destruct (array_get_in_range _ _ (floor_scale_bounds _ _ Hr0 Hr1 Hlen)) as (v & Hv & _).
    rewrite (playRandomVoice_selected env s2 v Hne Hv) in *.
    set (i := Math_floor _) in *.
    destruct (Hplays (plays s2)) as (dly & Hdly & Hd0 & Hd1).
    destruct (voiceSelected_settled v i s2 dly Hdly) as (Hn & Hl & Hvs & _ & Ht).
    set (s3 := voiceSelected env v i s2) in *.
    change (now s2) with T in *. change (lastVoiceTime s2) with (lastVoiceTime s) in *.
    change (distortedVoices s2) with (distortedVoices s) in *.
    change (timers s2) with rest in *.
    assert (Hticks : List.filter is_tick (timers (schedule cb_voiceTick 25000 s3))
                     = [(T + 25000, cb_voiceTick)]).
    { simpl. rewrite Hn, Ht, !List.filter_app, Hrest. reflexivity. }
    split.
    + change (fires (schedule cb_voiceTick 25000 s3)) with (fires s3). rewrite Hfires.
      split; [| apply (vi_spaced _ Hinv)]. intros b Hb. specialize (Hcov b Hb). lia.
    + change (fires (schedule cb_voiceTick 25000 s3)) with (fires s3). rewrite Hfires.
      change (now (schedule cb_voiceTick 25000 s3)) with (now s3). rewrite Hn.
      intros b Hb. apply elem_of_cons in Hb as [-> | Hb]; [lia |].
      pose proof (vi_past _ Hinv b Hb). lia.
    + change (fires (schedule cb_voiceTick 25000 s3)) with (fires s3). rewrite Hfires.
      change (lastVoiceTime (schedule cb_voiceTick 25000 s3)) with (lastVoiceTime s3).
      rewrite Hl. intros b Hb. apply elem_of_cons in Hb as [-> | Hb]; [| left; auto].
      right. exists (T + dly), v, i. split; [| split; [lia |]].
      * simpl. rewrite Ht. apply elem_of_app. left. apply elem_of_app. right. left.
      * intros t Htk. rewrite Hticks in Htk. apply list_elem_of_singleton in Htk as ->.
        simpl. lia.
    + rewrite Hticks. simpl. lia.
    + intros _. change (distortedVoices (schedule cb_voiceTick 25000 s3))
        with (distortedVoices s3). by rewrite Hvs.
  - (* the scheduler stays silent *)
    set (s2 := set_draws (N.succ (draws s)) s1) in *.
    assert (Hticks : List.filter is_tick (timers (schedule cb_voiceTick 25000 s2))
                     = [(T + 25000, cb_voiceTick)]).
    { simpl. rewrite List.filter_app, Hrest. reflexivity. }
    split.
    + apply (vi_spaced _ Hinv).
    + intros b Hb. pose proof (vi_past _ Hinv b Hb). simpl. lia.
    + intros b Hb. left. apply Hcov, Hb.
    + rewrite Hticks. simpl. lia.
    + intros _. exact Hpool.
Qed.

Lemma voice_inv_playing s d v i rest :
  voice_inv s →
  take_due d (timers s) = Some (cb_voicePlaying v i, rest) →
  voice_inv (run_callback env (cb_voicePlaying v i)
               (set_now (Z.max (now s) d) (set_timers rest s))).
Proof.
  intros Hinv Htake.
  assert (Hticks : List.filter is_tick rest = List.filter is_tick (timers s)).
  { destruct (take_due_filter is_tick _ _ _ _ Htake) as [[He _] | [_ Hc]];
      [by rewrite He | discriminate]. }
  unfold run_callback, voicePlaying, setTimeout. cbv zeta. split.
  - apply (vi_spaced _ Hinv).
  - intros b Hb. pose proof (vi_past _ Hinv b Hb). simpl. lia.
  - intros b Hb. left. pose proof (vi_past _ Hinv b Hb). simpl. lia.
  - simpl. rewrite List.filter_app, Hticks. simpl. rewrite app_nil_r.
    apply (vi_one_tick _ Hinv).
  - simpl. rewrite List.filter_app, Hticks. simpl. rewrite app_nil_r.
    apply (vi_pool _ Hinv).
Qed.

Lemma voice_inv_runNext s :
  draws_in_range env → plays_settle_promptly env →
  voice_inv s → voice_inv (runNext env s).
Proof.
  intros Hdraws Hplays Hinv. unfold runNext.
  destruct (min_due (timers s)) as [d |] eqn:Hmin; [| exact Hinv].
  destruct (take_due d (timers s)) as [[cb rest] |] eqn:Htake; [| exact Hinv].
  destruct (is_tick (0, cb)) eqn:Ht.
  { assert (cb = cb_voiceTick) as -> by (destruct cb; try discriminate; reflexivity).
    by apply voice_inv_tick. }
  destruct (is_playing (0, cb)) eqn:Hp.
  { destruct cb; try discriminate. by apply voice_inv_playing. }
  eapply voice_inv_frame; [exact Hinv |].
  apply vframe_run_callback; [exact Ht | exact Hp |].
  by apply (vframe_take s d cb rest).
Qed.

Lemma voice_inv_step i s :
  draws_in_range env → plays_settle_promptly env →
  voice_inv s → voice_inv (step env i s).
Proof.
  intros Hdraws Hplays Hinv. destruct i; simpl.
  - eapply voice_inv_frame; [exact Hinv |]. apply vframe_set_now; [lia | apply vframe_refl].
  - by apply voice_inv_runNext.
  - eapply voice_inv_frame; [exact Hinv |].
    apply (dispatch_inv env (vframe s)); [intros; by apply vframe_handleEvent | apply vframe_refl].
  - eapply voice_inv_frame; [exact Hinv |].
    apply (dispatch_inv env (vframe s)); [intros; by apply vframe_handleEvent | apply vframe_refl].
  - eapply voice_inv_frame; [exact Hinv |].
    apply (dispatch_inv env (vframe s)); [intros; by apply vframe_handleEvent | apply vframe_refl].
  - eapply voice_inv_frame; [exact Hinv |].
    apply (dispatch_inv env (vframe s)); [intros; by apply vframe_handleEvent |].
    case_match; [apply vframe_startTextClicked |]; apply vframe_refl.
  - eapply voice_inv_frame; [exact Hinv |].
    apply (dispatch_inv env (vframe s)); [intros; by apply vframe_handleEvent |].
    apply (iter_inv (vframe s)); [apply vframe_menuItemClicked | apply vframe_refl].
  - eapply voice_inv_frame; [exact Hinv |].
    apply (dispatch_inv env (vframe s)); [intros; by apply vframe_handleEvent |].
    apply (iter_inv (vframe s)); [apply vframe_closeButtonClicked | apply vframe_refl].
  - eapply voice_inv_frame; [exact Hinv |].
    apply (dispatch_inv env (vframe s)); [intros; by apply vframe_handleEvent |].
    repeat case_match; try apply vframe_refl.
    apply (iter_inv (vframe s)); [apply vframe_overlayClicked | apply vframe_refl].
  - eapply voice_inv_frame; [exact Hinv |].
    apply (dispatch_inv env (vframe s)); [intros; by apply vframe_handleEvent |].
    apply vframe_socialIconClicked, vframe_refl.
  - eapply voice_inv_frame; [exact Hinv |]. apply vframe_onWindowResize.
    by split; try lia.
  - eapply voice_inv_frame; [exact Hinv |]. apply vframe_onProgress, vframe_refl.
  - eapply voice_inv_frame; [exact Hinv |].
    apply vframe_schedule; [discriminate | apply vframe_refl].
Qed.

Lemma voice_inv_run inputs s :
  draws_in_range env → plays_settle_promptly env →
  voice_inv s → voice_inv (run env inputs s).
Proof.
  intros Hdraws Hplays. revert s. induction inputs as [| i inputs IH]; intros s H; simpl;
    [exact H |].
  apply IH. by apply voice_inv_step.
Qed.
End Voice.

Section VoiceTheorems.
Context (env : Env).

Lemma vframe_setupBackgroundMusic s0 s :
  vframe s0 s → vframe s0 (setupBackgroundMusic env s).
Proof. unfold setupBackgroundMusic, getElementById. frames vf. Qed.

Lemma vframe_setupClickSound s0 s : vframe s0 s → vframe s0 (setupClickSound s).
Proof. unfold setupClickSound, getElementById. frames vf. Qed.

Lemma voice_inv_setupDistortedVoices s :
  fires s = [] → List.filter is_tick (timers s) = [] →
  voice_inv (setupDistortedVoices s).
Proof.
  intros Hf Ht. unfold setupDistortedVoices, startRandomVoiceSystem, setInterval.
  assert (Hbase : voice_inv s).
  { split; rewrite ?Hf, ?Ht; simpl; try done; try lia; intros b Hb; inversion Hb. }
  repeat case_match; try exact Hbase. cbv zeta.
  split.
  - change (spaced (fires s)). by rewrite Hf.
  - change (∀ b, b ∈ fires s → b ≤ now s). rewrite Hf. intros b Hb. inversion Hb.
  - intros b Hb. change (b ∈ fires s) in Hb. rewrite Hf in Hb. inversion Hb.
  - simpl. rewrite List.filter_app, Ht. simpl. lia.
  - reflexivity.
Qed.

Lemma voice_inv_init page width height clock s0 :
  init env (initial page width height clock) = Ok s0 → voice_inv s0.
Proof.
  pose proof vframe_showSocialMedia.
  intros ->%init_Ok.
  eapply voice_inv_frame.
  - unfold setupAudio. cbv zeta. apply voice_inv_setupDistortedVoices.
    + rewrite (fires_frame (initial page width height clock)); [reflexivity |].
      apply vframe_setupClickSound, vframe_setupBackgroundMusic, vframe_refl.
    + rewrite (vf_ticks (initial page width height clock)); [reflexivity |].
      apply vframe_setupClickSound, vframe_setupBackgroundMusic, vframe_refl.
  - unfold createCamera, createControls, createStarfield, setupEventListeners,
      setupStartExperience, getElementById.
    frames vf.
Qed.
End VoiceTheorems.

(** What the guard of the scheduler does achieve. A tick fires exactly
    when more than 60000 ms have passed since [lastVoiceTime] and its draw
    is below 0.15; the next tick is due 25000 ms later. Where every draw
    lies in [0, 1) and every [play()] promise resolves less than 25000 ms
    after the call, no two firings of the scheduler are within 60000 ms of
    each other, whatever else happens on the page. *)
Theorem scheduler_cooldown (env : Env) (page : gmap string Element)
    (width height clock : Z) (s0 : State) (inputs : list Input) :
  draws_in_range env → plays_settle_promptly env →
  init env (initial page width height clock) = Ok s0 →
  let s := run env inputs s0 in
  run_callback env cb_voiceTick s = setInterval cb_voiceTick 25000 (maybePlayRandomVoice env s) ∧
  fires (maybePlayRandomVoice env s)
  = (if (60000 <? now s - lastVoiceTime s) && Qltb (Math_random_at env (draws s)) 0.15%Q
     then now s :: fires s else fires s) ∧
  (fires (maybePlayRandomVoice env s) ≠ fires s →
   (Math_random_at env (draws s) < 0.15)%Q ∧ 60000 < now s - lastVoiceTime s) ∧
  spaced (fires s).
Proof.
  intros Hdraws Hplays Hinit s. split; [reflexivity |].
  split; [apply maybePlayRandomVoice_fires |].
  split.
  { rewrite maybePlayRandomVoice_fires.
    destruct ((60000 <? now s - lastVoiceTime s)
              && Qltb (Math_random_at env (draws s)) 0.15%Q) eqn:E; [| congruence].
    intros _. apply andb_true_iff in E as [Hgap Hdraw].
    split; [by apply Qltb_lt | by apply Z.ltb_lt]. }
  apply vi_spaced, voice_inv_run; [exact Hdraws | exact Hplays |].
  eapply voice_inv_init, Hinit.
Qed.

Lemma promptEnv_draws : draws_in_range promptEnv.
Proof. intros n. split; vm_compute; congruence. Defined.

Lemma promptEnv_plays : plays_settle_promptly promptEnv.
Proof. intros n. exists 0. split; [reflexivity | lia]. Defined.

Lemma constructed_init env : init env (initial demoPage 1600 900 demoClock) = Ok (constructed env).
Proof.
  unfold constructed. destruct (init_ok_with_canvas env demoPage 1600 900 demoClock) as [s Hs].
  - by eexists.
  - by rewrite Hs.
Defined.

(** With a [play()] that takes 30 seconds to start, the scheduler fires at
    two consecutive ticks, 25 seconds apart, and both clips start playing. *)
Lemma scheduler_fires_within_cooldown :
  draws_in_range slowEnv ∧
  fires (run slowEnv [RunNext; RunNext; RunNext; RunNext] (constructed slowEnv))
  = [demoClock + 50000; demoClock + 25000] ∧
  playbacks (run slowEnv (repeat RunNext 8) (constructed slowEnv))
  = [demoClock + 80000; demoClock + 55000] ∧
  ¬ spaced (fires (run slowEnv [RunNext; RunNext; RunNext; RunNext] (constructed slowEnv))).
Proof.
  assert (Hf : fires (run slowEnv [RunNext; RunNext; RunNext; RunNext] (constructed slowEnv))
               = [demoClock + 50000; demoClock + 25000]) by (vm_compute; reflexivity).
  split; [intros n; split; vm_compute; congruence |].
  split; [exact Hf |]. split; [vm_compute; reflexivity |].
  rewrite Hf. intros [H _]. specialize (H (demoClock + 25000)).
  assert (Hin : demoClock + 25000 ∈ [demoClock + 25000]) by left.
  specialize (H Hin). lia.
Qed.

(** ** The cooldown the scheduler misses *)

Lemma maybePlayRandomVoice_lastVoiceTime (env : Env) (s : State) :
  lastVoiceTime (maybePlayRandomVoice env s) = lastVoiceTime s.
Proof.
  unfold maybePlayRandomVoice, Math_random. cbv zeta beta iota. case_match; [| reflexivity].
  by rewrite (vf_last _ _ (vframe_playRandomVoice env _ _ (vframe_refl _))).
Qed.

Lemma maybePlayRandomVoice_now (env : Env) (s : State) :
  now (maybePlayRandomVoice env s) = now s.
Proof.
  unfold maybePlayRandomVoice, playRandomVoice, Math_random, play.
  cbv zeta beta iota. by repeat case_match.
Qed.

Lemma tick_fires (env : Env) (s : State) :
  60000 < now s - lastVoiceTime s → (Math_random_at env (draws s) < 0.15)%Q →
  fires (run_callback env cb_voiceTick s) = now s :: fires s.
Proof.
  intros Hgap Hdraw.
  change (fires (run_callback env cb_voiceTick s)) with (fires (maybePlayRandomVoice env s)).
  rewrite maybePlayRandomVoice_fires.
  assert (H1 : (60000 <? now s - lastVoiceTime s) = true) by by apply Z.ltb_lt.
  assert (H2 : Qltb (Math_random_at env (draws s)) 0.15%Q = true) by by apply Qltb_lt.
  by rewrite H1, H2.
Qed.

(** C3. The guard of [maybePlayRandomVoice] compares the time with
    [lastVoiceTime], and a firing does not write [lastVoiceTime]: only the
    [then] callback of [play()] does. So a tick that fires leaves the guard
    open: the tick 25000 ms later, reached before that callback has run and
    with a draw below 0.15 again, fires as well, and the two firings are
    25000 ms apart, inside the 60000 ms the guard is meant to keep. *)
Theorem scheduler_misses_cooldown (env : Env) (s s2 : State) :
  60000 < now s - lastVoiceTime s →
  (Math_random_at env (draws s) < 0.15)%Q →
  let s1 := run_callback env cb_voiceTick s in
  now s2 = now s + 25000 →
  lastVoiceTime s2 = lastVoiceTime s →
  fires s2 = fires s1 →
  (Math_random_at env (draws s2) < 0.15)%Q →
  fires s1 = now s :: fires s ∧
  lastVoiceTime s1 = lastVoiceTime s ∧
  (now s + 25000, cb_voiceTick) ∈ timers s1 ∧
  fires (run_callback env cb_voiceTick s2) = (now s + 25000) :: now s :: fires s ∧
  ¬ spaced (fires (run_callback env cb_voiceTick s2)).
Proof.
  intros Hgap Hdraw s1 Hnow Hlast Hfires Hdraw2.
  assert (H1 : fires s1 = now s :: fires s) by by apply tick_fires.
  assert (H2 : fires (run_callback env cb_voiceTick s2) = (now s + 25000) :: now s :: fires s).
  { rewrite tick_fires; [by rewrite Hnow, Hfires, H1 | rewrite Hnow, Hlast; lia | exact Hdraw2]. }
  split; [exact H1 |]. split.
  { change (lastVoiceTime s1) with (lastVoiceTime (maybePlayRandomVoice env s)).
    apply maybePlayRandomVoice_lastVoiceTime. }
  split.
  { change (timers s1) with (timers (maybePlayRandomVoice env s)
                             ++ [(now (maybePlayRandomVoice env s) + 25000, cb_voiceTick)]).
    apply elem_of_app. right. apply list_elem_of_singleton.
    by rewrite maybePlayRandomVoice_now. }
  split; [exact H2 |].
  rewrite H2. intros [H _]. specialize (H (now s)).
  assert (Hin : now s ∈ now s :: fires s) by left. specialize (H Hin). lia.
Qed.

(** C3 on the demo page, where [play()] takes 30 seconds to resolve: the
    tick at 25 s, and the tick at 50 s that finds the promise of the first
    still pending. *)
Lemma scheduler_misses_cooldown_witness :
  let s := run slowEnv [RunNext; Wait 24900] (constructed slowEnv) in
  let s1 := run_callback slowEnv cb_voiceTick s in
  let s2 := run slowEnv [Wait 25000] s1 in
  fires s1 = [demoClock + 25000] ∧
  lastVoiceTime s1 = 0 ∧
  fires (run_callback slowEnv cb_voiceTick s2) = [demoClock + 50000; demoClock + 25000] ∧
  ¬ spaced (fires (run_callback slowEnv cb_voiceTick s2)).
Proof.
  intros s s1 s2.
  assert (E1 : now s = demoClock + 25000) by (vm_compute; reflexivity).
  assert (E2 : fires s = []) by (vm_compute; reflexivity).
  assert (E3 : lastVoiceTime s = 0) by (vm_compute; reflexivity).
  assert (A1 : 60000 < now s - lastVoiceTime s) by (vm_compute; reflexivity).
  assert (A2 : (Math_random_at slowEnv (draws s) < 0.15)%Q) by (vm_compute; reflexivity).
  assert (A3 : now s2 = now s + 25000) by (vm_compute; reflexivity).
  assert (A4 : lastVoiceTime s2 = lastVoiceTime s) by (vm_compute; reflexivity).
  assert (A5 : fires s2 = fires s1) by (vm_compute; reflexivity).
  assert (A6 : (Math_random_at slowEnv (draws s2) < 0.15)%Q) by (vm_compute; reflexivity).
  pose proof (scheduler_misses_cooldown slowEnv s s2 A1 A2 A3 A4 A5 A6) as H.
  clearbody s2. fold s1 in H. clearbody s1. clearbody s.
  destruct H as (H1 & H2 & _ & H4 & H5).
  rewrite E1, E2 in H1, H4. rewrite E3 in H2. rewrite H4 in H5.
  change (demoClock + 25000 + 25000) with (demoClock + 50000) in H4, H5.
  split; [exact H1 |]. split; [exact H2 |]. split; [exact H4 |]. by rewrite H4.
Defined.

(** ** The manual voice test *)

Lemma maybePlayRandomVoice_silent (env : Env) (s : State) :
  now s - lastVoiceTime s ≤ 60000 →
  maybePlayRandomVoice env s = set_draws (N.succ (draws s)) s.
Proof.
  intros H. unfold maybePlayRandomVoice, Math_random. cbv zeta beta iota.
  change (now (set_draws _ s)) with (now s).
  change (lastVoiceTime (set_draws _ s)) with (lastVoiceTime s).
  destruct (Z.ltb_spec 60000 (now s - lastVoiceTime s)); [lia | reflexivity].
Qed.

(** Two presses of V one second apart: both clips start playing. *)
Lemma manual_fires_one_second_apart :
  playbacks (run promptEnv
               [Keydown "v" "KeyV"; RunNext; RunNext; Wait 1000; Keydown "V" "KeyV";
                RunNext; RunNext]
               (constructed promptEnv))
  = [demoClock + 1000; demoClock].
Proof. vm_compute. reflexivity. Qed.

(** C9. The V key calls [playRandomVoice] directly: with a pool of voices
    and a draw in [0, 1) it makes a [play()] call whatever the time since
    [lastVoiceTime] and without any threshold draw, and it does not count as
    a firing of the scheduler. When the promise resolves, [lastVoiceTime]
    becomes the current time, so the scheduler stays silent until more than
    60000 ms after it; and two manual clips can start one second apart. *)
Theorem manual_voice_bypasses_cooldown (env : Env) (s : State) (key code : string) :
  toLowerCase key = "v" →
  distortedVoices s ≠ [] →
  (0 <= Math_random_at env (draws s))%Q → (Math_random_at env (draws s) < 1)%Q →
  let s' := handleEvent env L_voiceTest (ev_keydown key code) s in
  s' = playRandomVoice env (console_log M_manualTest s) ∧
  plays s' = N.succ (plays s) ∧
  draws s' = N.succ (draws s) ∧
  fires s' = fires s ∧
  (∀ v i s1,
     let s2 := run_callback env (cb_voicePlaying v i) s1 in
     lastVoiceTime s2 = now s1 ∧ playbacks s2 = now s1 :: playbacks s1 ∧
     ∀ s3, lastVoiceTime s3 = lastVoiceTime s2 → now s3 ≤ now s1 + 60000 →
           maybePlayRandomVoice env s3 = set_draws (N.succ (draws s3)) s3) ∧
  (∃ e inputs t,
     playbacks (run e inputs (constructed e)) = [t + 1000; t]).
Proof.
  intros Hkey Hpool Hr0 Hr1 s'.
  assert (Hs' : s' = playRandomVoice env (console_log M_manualTest s))
    by (unfold s'; simpl; by rewrite Hkey).
  split; [exact Hs' |]. rewrite Hs'.
  set (s0 := console_log M_manualTest s).
  destruct (playRandomVoice_picks env s0 Hpool Hr0 Hr1) as (_ & v & _ & _ & Heq).
  rewrite Heq. destruct (voiceSelected_counters env v (Math_floor
    (Math_random_at env (draws s0) * Number (Z.of_nat (length (distortedVoices s0))))) s0)
    as [Hp Hd].
  split; [exact Hp |]. split; [exact Hd |]. rewrite <- Heq.
  split.
  { rewrite (fires_frame _ _ (vframe_playRandomVoice env _ _ (vframe_refl s0))).
    reflexivity. }
  split.
  { intros v1 i s1 s2. split; [reflexivity |]. split; [reflexivity |].
    intros s3 Hl Hn. apply maybePlayRandomVoice_silent.
    rewrite Hl. change (lastVoiceTime s2) with (now s1). lia. }
  exists promptEnv, [Keydown "v" "KeyV"; RunNext; RunNext; Wait 1000; Keydown "V" "KeyV";
                     RunNext; RunNext], demoClock.
  exact manual_fires_one_second_apart.
Qed.

(** ** Dialogs *)

Section Dialogs.
Context (env : Env).

(** The click sound touches nothing but the audio element and the count of
    [play()] calls. *)
Lemma playClickSound_shape s :
  ∃ els n, playClickSound env s = set_plays n (set_elements els s).
Proof.
  unfold playClickSound, play, update. destruct s. simpl.
  repeat case_match; simpl; eauto.
Qed.

Lemma look_playClickSound id s : look id (playClickSound env s) = look id s.
Proof. apply (ls_look _ _ (lsame_playClickSound env s s (lsame_refl s))). Qed.

Lemma panelShown_eq id s :
  panelShown id s
  = match look id s with
    | Some (cl, d) =>
        bool_decide ("visible" ∈ cl) && negb (bool_decide ("hidden" ∈ cl))
        && negb (bool_decide (d = "none"))
    | None => false
    end.
Proof. unfold panelShown, look, shown. by destruct (elements s !! id). Qed.

Lemma moveEarthTo_top s :
  moveEarthTo env "top" s = gsap_to ControlsTarget 2500 (topPose env s) false s.
Proof. reflexivity. Qed.

Lemma moveEarthTo_eq a s :
  moveEarthTo env a s = gsap_to ControlsTarget 2500 (earthTarget env a s) false s.
Proof.
  unfold moveEarthTo, earthTarget, fovRadians, viewAspect. cbv zeta.
  destruct (String.eqb a "right"); [reflexivity |].
  destruct (String.eqb a "top"); [reflexivity |].
  destruct (String.eqb a "bottom"); [reflexivity |].
  destruct (String.eqb a "bottomRight"); reflexivity.
Qed.

Lemma moveEarthToLeft_eq s :
  moveEarthToLeft env s = gsap_to ControlsTarget 2500 (menuPose env s) false s.
Proof. reflexivity. Qed.

Lemma showDialog_eq d a s :
  showDialog env d a s
  = addEscapeListener
      (setTimeout (cb_dialogShow d) 500
         (moveEarthTo env a
            (set_currentDialog (Some d) (update "gameMenu" (set_display "none") s)))).
Proof. unfold showDialog. cbv zeta. by rewrite guarded_update. Qed.

Lemma look_showDialog id d a s :
  look id (showDialog env d a s) = look id (update "gameMenu" (set_display "none") s).
Proof.
  rewrite showDialog_eq, moveEarthTo_eq. reflexivity.
Qed.

Lemma dialogShow_present d s :
  is_Some (look d s) →
  dialogShow d s = setTimeout (cb_dialogVisible d) 50 (update d (classList_remove "hidden") s).
Proof.
  intros [p Hp]. unfold dialogShow, getElementById. unfold look in Hp.
  destruct (elements s !! d); [reflexivity | discriminate].
Qed.

Lemma hideDialog_present ty s :
  is_Some (look (ty +:+ "Dialog") s) →
  hideDialog ty s
  = removeEscapeListener
      (setTimeout (cb_dialogHidden (ty +:+ "Dialog")) 500
         (update (ty +:+ "Dialog") (classList_remove "visible") s)).
Proof.
  intros [p Hp]. unfold hideDialog, getElementById. unfold look in Hp. cbv zeta.
  destruct (elements s !! (ty +:+ "Dialog")); [reflexivity | discriminate].
Qed.

Lemma dialogHidden_eq d s :
  dialogHidden env d s
  = moveEarthToLeft env
      (update "gameMenu" (set_display "") (update d (classList_add "hidden") s)).
Proof. unfold dialogHidden. cbv zeta. by rewrite guarded_update. Qed.

(** A dialog whose [hidden] class was removed and whose [visible] class
    was added is on screen, unless its inline display forbids it. *)
Lemma shown_revealed e :
  style_display e ≠ "none" →
  shown (classList_add "visible" (classList_remove "hidden" e)) = true.
Proof.
  intros Hd. unfold shown.
  rewrite (bool_decide_eq_true_2 _ (classList_add_elem "visible" _)).
  assert (Hnh : "hidden" ∉ classList (classList_add "visible" (classList_remove "hidden" e))).
  { unfold classList_add, classList_remove. simpl. case_bool_decide.
    - intros [Hx _]%list_elem_of_filter. done.
    - intros [[Hx _]%list_elem_of_filter | Hx%list_elem_of_singleton]%elem_of_app; done. }
  rewrite (bool_decide_eq_false_2 _ Hnh). simpl.
  by rewrite bool_decide_eq_false_2.
Qed.

Lemma dialogs_not_menu d : d ∈ dialogs → d ≠ "gameMenu".
Proof.
  intros H ->. unfold dialogs in H.
  repeat (apply elem_of_cons in H as [H | H]; [discriminate |]). inversion H.
Qed.

Lemma dialogs_roundtrip d : d ∈ dialogs → replace "Dialog" "" d +:+ "Dialog" = d ∧ d ≠ "".
Proof.
  intros H. unfold dialogs in H.
  repeat (apply elem_of_cons in H as [-> | H]; [split; [reflexivity | discriminate] |]).
  inversion H.
Qed.
End Dialogs.

Section DialogTheorems.
Context (env : Env).

(** What a menu click does to the state, beyond the click sound. *)
Lemma menuItemClicked_eq key d a s :
  menuOption key = Some (d, a) →
  menuItemClicked env key s = showDialog env d a (playClickSound env s).
Proof. intros H. unfold menuItemClicked. by rewrite H. Qed.

Lemma look_menuItemClicked key d a id s :
  menuOption key = Some (d, a) → id ≠ "gameMenu" →
  look id (menuItemClicked env key s) = look id s.
Proof.
  intros H Hid. rewrite (menuItemClicked_eq _ _ _ _ H), look_showDialog.
  rewrite look_update_ne by done. apply look_playClickSound.
Qed.

Lemma menu_hidden_after_click key d a s :
  menuOption key = Some (d, a) →
  panelShown "gameMenu" (menuItemClicked env key s) = false.
Proof.
  intros H. rewrite (menuItemClicked_eq _ _ _ _ H).
  rewrite (panelShown_look "gameMenu" _ _ (look_showDialog env _ _ _ _)).
  apply panelShown_display_none.
Qed.

Lemma showDialog_timers d a s :
  timers (showDialog env d a s)
  = timers s ++ [(now s + 2500, cb_tweenComplete (targetTween s (earthTarget env a s)));
                 (now s + 500, cb_dialogShow d)] ∧
  currentDialog (showDialog env d a s) = Some d.
Proof.
  rewrite showDialog_eq, moveEarthTo_eq. split; [| reflexivity].
  unfold addEscapeListener, setTimeout, gsap_to, schedule. simpl.
  by rewrite <- app_assoc.
Qed.

(** The dialog revealed by the two timers of [showDialog]. *)
Lemma dialog_revealed d s e :
  elements s !! d = Some e → style_display e ≠ "none" →
  panelShown d (dialogVisible d (dialogShow d s)) = true ∧
  timers (dialogShow d s) = timers s ++ [(now s + 50, cb_dialogVisible d)] ∧
  ∀ id, id ≠ d →
    look id (dialogVisible d (dialogShow d s)) = look id s.
Proof.
  intros He Hd.
  assert (Hp : is_Some (look d s)) by (unfold look; rewrite He; eauto).
  rewrite (dialogShow_present d s Hp). unfold dialogVisible, setTimeout. repeat split.
  - unfold panelShown, update, schedule. simpl. rewrite !lookup_alter_eq, He. simpl.
    by apply shown_revealed.
  - intros id Hid. change (look id (update d (classList_add "visible")
                                       (update d (classList_remove "hidden") s)) = look id s).
    by rewrite !look_update_ne.
Qed.
End DialogTheorems.

(** C5. Where the menu's listeners are in place, a click on option 3 runs
    the menu item's listener once. It starts a 2500 ms tween of the camera
    target towards x = tan(fov/2) * 160 * aspect * 0.6 and
    y = tan(fov/2) * 160 * 0.8 and queues the dialog's reveal 500 ms (and
    then 50 ms) away; once the reveal callbacks and the tween's completion
    have run, the target has those coordinates, [problemDialog] is shown and
    [gameMenu] is hidden. *)
Theorem top_dialog_scenario (env : Env) (s : State) (dlg : Element) :
  elements s !! "problemDialog" = Some dlg →
  style_display dlg ≠ "none" →
  let tw := targetTween s (topPose env s) in
  let s1 := menuItemClicked env "3" s in
  let s2 := dialogShow "problemDialog" s1 in
  let s3 := dialogVisible "problemDialog" s2 in
  let s4 := run_callback env (cb_tweenComplete tw) s3 in
  (menuSetups s = 1%nat → L_startAudio ∉ documentListeners s →
   step env (ClickMenuItem "3") s = s1) ∧
  currentDialog s1 = Some "problemDialog" ∧
  timers s1 = timers s ++ [(now s + 2500, cb_tweenComplete tw);
                           (now s + 500, cb_dialogShow "problemDialog")] ∧
  timers s2 = timers s1 ++ [(now s + 50, cb_dialogVisible "problemDialog")] ∧
  vx (controls_target s4)
  = (Math_tan env (fovRadians s / 2) * 160 * viewAspect s * 0.6)%Q ∧
  vy (controls_target s4) = (Math_tan env (fovRadians s / 2) * 160 * 0.8)%Q ∧
  panelShown "problemDialog" s4 = true ∧
  panelShown "gameMenu" s4 = false.
Proof.
  intros Hdlg Hdisp tw s1 s2 s3 s4.
  assert (Hopt : menuOption "3" = Some ("problemDialog", "top")) by reflexivity.
  assert (Hlook : look "problemDialog" s1 = look "problemDialog" s)
    by (apply (look_menuItemClicked env _ _ _ _ _ Hopt); discriminate).
  unfold look in Hlook. rewrite Hdlg in Hlook. simpl in Hlook.
  apply fmap_Some in Hlook as (e1 & He1 & [= Hcl Hdp]).
  assert (Hd1 : style_display e1 ≠ "none") by congruence.
  destruct (dialog_revealed "problemDialog" s1 e1 He1 Hd1) as (Hshown & Htm & Hothers).
  fold s2 in Htm, Hshown, Hothers. fold s3 in Hshown, Hothers.
  assert (Hs1 : s1 = showDialog env "problemDialog" "top" (playClickSound env s))
    by reflexivity.
  destruct (playClickSound_shape env s) as (els & n & Hpc).
  split.
  { intros Hset Hl. simpl. rewrite Hset. simpl. apply dispatch_click.
    change (L_startAudio ∉ documentListeners s1).
    rewrite Hs1, showDialog_eq, moveEarthTo_top, Hpc. simpl.
    intros [Hin | Hin%list_elem_of_singleton]%elem_of_app; [contradiction | discriminate]. }
  split; [rewrite Hs1; reflexivity |].
  split.
  { rewrite Hs1, showDialog_eq, moveEarthTo_top, Hpc.
    unfold addEscapeListener, setTimeout, gsap_to, schedule. simpl.
    by rewrite <- app_assoc. }
  split.
  { rewrite Htm. do 3 f_equal. rewrite Hs1, showDialog_eq, moveEarthTo_top, Hpc. reflexivity. }
  split; [reflexivity |]. split; [reflexivity |].
  split.
  - exact Hshown.
  - change (panelShown "gameMenu" s3 = false).
    rewrite (panelShown_look "gameMenu" s1 s3) by (apply Hothers; discriminate).
    apply (menu_hidden_after_click env _ _ _ _ Hopt).
Qed.

(** A menu click that arrives while [aboutDialog] is open is not ignored:
    it makes [problemDialog] the current dialog and, once its timers have
    run, both dialogs are on screen. *)
Lemma second_dialog_opens_over_first :
  let s := run promptEnv (toMenu ++ openAbout) (constructed promptEnv) in
  let s' := run promptEnv [ClickMenuItem "3"; RunNext; RunNext; RunNext] s in
  shownDialogs s = ["aboutDialog"] ∧
  currentDialog s = Some "aboutDialog" ∧
  currentDialog (step promptEnv (ClickMenuItem "3") s) = Some "problemDialog" ∧
  step promptEnv (ClickMenuItem "3") s ≠ s ∧
  shownDialogs s' = ["aboutDialog"; "problemDialog"].
Proof.
  assert (H1 : currentDialog (run promptEnv (toMenu ++ openAbout) (constructed promptEnv))
               = Some "aboutDialog") by (vm_compute; reflexivity).
  assert (H2 : currentDialog (step promptEnv (ClickMenuItem "3")
                 (run promptEnv (toMenu ++ openAbout) (constructed promptEnv)))
               = Some "problemDialog") by (vm_compute; reflexivity).
  cbv zeta. split; [vm_compute; reflexivity |]. split; [exact H1 |]. split; [exact H2 |].
  split; [| vm_compute; reflexivity].
  intros Heq. rewrite Heq in H2. congruence.
Qed.

Section Closing.
Context (env : Env).

Lemma removeEscapeListener_shape s :
  ∃ ls, removeEscapeListener s = set_escapeHandler None (set_documentListeners ls s).
Proof.
  unfold removeEscapeListener. destruct (escapeHandler s) eqn:E; [eauto |].
  exists (documentListeners s). destruct s. simpl in *. by subst.
Qed.

Lemma shown_faded e : shown (classList_remove "visible" e) = false.
Proof.
  unfold shown. rewrite bool_decide_eq_false_2; [reflexivity |].
  unfold classList_remove. simpl. intros [H _]%list_elem_of_filter. done.
Qed.

(** Each close mechanism amounts to [hideDialog] on the dialog's type,
    after at most the click sound. *)
Lemma close_hideDialog d m s :
  d ∈ dialogs → closes d m s →
  ∃ ty els n,
    ty +:+ "Dialog" = d ∧
    lsame s (set_plays n (set_elements els s)) ∧
    close env d m s = hideDialog ty (set_plays n (set_elements els s)).
Proof.
  intros Hd Hm. destruct (dialogs_roundtrip d Hd) as [Hrt Hne].
  destruct (playClickSound_shape env s) as (els & n & Hpc).
  assert (Hls : lsame s (set_plays n (set_elements els s)))
    by (rewrite <- Hpc; apply lsame_playClickSound, lsame_refl).
  destruct m as [ty | | key code h]; simpl in Hm |- *.
  - exists ty, els, n. split; [exact Hm |]. split; [exact Hls |].
    unfold closeButtonClicked. cbv zeta. by rewrite Hpc.
  - exists (replace "Dialog" "" d), (elements s), (plays s).
    split; [exact Hrt |]. split; [| unfold overlayClicked]; by destruct s.
  - destruct Hm as [Hkey Hcur]. exists (replace "Dialog" "" d), els, n.
    split; [exact Hrt |]. split; [exact Hls |].
    rewrite Hkey. simpl. rewrite Hpc. simpl. rewrite Hcur.
    destruct (String.eqb_spec d ""); [congruence | reflexivity].
Qed.

Lemma look_set_display id v s :
  look id (update id (set_display v) s) = (λ p, (fst p, v)) <$> look id s.
Proof. rewrite look_update_eq. unfold look. by destruct (elements s !! id). Qed.
End Closing.

(** C4. Each of the three close mechanisms, aimed at an open dialog, takes
    the [visible] class off the dialog at once and queues one callback 500
    ms away; when that callback runs, the dialog carries the class
    [hidden], the menu panel shows again and a 2500 ms tween takes the
    camera target back to the menu pose, the pose the zoom-in ended at. A
    click inside the dialog whose target is not the backdrop closes
    nothing. *)
Theorem closing_returns_to_menu (env : Env) (s : State) (d : string)
    (m : CloseMechanism) (dlg menu : Element) :
  d ∈ dialogs → closes d m s →
  elements s !! d = Some dlg →
  elements s !! "gameMenu" = Some menu →
  "visible" ∈ classList menu → "hidden" ∉ classList menu →
  let s1 := close env d m s in
  let s2 := run_callback env (cb_dialogHidden d) s1 in
  let tw := targetTween s (menuPose env s) in
  timers s1 = timers s ++ [(now s + 500, cb_dialogHidden d)] ∧
  escapeHandler s1 = None ∧
  panelShown d s1 = false ∧
  panelShown d s2 = false ∧
  panelShown "gameMenu" s2 = true ∧
  timers s2 = timers s1 ++ [(now s + 2500, cb_tweenComplete tw)] ∧
  controls_target (run_callback env (cb_tweenComplete tw) s2) = menuPose env s ∧
  (∀ s', tw_to <$> head (tweens (zoomToPlanet env s')) = Some (menuPose env s')) ∧
  overlayClicked d false s = s.
Proof.
  intros Hd Hm Hdlg Hmenu Hvis Hhid s1 s2 tw.
  destruct (close_hideDialog env d m s Hd Hm) as (ty & els & n & Hty & Hls & Hclose).
  set (X := set_plays n (set_elements els s)) in *.
  assert (HlookX : ∀ id, look id X = look id s) by apply Hls.
  assert (Hp : is_Some (look (ty +:+ "Dialog") X))
    by (rewrite Hty, HlookX; unfold look; rewrite Hdlg; eauto).
  rewrite (hideDialog_present ty X Hp), Hty in Hclose.
  destruct (removeEscapeListener_shape
              (setTimeout (cb_dialogHidden d) 500
                 (update d (classList_remove "visible") X))) as [ls Hrm].
  rewrite Hrm in Hclose. clear Hrm Hp.
  assert (Hnm : d ≠ "gameMenu") by (by apply dialogs_not_menu).
  assert (Hs2 : s2 = moveEarthToLeft env
                       (update "gameMenu" (set_display "")
                          (update d (classList_add "hidden") s1)))
    by apply dialogHidden_eq.
  split; [unfold s1; rewrite Hclose; reflexivity |].
  split; [unfold s1; rewrite Hclose; reflexivity |].
  split.
  { unfold s1. rewrite Hclose. unfold panelShown, update. simpl.
    rewrite lookup_alter_eq. destruct (els !! d); [apply shown_faded | reflexivity]. }
  split.
  { rewrite Hs2, moveEarthToLeft_eq.
    change (panelShown d (update "gameMenu" (set_display "")
                            (update d (classList_add "hidden") s1)) = false).
    rewrite panelShown_update_ne by done. apply panelShown_hidden. }
  split.
  { rewrite Hs2, moveEarthToLeft_eq, panelShown_eq.
    change (look "gameMenu" (gsap_to ?o ?t ?p ?b ?x)) with (look "gameMenu" x).
    rewrite look_set_display, look_update_ne by done.
    unfold s1. rewrite Hclose.
    change (look "gameMenu" (set_escapeHandler None (set_documentListeners ls
              (setTimeout (cb_dialogHidden d) 500 ?x)))) with (look "gameMenu" x).
    rewrite look_update_ne by done. rewrite HlookX. unfold look. rewrite Hmenu. simpl.
    rewrite (bool_decide_eq_true_2 _ Hvis), (bool_decide_eq_false_2 _ Hhid). reflexivity. }
  split.
  { rewrite Hs2, moveEarthToLeft_eq. unfold s1. rewrite Hclose. reflexivity. }
  split; [reflexivity |]. split; [reflexivity |].
  reflexivity.
Qed.

(** * Instances on the demo page *)

Lemma demo_menu_state :
  let s := run promptEnv toMenu (constructed promptEnv) in
  elements s !! "problemDialog" = Some hiddenPanel ∧
  elements s !! "aboutDialog" = Some hiddenPanel ∧
  elements s !! "randomTextContainer" = Some blankElement ∧
  menuSetups s = 1%nat.
Proof. vm_compute. repeat split. Defined.

Lemma hiddenPanel_display : style_display hiddenPanel ≠ "none".
Proof. discriminate. Defined.

(** C1 on the demo page: a double click on the start text. *)
Lemma start_is_idempotent_witness :
  init promptEnv (initial demoPage 1600 900 demoClock) = Ok (constructed promptEnv) ∧
  let s := run promptEnv [ClickElsewhere; Wait 40] (constructed promptEnv) in
  started_once s ∧
  (∀ t, hasStarted s = true → trigger promptEnv t s = s) ∧
  (hasStarted s = true → L_startAudio ∉ documentListeners s →
   step promptEnv (Keydown "Enter" "Enter") s = s ∧ step promptEnv ClickStartText s = s) ∧
  (∀ t l, hasStarted s = false →
     let s' := triggers promptEnv (t :: l) s in
     s' = startGame promptEnv s ∧
     hasStarted s' = true ∧
     timers s' = timers s ++ [(now s + 300, cb_zoomToPlanet)] ∧
     zoomTimers s' = 1%nat ∧ zoomTweens s' = 0%nat ∧
     panelShown "startText" s' = false ∧
     panelShown "titleContainer" s' = false ∧
     panelShown "socialMedia" s' = false).
Proof.
  split; [apply constructed_init |].
  apply (start_is_idempotent promptEnv demoPage 1600 900 demoClock (constructed promptEnv) [ClickElsewhere; Wait 40]).
  apply constructed_init.
Defined.

(** The guard on the demo page: twelve callbacks, three of them ticks. *)
Lemma scheduler_cooldown_witness :
  draws_in_range promptEnv ∧ plays_settle_promptly promptEnv ∧
  init promptEnv (initial demoPage 1600 900 demoClock) = Ok (constructed promptEnv) ∧
  let s := run promptEnv (repeat RunNext 12) (constructed promptEnv) in
  run_callback promptEnv cb_voiceTick s
  = setInterval cb_voiceTick 25000 (maybePlayRandomVoice promptEnv s) ∧
  fires (maybePlayRandomVoice promptEnv s)
  = (if (60000 <? now s - lastVoiceTime s)
        && Qltb (Math_random_at promptEnv (draws s)) 0.15%Q
     then now s :: fires s else fires s) ∧
  (fires (maybePlayRandomVoice promptEnv s) ≠ fires s →
   (Math_random_at promptEnv (draws s) < 0.15)%Q ∧ 60000 < now s - lastVoiceTime s) ∧
  spaced (fires s).
Proof.
  split; [exact promptEnv_draws |]. split; [exact promptEnv_plays |].
  split; [apply constructed_init |].
  exact (scheduler_cooldown promptEnv demoPage 1600 900 demoClock (constructed promptEnv)
           (repeat RunNext 12) promptEnv_draws promptEnv_plays (constructed_init promptEnv)).
Defined.

Lemma demo_about_open :
  let s := run promptEnv (toMenu ++ openAbout) (constructed promptEnv) in
  currentDialog s = Some "aboutDialog" ∧
  elements s !! "aboutDialog"
  = Some {| classList := ["visible"]; style_display := ""; style_width := None;
            volume := 1%Q; currentTime := 0%Q; paused := true; childNodes := [] |} ∧
  elements s !! "gameMenu"
  = Some {| classList := ["visible"]; style_display := "none"; style_width := None;
            volume := 1%Q; currentTime := 0%Q; paused := true; childNodes := [] |} ∧
  shownDialogs s = ["aboutDialog"] ∧ panelShown "gameMenu" s = false.
Proof. vm_compute. repeat split. Defined.

(** C4 on the demo page: the E key while [aboutDialog] is open. *)
Lemma closing_returns_to_menu_witness :
  let s := run promptEnv (toMenu ++ openAbout) (constructed promptEnv) in
  let d := "aboutDialog" in
  let m := ExitKey "E" "KeyE" 0 in
  let dlg := {| classList := ["visible"]; style_display := ""; style_width := None;
                volume := 1%Q; currentTime := 0%Q; paused := true; childNodes := [] |} in
  let menu := {| classList := ["visible"]; style_display := "none"; style_width := None;
                 volume := 1%Q; currentTime := 0%Q; paused := true; childNodes := [] |} in
  d ∈ dialogs ∧ closes d m s ∧
  elements s !! d = Some dlg ∧
  elements s !! "gameMenu" = Some menu ∧
  "visible" ∈ classList menu ∧ ("hidden" ∉ classList menu) ∧
  let s1 := close promptEnv d m s in
  let s2 := run_callback promptEnv (cb_dialogHidden d) s1 in
  let tw := targetTween s (menuPose promptEnv s) in
  timers s1 = timers s ++ [(now s + 500, cb_dialogHidden d)] ∧
  escapeHandler s1 = None ∧
  panelShown d s1 = false ∧
  panelShown d s2 = false ∧
  panelShown "gameMenu" s2 = true ∧
  timers s2 = timers s1 ++ [(now s + 2500, cb_tweenComplete tw)] ∧
  controls_target (run_callback promptEnv (cb_tweenComplete tw) s2) = menuPose promptEnv s ∧
  (∀ s', tw_to <$> head (tweens (zoomToPlanet promptEnv s')) = Some (menuPose promptEnv s')) ∧
  overlayClicked d false s = s.
Proof.
  intros s d m dlg menu.
  assert (Hd : d ∈ dialogs) by left.
  assert (Hm : closes d m s) by (split; [reflexivity | exact (proj1 demo_about_open)]).
  assert (Hdlg : elements s !! d = Some dlg) by (exact (proj1 (proj2 demo_about_open))).
  assert (Hmenu : elements s !! "gameMenu" = Some menu)
    by (exact (proj1 (proj2 (proj2 demo_about_open)))).
  assert (Hvis : "visible" ∈ classList menu) by left.
  assert (Hhid : "hidden" ∉ classList menu)
    by (unfold menu; simpl; intros Hin%list_elem_of_singleton; discriminate).
  split; [exact Hd |]. split; [exact Hm |]. split; [exact Hdlg |]. split; [exact Hmenu |].
  split; [exact Hvis |]. split; [exact Hhid |].
  exact (closing_returns_to_menu promptEnv s d m dlg menu Hd Hm Hdlg Hmenu Hvis Hhid).
Defined.

(** C5 on the demo page: start, then option 3. *)
Lemma top_dialog_scenario_witness :
  let s := run promptEnv toMenu (constructed promptEnv) in
  elements s !! "problemDialog" = Some hiddenPanel ∧
  style_display hiddenPanel ≠ "none" ∧
  let tw := targetTween s (topPose promptEnv s) in
  let s1 := menuItemClicked promptEnv "3" s in
  let s2 := dialogShow "problemDialog" s1 in
  let s3 := dialogVisible "problemDialog" s2 in
  let s4 := run_callback promptEnv (cb_tweenComplete tw) s3 in
  (menuSetups s = 1%nat → L_startAudio ∉ documentListeners s →
   step promptEnv (ClickMenuItem "3") s = s1) ∧
  currentDialog s1 = Some "problemDialog" ∧
  timers s1 = timers s ++ [(now s + 2500, cb_tweenComplete tw);
                           (now s + 500, cb_dialogShow "problemDialog")] ∧
  timers s2 = timers s1 ++ [(now s + 50, cb_dialogVisible "problemDialog")] ∧
  vx (controls_target s4)
  = (Math_tan promptEnv (fovRadians s / 2) * 160 * viewAspect s * 0.6)%Q ∧
  vy (controls_target s4) = (Math_tan promptEnv (fovRadians s / 2) * 160 * 0.8)%Q ∧
  panelShown "problemDialog" s4 = true ∧
  panelShown "gameMenu" s4 = false.
Proof.
  intros s.
  assert (H : elements s !! "problemDialog" = Some hiddenPanel)
    by (exact (proj1 demo_menu_state)).
  split; [exact H |]. split; [exact hiddenPanel_display |].
  exact (top_dialog_scenario promptEnv s hiddenPanel H hiddenPanel_display).
Defined.

(** C6 on the demo page without its canvas container. *)
Lemma init_throws_without_canvas_witness :
  pageWithoutCanvas !! "canvas-container" = None ∧
  init promptEnv (initial pageWithoutCanvas 1600 900 demoClock)
  = TypeError "Cannot read properties of null (reading 'appendChild')".
Proof.
  assert (H : pageWithoutCanvas !! "canvas-container" = None) by (vm_compute; reflexivity).
  split; [exact H |].
  exact (init_throws_without_canvas promptEnv pageWithoutCanvas 1600 900 demoClock H).
Defined.


Lemma demo_voices :
  distortedVoices (constructed promptEnv) = ["distortedVoice1"; "distortedVoice2"].
Proof. vm_compute. reflexivity. Defined.

(** C9 on the demo page: the V key right after construction. *)
Lemma manual_voice_bypasses_cooldown_witness :
  let env := promptEnv in
  let s := constructed promptEnv in
  let key := "V" in
  let code := "KeyV" in
  toLowerCase key = "v" ∧
  distortedVoices s ≠ [] ∧
  (0 <= Math_random_at env (draws s))%Q ∧ (Math_random_at env (draws s) < 1)%Q ∧
  let s' := handleEvent env L_voiceTest (ev_keydown key code) s in
  s' = playRandomVoice env (console_log M_manualTest s) ∧
  plays s' = N.succ (plays s) ∧
  draws s' = N.succ (draws s) ∧
  fires s' = fires s ∧
  (∀ v i s1,
     let s2 := run_callback env (cb_voicePlaying v i) s1 in
     lastVoiceTime s2 = now s1 ∧ playbacks s2 = now s1 :: playbacks s1 ∧
     ∀ s3, lastVoiceTime s3 = lastVoiceTime s2 → now s3 ≤ now s1 + 60000 →
           maybePlayRandomVoice env s3 = set_draws (N.succ (draws s3)) s3) ∧
  (∃ e inputs t,
     playbacks (run e inputs (constructed e)) = [t + 1000; t]).
Proof.
  intros env s key code.
  assert (Hk : toLowerCase key = "v") by reflexivity.
  assert (Hp : distortedVoices s ≠ []) by (unfold s; rewrite demo_voices; discriminate).
  destruct (promptEnv_draws (draws s)) as [H0 H1].
  split; [exact Hk |]. split; [exact Hp |]. split; [exact H0 |]. split; [exact H1 |].
  exact (manual_voice_bypasses_cooldown env s key code Hk Hp H0 H1).
Defined.

(** C10 on the demo page: the pool of two voices and the draw 0.1. *)
Lemma playRandomVoice_in_bounds_witness :
  let env := promptEnv in
  let s := constructed promptEnv in
  (0 <= Math_random_at env (draws s))%Q ∧
  (Math_random_at env (draws s) < 1)%Q ∧
  match distortedVoices s with
  | [] => playRandomVoice env s = console_log M_noVoices (console_log (M_attempting 0) s)
  | pool =>
      let i := Math_floor (Math_random_at env (draws s) * Number (Z.of_nat (length pool))) in
      0 ≤ i < Z.of_nat (length pool) ∧
      ∃ v, array_get pool i = Some v ∧ v ∈ pool ∧
           playRandomVoice env s = voiceSelected env v i s ∧
           plays (playRandomVoice env s) = N.succ (plays s)
  end.
Proof.
  intros env s. destruct (promptEnv_draws (draws s)) as [H0 H1].
  split; [exact H0 |]. split; [exact H1 |].
  exact (playRandomVoice_in_bounds env s H0 H1).
Defined.

(** * End-to-end runs on the demo page *)

(** Start, then option 3, through the event loop, for any [Math.tan]. *)
Example top_dialog_end_to_end (tan : Q → Q) :
  let env := tanEnv tan in
  let s := run env toMenu (constructed env) in
  let s' := run env (ClickMenuItem "3" :: repeat RunNext 6) s in
  controls_target s' = topPose env s ∧ shownDialogs s' = ["problemDialog"] ∧
  panelShown "gameMenu" s' = false ∧ now s' = demoClock + 5900 ∧ zoomTweens s' = 1%nat.
Proof. vm_compute. repeat split. Qed.

(** Each way of closing [aboutDialog], through the event loop. *)
Example close_end_to_end :
  let env := promptEnv in
  let s := run env (toMenu ++ openAbout) (constructed env) in
  ∀ i, i ∈ [Keydown "e" "KeyE"; ClickCloseButton (Some "about"); ClickDialog "aboutDialog" true] →
  let s' := run env (i :: repeat RunNext 7) s in
  shownDialogs s' = [] ∧ panelShown "gameMenu" s' = true ∧
  controls_target s' = menuPose env s ∧ documentListeners s' = [L_voiceTest; L_enter].
Proof.
  intros env s i Hi.
  repeat (apply elem_of_cons in Hi as [-> | Hi]; [vm_compute; repeat split |]).
  inversion Hi.
Qed.

(** A double click and an Enter key: one zoom-in, one menu set-up. *)
Example double_click_end_to_end :
  let env := promptEnv in
  let s := run env ([ClickStartText; ClickStartText; Keydown "Enter" "Enter"] ++ repeat RunNext 6) (constructed env) in
  zoomTweens s = 1%nat ∧ length (tweens s) = 2%nat ∧ panelShown "gameMenu" s = true ∧ menuSetups s = 1%nat
  ∧ controls_target s = menuPose env s.
Proof. vm_compute. repeat split. Qed.

(** Forty callbacks with prompt playback: the scheduler fires every third tick. *)
Example scheduler_long_run :
  fires (run promptEnv (repeat RunNext 40) (constructed promptEnv)) = [demoClock + 550000; demoClock + 475000; demoClock + 400000; demoClock + 325000;
     demoClock + 250000; demoClock + 175000; demoClock + 100000; demoClock + 25000].
Proof. vm_compute. reflexivity. Qed.

(** With every [play()] rejected, [lastVoiceTime] never moves and the
    scheduler fires at every tick, though no clip ever plays. *)
Example scheduler_blocked_playback :
  let s := run blockedEnv (repeat RunNext 8) (constructed blockedEnv) in
  fires s = [demoClock + 75000; demoClock + 50000; demoClock + 25000] ∧
  playbacks s = [] ∧ lastVoiceTime s = 0.
Proof. vm_compute. repeat split. Qed.

(** ** What a method preserves, for any property of the state *)

Create HintDb kp discriminated.

(** Walk through a method from its last write back to its first. *)
Ltac closes :=
  intros; open_method;
  first [ solve [eauto 60 with kp nocore]
        | repeat case_match; solve [eauto 60 with kp nocore] ].

(** [P] is any property of the state. Each hypothesis says that one
    primitive write preserves it; each lemma then says the same of a method,
    and depends only on the hypotheses for the writes that method can
    make. *)
Section Units.
Context (env : Env) (P : State → Prop).

Hypothesis C_now : ∀ v s, P s → P (set_now v s).
Hypothesis C_innerWidth : ∀ v s, P s → P (set_innerWidth v s).
Hypothesis C_innerHeight : ∀ v s, P s → P (set_innerHeight v s).
Hypothesis C_draws : ∀ v s, P s → P (set_draws v s).
Hypothesis C_plays : ∀ v s, P s → P (set_plays v s).
Hypothesis C_documentListeners : ∀ v s, P s → P (set_documentListeners v s).
Hypothesis C_nextListener : ∀ v s, P s → P (set_nextListener v s).
Hypothesis C_startTextClick : ∀ v s, P s → P (set_startTextClick v s).
Hypothesis C_menuSetups : ∀ v s, P s → P (set_menuSetups v s).
Hypothesis C_nextLabel : ∀ v s, P s → P (set_nextLabel v s).
Hypothesis C_hasStarted : ∀ v s, P s → P (set_hasStarted v s).
Hypothesis C_escapeHandler : ∀ v s, P s → P (set_escapeHandler v s).
Hypothesis C_currentDialog : ∀ v s, P s → P (set_currentDialog v s).
Hypothesis C_backgroundMusic : ∀ v s, P s → P (set_backgroundMusic v s).
Hypothesis C_clickSound : ∀ v s, P s → P (set_clickSound v s).
Hypothesis C_distortedVoices : ∀ v s, P s → P (set_distortedVoices v s).
Hypothesis C_lastVoiceTime : ∀ v s, P s → P (set_lastVoiceTime v s).
Hypothesis C_camera_fov : ∀ v s, P s → P (set_camera_fov v s).
Hypothesis C_camera_aspect : ∀ v s, P s → P (set_camera_aspect v s).
Hypothesis C_camera_position : ∀ v s, P s → P (set_camera_position v s).
Hypothesis C_camera_projection : ∀ v s, P s → P (set_camera_projection v s).
Hypothesis C_controls_target : ∀ v s, P s → P (set_controls_target v s).
Hypothesis C_renderer_size : ∀ v s, P s → P (set_renderer_size v s).
Hypothesis C_volume : ∀ id v s, P s → P (update id (set_volume v) s).
Hypothesis C_currentTime : ∀ id v s, P s → P (update id (set_currentTime v) s).
Hypothesis C_paused : ∀ id v s, P s → P (update id (set_paused v) s).
Hypothesis C_add_hidden : ∀ id s, P s → P (update id (classList_add "hidden") s).
Hypothesis C_add_visible_social :
  ∀ s, P s → P (update "socialMedia" (classList_add "visible") s).
Hypothesis C_add_visible_menu :
  ∀ s, P s → P (update "gameMenu" (classList_add "visible") s).
Hypothesis C_add_visible_dialog : ∀ d s, P s → P (dialogVisible d s).
Hypothesis C_remove_visible : ∀ id s, P s → P (update id (classList_remove "visible") s).
Hypothesis C_remove_hidden_social :
  ∀ s, P s → P (update "socialMedia" (classList_remove "hidden") s).
Hypothesis C_remove_hidden_menu :
  ∀ s, P s → P (update "gameMenu" (classList_remove "hidden") s).
Hypothesis C_remove_hidden_dialog : ∀ d s, P s → P (update d (classList_remove "hidden") s).
Hypothesis C_display_menu : ∀ d s, P s → P (update "gameMenu" (set_display d) s).
Hypothesis C_display_social : ∀ d s, P s → P (update "socialMedia" (set_display d) s).
Hypothesis C_width : ∀ id w s, P s → P (update id (set_width w) s).
Hypothesis C_appendChild : ∀ id l s, P s → P (update id (appendChild l) s).
Hypothesis C_removeChild : ∀ id l s, P s → P (update id (removeChild l) s).
Hypothesis C_log_musicStarted : ∀ s, P s → P (console_log M_musicStarted s).
Hypothesis C_log_autoplayPrevented : ∀ s, P s → P (console_log M_autoplayPrevented s).
Hypothesis C_log_startingVoiceSystem : ∀ s, P s → P (console_log M_startingVoiceSystem s).
Hypothesis C_log_triggering : ∀ s, P s → P (console_log M_triggering s).
Hypothesis C_log_manualTest : ∀ s, P s → P (console_log M_manualTest s).
Hypothesis C_log_attempting : ∀ n s, P s → P (console_log (M_attempting n) s).
Hypothesis C_log_noVoices : ∀ s, P s → P (console_log M_noVoices s).
Hypothesis C_log_selected : ∀ i s, P s → P (console_log (M_selected i) s).
Hypothesis C_log_playing : ∀ i s, P s → P (console_log (M_playing i) s).
Hypothesis C_log_stopped : ∀ i s, P s → P (console_log (M_stopped i) s).
Hypothesis C_log_playError : ∀ i s, P s → P (console_log (M_playError i) s).
Hypothesis C_log_iconClicked : ∀ p s, P s → P (console_log (M_iconClicked p) s).
Hypothesis C_sched_musicStarted : ∀ d s, P s → P (schedule cb_musicStarted d s).
Hypothesis C_sched_autoplayPrevented : ∀ d s, P s → P (schedule cb_autoplayPrevented d s).
Hypothesis C_sched_voiceTick : ∀ d s, P s → P (schedule cb_voiceTick d s).
Hypothesis C_sched_voicePlaying : ∀ v i d s, P s → P (schedule (cb_voicePlaying v i) d s).
Hypothesis C_sched_voiceError : ∀ i d s, P s → P (schedule (cb_voiceError i) d s).
Hypothesis C_sched_voiceStop : ∀ v i d s, P s → P (schedule (cb_voiceStop v i) d s).
Hypothesis C_sched_loadingHidden : ∀ d s, P s → P (schedule cb_loadingHidden d s).
Hypothesis C_sched_socialVisible : ∀ d s, P s → P (schedule cb_socialVisible d s).
Hypothesis C_sched_zoomToPlanet : ∀ d s, P s → P (schedule cb_zoomToPlanet d s).
Hypothesis C_sched_gameMenuVisible : ∀ d s, P s → P (schedule cb_gameMenuVisible d s).
Hypothesis C_sched_textTick : ∀ d s, P s → P (schedule cb_textTick d s).
Hypothesis C_sched_removeText : ∀ l d s, P s → P (schedule (cb_removeText l) d s).
Hypothesis C_sched_dialogShow : ∀ x d s, P s → P (schedule (cb_dialogShow x) d s).
Hypothesis C_sched_dialogVisible : ∀ x d s, P s → P (schedule (cb_dialogVisible x) d s).
Hypothesis C_sched_dialogHidden : ∀ x d s, P s → P (schedule (cb_dialogHidden x) d s).
Hypothesis C_gsap_camera : ∀ d to s, P s → P (gsap_to CameraPosition d to false s).
Hypothesis C_gsap_target : ∀ d to s, P s → P (gsap_to ControlsTarget d to false s).
Hypothesis C_gsap_menu : ∀ d to s, P s → P (gsap_to ControlsTarget d to true s).

#[local] Hint Extern 20 (P _) => case_match : kp.

#[local] Opaque dialogVisible.

Lemma closed_playClickSound s : P s → P (playClickSound env s).
Proof. unfold playClickSound. closes. Qed.
#[local] Hint Resolve closed_playClickSound : kp.

Lemma closed_addAudioStartListener s : P s → P (addAudioStartListener s).
Proof. unfold addAudioStartListener. closes. Qed.
#[local] Hint Resolve closed_addAudioStartListener : kp.

Lemma closed_startAudio s : P s → P (startAudio env s).
Proof. unfold startAudio, getElementById. closes. Qed.
#[local] Hint Resolve closed_startAudio : kp.

Lemma closed_playRandomVoice s : P s → P (playRandomVoice env s).
Proof. unfold playRandomVoice. closes. Qed.
#[local] Hint Resolve closed_playRandomVoice : kp.

Lemma closed_startGame s : P s → P (startGame env s).
Proof. rewrite startGame_eq. closes. Qed.
#[local] Hint Resolve closed_startGame : kp.

Lemma closed_spawnText s : P s → P (spawnText env s).
Proof. unfold spawnText. closes. Qed.
#[local] Hint Resolve closed_spawnText : kp.

Lemma closed_addEscapeListener s : P s → P (addEscapeListener s).
Proof. unfold addEscapeListener. closes. Qed.
#[local] Hint Resolve closed_addEscapeListener : kp.

Lemma closed_removeEscapeListener s : P s → P (removeEscapeListener s).
Proof. unfold removeEscapeListener. closes. Qed.
#[local] Hint Resolve closed_removeEscapeListener : kp.

Lemma closed_voicePlaying v i s : P s → P (voicePlaying v i s).
Proof. unfold voicePlaying. closes. Qed.
#[local] Hint Resolve closed_voicePlaying : kp.

Lemma closed_setupDistortedVoices s : P s → P (setupDistortedVoices s).
Proof. unfold setupDistortedVoices, startRandomVoiceSystem, getElementById. closes. Qed.
#[local] Hint Resolve closed_setupDistortedVoices : kp.

Lemma closed_setupStartExperience s : P s → P (setupStartExperience s).
Proof. unfold setupStartExperience, showSocialMedia, getElementById. closes. Qed.
#[local] Hint Resolve closed_setupStartExperience : kp.

Lemma closed_createCamera s : P s → P (createCamera s).
Proof. unfold createCamera. closes. Qed.
#[local] Hint Resolve closed_createCamera : kp.

Lemma closed_showGameMenu s : P s → P (showGameMenu s).
Proof. unfold showGameMenu, getElementById. closes. Qed.
#[local] Hint Resolve closed_showGameMenu : kp.

Lemma closed_dialogShow d s : P s → P (dialogShow d s).
Proof. unfold dialogShow, getElementById. closes. Qed.
#[local] Hint Resolve closed_dialogShow : kp.

Lemma closed_zoomToPlanet s : P s → P (zoomToPlanet env s).
Proof. unfold zoomToPlanet. closes. Qed.
#[local] Hint Resolve closed_zoomToPlanet : kp.

Lemma closed_moveEarthTo a s : P s → P (moveEarthTo env a s).
Proof. rewrite moveEarthTo_eq. closes. Qed.
#[local] Hint Resolve closed_moveEarthTo : kp.

Lemma closed_moveEarthToLeft s : P s → P (moveEarthToLeft env s).
Proof. unfold moveEarthToLeft. closes. Qed.
#[local] Hint Resolve closed_moveEarthToLeft : kp.

Lemma closed_gameMenuVisible s : P s → P (gameMenuVisible s).
Proof.
  unfold gameMenuVisible, startRandomTextSpawning, setupMenuInteractions, getElementById.
  closes.
Qed.
#[local] Hint Resolve closed_gameMenuVisible : kp.

#[local] Transparent dialogVisible.

End Units.

(** The same for the listeners and callbacks, which are made of the
    methods above: these appear as hypotheses of their own, so that a
    property which one of them preserves only as a whole can be carried
    through its callers. *)
Section Closed.
Context (env : Env) (P : State → Prop).

#[local] Opaque playClickSound addAudioStartListener startAudio playRandomVoice startGame
  spawnText addEscapeListener removeEscapeListener voicePlaying setupDistortedVoices
  setupStartExperience createCamera showGameMenu dialogShow zoomToPlanet gameMenuVisible dialogVisible
  moveEarthTo moveEarthToLeft.

Hypothesis C_now : ∀ v s, P s → P (set_now v s).
Hypothesis C_innerWidth : ∀ v s, P s → P (set_innerWidth v s).
Hypothesis C_innerHeight : ∀ v s, P s → P (set_innerHeight v s).
Hypothesis C_draws : ∀ v s, P s → P (set_draws v s).
Hypothesis C_plays : ∀ v s, P s → P (set_plays v s).
Hypothesis C_documentListeners : ∀ v s, P s → P (set_documentListeners v s).
Hypothesis C_nextListener : ∀ v s, P s → P (set_nextListener v s).
Hypothesis C_startTextClick : ∀ v s, P s → P (set_startTextClick v s).
Hypothesis C_menuSetups : ∀ v s, P s → P (set_menuSetups v s).
Hypothesis C_nextLabel : ∀ v s, P s → P (set_nextLabel v s).
Hypothesis C_hasStarted : ∀ v s, P s → P (set_hasStarted v s).
Hypothesis C_escapeHandler : ∀ v s, P s → P (set_escapeHandler v s).
Hypothesis C_currentDialog : ∀ v s, P s → P (set_currentDialog v s).
Hypothesis C_backgroundMusic : ∀ v s, P s → P (set_backgroundMusic v s).
Hypothesis C_clickSound : ∀ v s, P s → P (set_clickSound v s).
Hypothesis C_distortedVoices : ∀ v s, P s → P (set_distortedVoices v s).
Hypothesis C_lastVoiceTime : ∀ v s, P s → P (set_lastVoiceTime v s).
Hypothesis C_camera_fov : ∀ v s, P s → P (set_camera_fov v s).
Hypothesis C_camera_aspect : ∀ v s, P s → P (set_camera_aspect v s).
Hypothesis C_camera_position : ∀ v s, P s → P (set_camera_position v s).
Hypothesis C_camera_projection : ∀ v s, P s → P (set_camera_projection v s).
Hypothesis C_controls_target : ∀ v s, P s → P (set_controls_target v s).
Hypothesis C_renderer_size : ∀ v s, P s → P (set_renderer_size v s).
Hypothesis C_volume : ∀ id v s, P s → P (update id (set_volume v) s).
Hypothesis C_currentTime : ∀ id v s, P s → P (update id (set_currentTime v) s).
Hypothesis C_paused : ∀ id v s, P s → P (update id (set_paused v) s).
Hypothesis C_add_hidden : ∀ id s, P s → P (update id (classList_add "hidden") s).
Hypothesis C_add_visible_social :
  ∀ s, P s → P (update "socialMedia" (classList_add "visible") s).
Hypothesis C_add_visible_menu :
  ∀ s, P s → P (update "gameMenu" (classList_add "visible") s).
Hypothesis C_add_visible_dialog : ∀ d s, P s → P (dialogVisible d s).
Hypothesis C_remove_visible : ∀ id s, P s → P (update id (classList_remove "visible") s).
Hypothesis C_remove_hidden_social :
  ∀ s, P s → P (update "socialMedia" (classList_remove "hidden") s).
Hypothesis C_remove_hidden_menu :
  ∀ s, P s → P (update "gameMenu" (classList_remove "hidden") s).
Hypothesis C_remove_hidden_dialog : ∀ d s, P s → P (update d (classList_remove "hidden") s).
Hypothesis C_display_menu : ∀ d s, P s → P (update "gameMenu" (set_display d) s).
Hypothesis C_display_social : ∀ d s, P s → P (update "socialMedia" (set_display d) s).
Hypothesis C_width : ∀ id w s, P s → P (update id (set_width w) s).
Hypothesis C_appendChild : ∀ id l s, P s → P (update id (appendChild l) s).
Hypothesis C_removeChild : ∀ id l s, P s → P (update id (removeChild l) s).
Hypothesis C_log_musicStarted : ∀ s, P s → P (console_log M_musicStarted s).
Hypothesis C_log_autoplayPrevented : ∀ s, P s → P (console_log M_autoplayPrevented s).
Hypothesis C_log_startingVoiceSystem : ∀ s, P s → P (console_log M_startingVoiceSystem s).
Hypothesis C_log_triggering : ∀ s, P s → P (console_log M_triggering s).
Hypothesis C_log_manualTest : ∀ s, P s → P (console_log M_manualTest s).
Hypothesis C_log_attempting : ∀ n s, P s → P (console_log (M_attempting n) s).
Hypothesis C_log_noVoices : ∀ s, P s → P (console_log M_noVoices s).
Hypothesis C_log_selected : ∀ i s, P s → P (console_log (M_selected i) s).
Hypothesis C_log_playing : ∀ i s, P s → P (console_log (M_playing i) s).
Hypothesis C_log_stopped : ∀ i s, P s → P (console_log (M_stopped i) s).
Hypothesis C_log_playError : ∀ i s, P s → P (console_log (M_playError i) s).
Hypothesis C_log_iconClicked : ∀ p s, P s → P (console_log (M_iconClicked p) s).
Hypothesis C_sched_musicStarted : ∀ d s, P s → P (schedule cb_musicStarted d s).
Hypothesis C_sched_autoplayPrevented : ∀ d s, P s → P (schedule cb_autoplayPrevented d s).
Hypothesis C_sched_voiceTick : ∀ d s, P s → P (schedule cb_voiceTick d s).
Hypothesis C_sched_voicePlaying : ∀ v i d s, P s → P (schedule (cb_voicePlaying v i) d s).
Hypothesis C_sched_voiceError : ∀ i d s, P s → P (schedule (cb_voiceError i) d s).
Hypothesis C_sched_voiceStop : ∀ v i d s, P s → P (schedule (cb_voiceStop v i) d s).
Hypothesis C_sched_loadingHidden : ∀ d s, P s → P (schedule cb_loadingHidden d s).
Hypothesis C_sched_socialVisible : ∀ d s, P s → P (schedule cb_socialVisible d s).
Hypothesis C_sched_zoomToPlanet : ∀ d s, P s → P (schedule cb_zoomToPlanet d s).
Hypothesis C_sched_gameMenuVisible : ∀ d s, P s → P (schedule cb_gameMenuVisible d s).
Hypothesis C_sched_textTick : ∀ d s, P s → P (schedule cb_textTick d s).
Hypothesis C_sched_removeText : ∀ l d s, P s → P (schedule (cb_removeText l) d s).
Hypothesis C_sched_dialogShow : ∀ x d s, P s → P (schedule (cb_dialogShow x) d s).
Hypothesis C_sched_dialogVisible : ∀ x d s, P s → P (schedule (cb_dialogVisible x) d s).
Hypothesis C_sched_dialogHidden : ∀ x d s, P s → P (schedule (cb_dialogHidden x) d s).
Hypothesis C_gsap_camera : ∀ d to s, P s → P (gsap_to CameraPosition d to false s).
Hypothesis C_gsap_target : ∀ d to s, P s → P (gsap_to ControlsTarget d to false s).
Hypothesis C_gsap_menu : ∀ d to s, P s → P (gsap_to ControlsTarget d to true s).

Hypothesis U_playClickSound : ∀ s, P s → P (playClickSound env s).
Hypothesis U_addAudioStartListener : ∀ s, P s → P (addAudioStartListener s).
Hypothesis U_startAudio : ∀ s, P s → P (startAudio env s).
Hypothesis U_playRandomVoice : ∀ s, P s → P (playRandomVoice env s).
Hypothesis U_startGame : ∀ s, P s → P (startGame env s).
Hypothesis U_spawnText : ∀ s, P s → P (spawnText env s).
Hypothesis U_addEscapeListener : ∀ s, P s → P (addEscapeListener s).
Hypothesis U_removeEscapeListener : ∀ s, P s → P (removeEscapeListener s).
Hypothesis U_voicePlaying : ∀ v i s, P s → P (voicePlaying v i s).
Hypothesis U_setupDistortedVoices : ∀ s, P s → P (setupDistortedVoices s).
Hypothesis U_setupStartExperience : ∀ s, P s → P (setupStartExperience s).
Hypothesis U_createCamera : ∀ s, P s → P (createCamera s).
Hypothesis U_showGameMenu : ∀ s, P s → P (showGameMenu s).
Hypothesis U_dialogShow : ∀ d s, P s → P (dialogShow d s).
Hypothesis U_zoomToPlanet : ∀ s, P s → P (zoomToPlanet env s).
Hypothesis U_moveEarthTo : ∀ a s, P s → P (moveEarthTo env a s).
Hypothesis U_moveEarthToLeft : ∀ s, P s → P (moveEarthToLeft env s).
Hypothesis U_gameMenuVisible : ∀ s, P s → P (gameMenuVisible s).

#[local] Hint Extern 20 (P _) => case_match : kp.

Lemma closed_setupBackgroundMusic s : P s → P (setupBackgroundMusic env s).
Proof.
  unfold setupBackgroundMusic, getElementById.
  destruct (elements s !! "backgroundMusic"); cbn [backgroundMusic set_backgroundMusic];
    closes.
Qed.
#[local] Hint Resolve closed_setupBackgroundMusic : kp.

Lemma closed_setupClickSound s : P s → P (setupClickSound s).
Proof. unfold setupClickSound, getElementById. closes. Qed.
#[local] Hint Resolve closed_setupClickSound : kp.

Lemma closed_setupAudio s : P s → P (setupAudio env s).
Proof. unfold setupAudio. closes. Qed.
#[local] Hint Resolve closed_setupAudio : kp.

Lemma closed_maybePlayRandomVoice s : P s → P (maybePlayRandomVoice env s).
Proof. unfold maybePlayRandomVoice. closes. Qed.
#[local] Hint Resolve closed_maybePlayRandomVoice : kp.

Lemma closed_voiceStop v i s : P s → P (voiceStop v i s).
Proof. unfold voiceStop. closes. Qed.
#[local] Hint Resolve closed_voiceStop : kp.

Lemma closed_createControls s : P s → P (createControls s).
Proof. unfold createControls. closes. Qed.
#[local] Hint Resolve closed_createControls : kp.

Lemma closed_createStarfield s : P s → P (createStarfield s).
Proof. unfold createStarfield. closes. Qed.
#[local] Hint Resolve closed_createStarfield : kp.

Lemma closed_onWindowResize s : P s → P (onWindowResize s).
Proof. unfold onWindowResize. closes. Qed.
#[local] Hint Resolve closed_onWindowResize : kp.

Lemma closed_removeText l s : P s → P (removeText l s).
Proof. unfold removeText. closes. Qed.
#[local] Hint Resolve closed_removeText : kp.

Lemma closed_textTick s : P s → P (textTick env s).
Proof. unfold textTick. closes. Qed.
#[local] Hint Resolve closed_textTick : kp.

Lemma closed_showDialog d a s : P s → P (showDialog env d a s).
Proof. rewrite showDialog_eq. closes. Qed.
#[local] Hint Resolve closed_showDialog : kp.

Lemma closed_hideDialog t s : P s → P (hideDialog t s).
Proof. unfold hideDialog, getElementById. closes. Qed.
#[local] Hint Resolve closed_hideDialog : kp.

Lemma closed_dialogHidden d s : P s → P (dialogHidden env d s).
Proof. rewrite dialogHidden_eq. closes. Qed.
#[local] Hint Resolve closed_dialogHidden : kp.

Lemma closed_tweenPlain tw s : tw_showGameMenu tw = false → P s → P (tweenComplete tw s).
Proof. intros H. unfold tweenComplete. rewrite H. closes. Qed.

Lemma closed_tweenMenu tw s : P s → P (tweenComplete tw s).
Proof. unfold tweenComplete. closes. Qed.

Lemma closed_cb_musicStarted s : P s → P (run_callback env cb_musicStarted s).
Proof. unfold run_callback, getElementById. closes. Qed.

Lemma closed_cb_autoplayPrevented s : P s → P (run_callback env cb_autoplayPrevented s).
Proof. unfold run_callback, getElementById. closes. Qed.

Lemma closed_cb_voiceTick s : P s → P (run_callback env cb_voiceTick s).
Proof. unfold run_callback, getElementById. closes. Qed.

Lemma closed_cb_voicePlaying v i s : P s → P (run_callback env (cb_voicePlaying v i) s).
Proof. unfold run_callback, getElementById. closes. Qed.

Lemma closed_cb_voiceError i s : P s → P (run_callback env (cb_voiceError i) s).
Proof. unfold run_callback, getElementById. closes. Qed.

Lemma closed_cb_voiceStop v i s : P s → P (run_callback env (cb_voiceStop v i) s).
Proof. unfold run_callback, getElementById. closes. Qed.

Lemma closed_cb_loadingHidden s : P s → P (run_callback env cb_loadingHidden s).
Proof. unfold run_callback, getElementById. closes. Qed.

Lemma closed_cb_socialVisible s : P s → P (run_callback env cb_socialVisible s).
Proof. unfold run_callback, getElementById. closes. Qed.

Lemma closed_cb_zoomToPlanet s : P s → P (run_callback env cb_zoomToPlanet s).
Proof. unfold run_callback, getElementById. closes. Qed.

Lemma closed_cb_gameMenuVisible s : P s → P (run_callback env cb_gameMenuVisible s).
Proof. unfold run_callback, getElementById. closes. Qed.

Lemma closed_cb_textTick s : P s → P (run_callback env cb_textTick s).
Proof. unfold run_callback, getElementById. closes. Qed.

Lemma closed_cb_removeText l s : P s → P (run_callback env (cb_removeText l) s).
Proof. unfold run_callback, getElementById. closes. Qed.

Lemma closed_cb_dialogShow x s : P s → P (run_callback env (cb_dialogShow x) s).
Proof. unfold run_callback, getElementById. closes. Qed.

Lemma closed_cb_dialogVisible x s : P s → P (run_callback env (cb_dialogVisible x) s).
Proof. unfold run_callback, getElementById. closes. Qed.

Lemma closed_cb_dialogHidden x s : P s → P (run_callback env (cb_dialogHidden x) s).
Proof. unfold run_callback, getElementById. closes. Qed.

Lemma closed_cb_tweenPlain tw s :
  tw_showGameMenu tw = false → P s → P (run_callback env (cb_tweenComplete tw) s).
Proof. apply closed_tweenPlain. Qed.

Lemma closed_cb_tweenMenu tw s : P s → P (run_callback env (cb_tweenComplete tw) s).
Proof. apply closed_tweenMenu. Qed.

Lemma closed_handle_voiceTest ev s : P s → P (handleEvent env L_voiceTest ev s).
Proof. destruct ev; unfold handleEvent; closes. Qed.

Lemma closed_handle_enter ev s : P s → P (handleEvent env L_enter ev s).
Proof. destruct ev; unfold handleEvent; closes. Qed.

Lemma closed_handle_startAudio ev s : P s → P (handleEvent env L_startAudio ev s).
Proof. destruct ev; unfold handleEvent; closes. Qed.

Lemma closed_handle_escape h ev s : P s → P (handleEvent env (L_escape h) ev s).
Proof. destruct ev; unfold handleEvent; closes. Qed.

Lemma closed_startTextClicked s : P s → P (startTextClicked env s).
Proof. unfold startTextClicked. closes. Qed.

Lemma closed_menuItemClicked k s : P s → P (menuItemClicked env k s).
Proof. unfold menuItemClicked. closes. Qed.

Lemma closed_closeButtonClicked a s : P s → P (closeButtonClicked env a s).
Proof. unfold closeButtonClicked. closes. Qed.

Lemma closed_overlayClicked d b s : P s → P (overlayClicked d b s).
Proof. unfold overlayClicked. closes. Qed.

Lemma closed_socialIconClicked p s : P s → P (socialIconClicked env p s).
Proof. unfold socialIconClicked. closes. Qed.

Lemma closed_onProgress a b s : P s → P (onProgress a b s).
Proof. unfold onProgress, querySelector, getElementById. closes. Qed.

Lemma closed_resize w h s :
  P s → P (onWindowResize (set_innerHeight h (set_innerWidth w s))).
Proof. closes. Qed.

Lemma closed_init s s' : init env s = Ok s' → P s → P s'.
Proof. intros ->%init_Ok. unfold setupEventListeners. closes. Qed.

End Closed.

#[local] Transparent playClickSound addAudioStartListener startAudio playRandomVoice startGame
  spawnText addEscapeListener removeEscapeListener voicePlaying setupDistortedVoices
  setupStartExperience createCamera showGameMenu dialogShow zoomToPlanet gameMenuVisible dialogVisible
  moveEarthTo moveEarthToLeft.

(** Use the lemma above that fits the goal [Inv (m ... s)], read off its
    head. *)
Ltac closed_by env Inv :=
  lazymatch goal with
  | |- _ (onWindowResize (set_innerHeight _ (set_innerWidth _ _))) =>
      first [apply (closed_resize env Inv) | apply (closed_resize Inv)]
  | |- _ (playClickSound _ _) =>
      first [apply (closed_playClickSound env Inv) | apply (closed_playClickSound Inv)]
  | |- _ (addAudioStartListener _) =>
      first [apply (closed_addAudioStartListener env Inv) | apply (closed_addAudioStartListener Inv)]
  | |- _ (startAudio _ _) =>
      first [apply (closed_startAudio env Inv) | apply (closed_startAudio Inv)]
  | |- _ (playRandomVoice _ _) =>
      first [apply (closed_playRandomVoice env Inv) | apply (closed_playRandomVoice Inv)]
  | |- _ (startGame _ _) =>
      first [apply (closed_startGame env Inv) | apply (closed_startGame Inv)]
  | |- _ (spawnText _ _) =>
      first [apply (closed_spawnText env Inv) | apply (closed_spawnText Inv)]
  | |- _ (addEscapeListener _) =>
      first [apply (closed_addEscapeListener env Inv) | apply (closed_addEscapeListener Inv)]
  | |- _ (removeEscapeListener _) =>
      first [apply (closed_removeEscapeListener env Inv) | apply (closed_removeEscapeListener Inv)]
  | |- _ (voicePlaying _ _ _) =>
      first [apply (closed_voicePlaying env Inv) | apply (closed_voicePlaying Inv)]
  | |- _ (setupDistortedVoices _) =>
      first [apply (closed_setupDistortedVoices env Inv) | apply (closed_setupDistortedVoices Inv)]
  | |- _ (setupStartExperience _) =>
      first [apply (closed_setupStartExperience env Inv) | apply (closed_setupStartExperience Inv)]
  | |- _ (createCamera _) =>
      first [apply (closed_createCamera env Inv) | apply (closed_createCamera Inv)]
  | |- _ (showGameMenu _) =>
      first [apply (closed_showGameMenu env Inv) | apply (closed_showGameMenu Inv)]
  | |- _ (dialogShow _ _) =>
      first [apply (closed_dialogShow env Inv) | apply (closed_dialogShow Inv)]
  | |- _ (zoomToPlanet _ _) =>
      first [apply (closed_zoomToPlanet env Inv) | apply (closed_zoomToPlanet Inv)]
  | |- _ (moveEarthTo _ _ _) =>
      first [apply (closed_moveEarthTo env Inv) | apply (closed_moveEarthTo Inv)]
  | |- _ (moveEarthToLeft _ _) =>
      first [apply (closed_moveEarthToLeft env Inv) | apply (closed_moveEarthToLeft Inv)]
  | |- _ (gameMenuVisible _) =>
      first [apply (closed_gameMenuVisible env Inv) | apply (closed_gameMenuVisible Inv)]
  | |- _ (setupBackgroundMusic _ _) =>
      first [apply (closed_setupBackgroundMusic env Inv) | apply (closed_setupBackgroundMusic Inv)]
  | |- _ (setupClickSound _) =>
      first [apply (closed_setupClickSound env Inv) | apply (closed_setupClickSound Inv)]
  | |- _ (setupAudio _ _) =>
      first [apply (closed_setupAudio env Inv) | apply (closed_setupAudio Inv)]
  | |- _ (maybePlayRandomVoice _ _) =>
      first [apply (closed_maybePlayRandomVoice env Inv) | apply (closed_maybePlayRandomVoice Inv)]
  | |- _ (voiceStop _ _ _) =>
      first [apply (closed_voiceStop env Inv) | apply (closed_voiceStop Inv)]
  | |- _ (createControls _) =>
      first [apply (closed_createControls env Inv) | apply (closed_createControls Inv)]
  | |- _ (createStarfield _) =>
      first [apply (closed_createStarfield env Inv) | apply (closed_createStarfield Inv)]
  | |- _ (onWindowResize _) =>
      first [apply (closed_onWindowResize env Inv) | apply (closed_onWindowResize Inv)]
  | |- _ (removeText _ _) =>
      first [apply (closed_removeText env Inv) | apply (closed_removeText Inv)]
  | |- _ (textTick _ _) =>
      first [apply (closed_textTick env Inv) | apply (closed_textTick Inv)]
  | |- _ (showDialog _ _ _ _) =>
      first [apply (closed_showDialog env Inv) | apply (closed_showDialog Inv)]
  | |- _ (hideDialog _ _) =>
      first [apply (closed_hideDialog env Inv) | apply (closed_hideDialog Inv)]
  | |- _ (dialogHidden _ _ _) =>
      first [apply (closed_dialogHidden env Inv) | apply (closed_dialogHidden Inv)]
  | |- _ (run_callback _ cb_musicStarted _) =>
      first [apply (closed_cb_musicStarted env Inv) | apply (closed_cb_musicStarted Inv)]
  | |- _ (run_callback _ cb_autoplayPrevented _) =>
      first [apply (closed_cb_autoplayPrevented env Inv) | apply (closed_cb_autoplayPrevented Inv)]
  | |- _ (run_callback _ cb_voiceTick _) =>
      first [apply (closed_cb_voiceTick env Inv) | apply (closed_cb_voiceTick Inv)]
  | |- _ (run_callback _ (cb_voicePlaying _ _) _) =>
      first [apply (closed_cb_voicePlaying env Inv) | apply (closed_cb_voicePlaying Inv)]
  | |- _ (run_callback _ (cb_voiceError _) _) =>
      first [apply (closed_cb_voiceError env Inv) | apply (closed_cb_voiceError Inv)]
  | |- _ (run_callback _ (cb_voiceStop _ _) _) =>
      first [apply (closed_cb_voiceStop env Inv) | apply (closed_cb_voiceStop Inv)]
  | |- _ (run_callback _ cb_loadingHidden _) =>
      first [apply (closed_cb_loadingHidden env Inv) | apply (closed_cb_loadingHidden Inv)]
  | |- _ (run_callback _ cb_socialVisible _) =>
      first [apply (closed_cb_socialVisible env Inv) | apply (closed_cb_socialVisible Inv)]
  | |- _ (run_callback _ cb_zoomToPlanet _) =>
      first [apply (closed_cb_zoomToPlanet env Inv) | apply (closed_cb_zoomToPlanet Inv)]
  | |- _ (run_callback _ cb_gameMenuVisible _) =>
      first [apply (closed_cb_gameMenuVisible env Inv) | apply (closed_cb_gameMenuVisible Inv)]
  | |- _ (run_callback _ cb_textTick _) =>
      first [apply (closed_cb_textTick env Inv) | apply (closed_cb_textTick Inv)]
  | |- _ (run_callback _ (cb_removeText _) _) =>
      first [apply (closed_cb_removeText env Inv) | apply (closed_cb_removeText Inv)]
  | |- _ (run_callback _ (cb_dialogShow _) _) =>
      first [apply (closed_cb_dialogShow env Inv) | apply (closed_cb_dialogShow Inv)]
  | |- _ (run_callback _ (cb_dialogVisible _) _) =>
      first [apply (closed_cb_dialogVisible env Inv) | apply (closed_cb_dialogVisible Inv)]
  | |- _ (run_callback _ (cb_dialogHidden _) _) =>
      first [apply (closed_cb_dialogHidden env Inv) | apply (closed_cb_dialogHidden Inv)]
  | |- _ (handleEvent _ L_voiceTest _ _) =>
      first [apply (closed_handle_voiceTest env Inv) | apply (closed_handle_voiceTest Inv)]
  | |- _ (handleEvent _ L_enter _ _) =>
      first [apply (closed_handle_enter env Inv) | apply (closed_handle_enter Inv)]
  | |- _ (handleEvent _ L_startAudio _ _) =>
      first [apply (closed_handle_startAudio env Inv) | apply (closed_handle_startAudio Inv)]
  | |- _ (handleEvent _ (L_escape _) _ _) =>
      first [apply (closed_handle_escape env Inv) | apply (closed_handle_escape Inv)]
  | |- _ (startTextClicked _ _) =>
      first [apply (closed_startTextClicked env Inv) | apply (closed_startTextClicked Inv)]
  | |- _ (menuItemClicked _ _ _) =>
      first [apply (closed_menuItemClicked env Inv) | apply (closed_menuItemClicked Inv)]
  | |- _ (closeButtonClicked _ _ _) =>
      first [apply (closed_closeButtonClicked env Inv) | apply (closed_closeButtonClicked Inv)]
  | |- _ (overlayClicked _ _ _) =>
      first [apply (closed_overlayClicked env Inv) | apply (closed_overlayClicked Inv)]
  | |- _ (socialIconClicked _ _ _) =>
      first [apply (closed_socialIconClicked env Inv) | apply (closed_socialIconClicked Inv)]
  | |- _ (onProgress _ _ _) =>
      first [apply (closed_onProgress env Inv) | apply (closed_onProgress Inv)]
  end.

Ltac hyp_exact := match goal with H : ?X |- ?Y => constr_eq X Y; exact H end.

(** ... and discharge what it asks for: with a hypothesis, with [special]
    for a method the property needs a lemma of its own for, with the lemmas
    above again, or with [prim], which takes one primitive write off the
    goal. *)
Ltac discharge env Inv prim special :=
  intros;
  first [ hyp_exact
        | solve [special]
        | closed_by env Inv; discharge env Inv prim special
        | prim; discharge env Inv prim special ].

Ltac closed env Inv prim special :=
  intros; closed_by env Inv; discharge env Inv prim special.

(** A goal [Inv (f (g (... s)))] from the inside out: [tac] proves
    [Inv (f x)] from [Inv x], for [x] a variable. *)
Ltac staged tac :=
  lazymatch goal with
  | H : ?P ?x |- ?P ?x => exact H
  | |- ?P (?f ?x) =>
      let H := fresh in
      assert (H : P x); [staged tac | revert H; generalize x; intros ? ?; tac]
  end.

(** ** Invariants of the event loop *)

Lemma take_due_sub d l cb rest t : take_due d l = Some (cb, rest) → t ∈ rest → t ∈ l.
Proof.
  revert cb rest. induction l as [| [d' cb'] l IH]; intros cb rest H Ht; simpl in H.
  - discriminate.
  - destruct (Z.eqb_spec d' d) as [-> | Hne].
    + inversion H; subst. by right.
    + destruct (take_due d l) as [[cb'' r'] |]; [| discriminate].
      inversion H; subst. apply elem_of_cons in Ht as [-> | Ht]; [left | right; eauto].
Qed.

Lemma take_due_count (P : Z * Callback → bool) d l cb rest :
  take_due d l = Some (cb, rest) →
  length (List.filter P l)
  = (length (List.filter P rest) + if P (d, cb) then 1 else 0)%nat.
Proof.
  intros H. destruct (take_due_filter P _ _ _ _ H) as [[-> ->] | [-> ->]]; lia.
Qed.


Lemma pending_schedule P cb d s :
  pending P (schedule cb d s) = (pending P s + if P ((now s + d)%Z, cb) then 1 else 0)%nat.
Proof.
  unfold pending, schedule. simpl. rewrite List.filter_app, length_app. simpl.
  by destruct (P _).
Qed.

Section Loop.
Context (env : Env) (Inv : State → Prop).

Lemma runNext_inv :
  (∀ s d cb rest, Inv s → min_due (timers s) = Some d →
     take_due d (timers s) = Some (cb, rest) →
     Inv (run_callback env cb (set_now (Z.max (now s) d) (set_timers rest s)))) →
  ∀ s, Inv s → Inv (runNext env s).
Proof.
  intros H s Hs. unfold runNext.
  destruct (min_due (timers s)) as [d |] eqn:Hmin; [| exact Hs].
  destruct (take_due d (timers s)) as [[cb rest] |] eqn:Htake; [| exact Hs].
  by eapply H.
Qed.

Lemma step_inv :
  (∀ ms s, Inv s → Inv (set_now (now s + Z.max 0 ms) s)) →
  (∀ s, Inv s → Inv (runNext env s)) →
  (∀ l ev s, Inv s → Inv (handleEvent env l ev s)) →
  (∀ s, Inv s → Inv (startTextClicked env s)) →
  (∀ k s, Inv s → Inv (menuItemClicked env k s)) →
  (∀ a s, Inv s → Inv (closeButtonClicked env a s)) →
  (∀ d b s, Inv s → Inv (overlayClicked d b s)) →
  (∀ p s, Inv s → Inv (socialIconClicked env p s)) →
  (∀ w h s, Inv s → Inv (onWindowResize (set_innerHeight h (set_innerWidth w s)))) →
  (∀ a b s, Inv s → Inv (onProgress a b s)) →
  (∀ s, Inv s → Inv (schedule cb_loadingHidden 500 s)) →
  ∀ i s, Inv s → Inv (step env i s).
Proof.
  intros Hwait Hnext Hev Hstart Hmenu Hclose Hover Hicon Hresize Hprog Hload i s Hs.
  destruct i; simpl; auto; apply (dispatch_inv env Inv); auto.
  - case_match; auto.
  - apply iter_inv; auto.
  - apply iter_inv; auto.
  - repeat case_match; auto. apply iter_inv; auto.
Qed.

(** The same for the inputs other than the reports of the loading manager. *)
Lemma step_inv_loaded :
  (∀ ms s, Inv s → Inv (set_now (now s + Z.max 0 ms) s)) →
  (∀ s, Inv s → Inv (runNext env s)) →
  (∀ l ev s, Inv s → Inv (handleEvent env l ev s)) →
  (∀ s, Inv s → Inv (startTextClicked env s)) →
  (∀ k s, Inv s → Inv (menuItemClicked env k s)) →
  (∀ a s, Inv s → Inv (closeButtonClicked env a s)) →
  (∀ d b s, Inv s → Inv (overlayClicked d b s)) →
  (∀ p s, Inv s → Inv (socialIconClicked env p s)) →
  (∀ w h s, Inv s → Inv (onWindowResize (set_innerHeight h (set_innerWidth w s)))) →
  (∀ s, Inv s → Inv (schedule cb_loadingHidden 500 s)) →
  ∀ i s, is_progress i = false → Inv s → Inv (step env i s).
Proof.
  intros Hwait Hnext Hev Hstart Hmenu Hclose Hover Hicon Hresize Hload i s Hi Hs.
  destruct i; try discriminate; simpl; auto; apply (dispatch_inv env Inv); auto.
  - case_match; auto.
  - apply iter_inv; auto.
  - apply iter_inv; auto.
  - repeat case_match; auto. apply iter_inv; auto.
Qed.

Lemma run_inv :
  (∀ i s, Inv s → Inv (step env i s)) → ∀ inputs s, Inv s → Inv (run env inputs s).
Proof.
  intros H inputs. induction inputs as [| i inputs IH]; intros s Hs; simpl; auto.
Qed.

Lemma run_inv_where (ok : Input → bool) :
  (∀ i s, ok i = true → Inv s → Inv (step env i s)) →
  ∀ inputs s, Forall (λ i, ok i = true) inputs → Inv s → Inv (run env inputs s).
Proof.
  intros H inputs s Hall. revert s.
  induction Hall as [| i inputs Hi _ IH]; intros s Hs; simpl; auto.
Qed.
End Loop.

(** ** The intro after the start *)

Lemma classList_add_keeps c x e : x ∈ classList e → x ∈ classList (classList_add c e).
Proof.
  unfold classList_add. simpl. case_bool_decide; [done |]. intros. apply elem_of_app. by left.
Qed.

Lemma classList_remove_keeps c x e :
  x ≠ c → x ∈ classList e → x ∈ classList (classList_remove c e).
Proof. intros Hne Hx. unfold classList_remove. simpl. by apply list_elem_of_filter. Qed.

Section Intro.
Context (env : Env) (b : bool).

(** A write that leaves the start flag and the timers alone, and on the
    three intro elements neither changes the display nor drops [hidden]. *)
Lemma introInv_update id f s :
  (∀ e, style_display (f e) = style_display e) ∨ id ≠ "socialMedia" →
  (∀ e, "hidden" ∈ classList e → "hidden" ∈ classList (f e)) ∨
    (id ≠ "startText" ∧ id ≠ "titleContainer") →
  introInv b s → introInv b (update id f s).
Proof.
  intros Hd Hc (Ht & Hb & Hi). split; [exact Ht |]. split; [exact Hb |].
  intros Hs. destruct (Hi Hs) as (H1 & H2 & H3).
  assert (G : ∀ i e, elements (update id f s) !! i = Some e →
                (i ≠ id ∧ elements s !! i = Some e) ∨
                (i = id ∧ ∃ e0, elements s !! i = Some e0 ∧ e = f e0)).
  { intros i e. unfold update. simpl. rewrite lookup_alter. case_decide; subst.
    - destruct (elements s !! i) as [e0 |]; simpl; [| discriminate].
      intros [= <-]. right. eauto.
    - intros. left. auto. }
  repeat split; intros e He; destruct (G _ _ He) as [[Hne He0] | [Heq (e0 & He0 & ->)]].
  - exact (H1 _ He0).
  - destruct Hd as [Hd | Hd]; [| congruence]. rewrite Hd. exact (H1 _ He0).
  - exact (H2 _ He0).
  - destruct Hc as [Hc | [Hc _]]; [| congruence]. apply Hc. exact (H2 _ He0).
  - exact (H3 _ He0).
  - destruct Hc as [Hc | [_ Hc]]; [| congruence]. apply Hc. exact (H3 _ He0).
Qed.

Lemma introInv_schedule cb d s :
  (∀ x, cb = cb_dialogShow x → x ∈ dialogs) → introInv b s → introInv b (schedule cb d s).
Proof.
  intros Hcb (Ht & Hb & Hi). split; [| split; [exact Hb | exact Hi]].
  intros t x. unfold schedule. simpl. intros [Hin | Hin%list_elem_of_singleton]%elem_of_app.
  - by eapply Ht.
  - inversion Hin. by apply Hcb.
Qed.

Lemma introInv_same s s' :
  timers s' = timers s → elements s' = elements s → hasStarted s' = hasStarted s →
  introInv b s → introInv b s'.
Proof.
  unfold introInv, introGone, dialogShowsOk, displayNone, hiddenClass.
  by intros -> -> ->.
Qed.

Lemma introInv_take s d cb rest :
  take_due d (timers s) = Some (cb, rest) → introInv b s →
  introInv b (set_now (Z.max (now s) d) (set_timers rest s)).
Proof.
  intros Htake (Ht & Hb & Hi). split; [| split; [exact Hb | exact Hi]].
  intros t x Hin. eapply Ht, take_due_sub; [exact Htake | exact Hin].
Qed.

Lemma introInv_startGame s : introInv b s → introInv b (startGame env s).
Proof.
  intros (Ht & _ & _). rewrite startGame_eq.
  assert (Hd : dialogShowsOk (playClickSound env s)).
  { unfold dialogShowsOk. by destruct (playClickSound_timers env s) as [-> _]. }
  revert Hd. generalize (playClickSound env s). clear s Ht. intros s Ht.
  split; [| split; [reflexivity |]].
  - intros t x. unfold setTimeout, schedule. simpl.
    intros [Hin | Hin%list_elem_of_singleton]%elem_of_app; [by eapply Ht | discriminate].
  - intros _. unfold introGone, displayNone, hiddenClass, setTimeout, schedule, update.
    simpl. repeat split; intros e.
    + rewrite lookup_alter_eq. destruct (_ !! _); [| discriminate]. by intros [= <-].
    + rewrite lookup_alter_ne, lookup_alter_ne, lookup_alter_eq by discriminate.
      destruct (_ !! _); [| discriminate]. intros [= <-]. apply classList_add_elem.
    + rewrite lookup_alter_ne, lookup_alter_eq by discriminate.
      destruct (_ !! _); [| discriminate]. intros [= <-]. apply classList_add_elem.
Qed.

End Intro.

(** Take one primitive write off a goal [introInv b (w s)]. *)
Ltac intro_update :=
  apply introInv_update;
  [ first [ left; reflexivity | right; discriminate ]
  | first [ left; intros ?; first [ apply classList_add_keeps
                                  | apply classList_remove_keeps; discriminate
                                  | exact (λ H, H) ]
          | right; split; discriminate ]
  | ].

Ltac intro_prim :=
  idtac;
  lazymatch goal with
  | |- introInv _ (update _ _ _) => intro_update
  | |- introInv _ (dialogVisible _ _) => unfold dialogVisible; intro_update
  | |- introInv _ (schedule _ _ _) => apply introInv_schedule; [intros ? [=] |]
  | |- introInv ?b (gsap_to _ _ _ _ ?s) =>
      unfold gsap_to; apply introInv_schedule; [intros ? [=] |];
      apply (introInv_same b s); [reflexivity | reflexivity | reflexivity |]
  | |- introInv ?b (?w ?s) =>
      apply (introInv_same b s); [reflexivity | reflexivity | reflexivity |]
  end.

Section IntroLoop.
Context (env : Env) (b : bool).

Lemma menuOption_dialogs key d a : menuOption key = Some (d, a) → d ∈ dialogs.
Proof.
  cbv beta iota delta [menuOption menuOptions List.find fst].
  repeat (destruct (String.eqb _ key); [intros [= <- <-]; set_solver |]).
  discriminate.
Qed.

Lemma introInv_menuItemClicked k s : introInv b s → introInv b (menuItemClicked env k s).
Proof.
  intros H. unfold menuItemClicked. destruct (menuOption k) as [[d a] |] eqn:Hk; [| exact H].
  apply menuOption_dialogs in Hk. rewrite showDialog_eq.
  assert (H1 : introInv b (update "gameMenu" (set_display "none") (playClickSound env s)))
    by discharge env (introInv b) intro_prim idtac.
  revert H1. generalize (update "gameMenu" (set_display "none") (playClickSound env s)).
  intros s1 H1.
  assert (H2 : introInv b (moveEarthTo env a (set_currentDialog (Some d) s1)))
    by discharge env (introInv b) intro_prim idtac.
  revert H2. generalize (moveEarthTo env a (set_currentDialog (Some d) s1)). intros s2 H2.
  assert (H3 : introInv b (setTimeout (cb_dialogShow d) 500 s2)).
  { apply introInv_schedule; [| exact H2]. by intros x [= <-]. }
  revert H3. generalize (setTimeout (cb_dialogShow d) 500 s2). intros s3 H3.
  discharge env (introInv b) intro_prim idtac.
Qed.

Lemma introInv_dialogShow d s : d ∈ dialogs → introInv b s → introInv b (dialogShow d s).
Proof.
  intros Hd H. unfold dialogShow, getElementById. case_match; [| exact H].
  apply introInv_schedule; [intros ? [=] |].
  apply introInv_update; [by left | right | exact H].
  unfold dialogs in Hd. split; intros ->;
    repeat (apply elem_of_cons in Hd as [Hd | Hd]; [discriminate |]); inversion Hd.
Qed.

Ltac intro_special :=
  idtac;
  lazymatch goal with
  | |- _ (startGame _ _) => apply introInv_startGame; hyp_exact
  end.

Lemma introInv_step i s : introInv b s → introInv b (step env i s).
Proof.
  apply step_inv; try (discharge env (introInv b) intro_prim intro_special).
  - apply runNext_inv. intros s1 d cb rest H _ Htake.
    pose proof (introInv_take b _ _ _ _ Htake H) as H1.
    pose proof (take_due_elem _ _ _ _ Htake) as Hin.
    revert H1. generalize (set_now (Z.max (now s1) d) (set_timers rest s1)). intros s2 H2.
    destruct cb; try (closed env (introInv b) intro_prim intro_special).
    + apply (closed_cb_tweenMenu env (introInv b));
        discharge env (introInv b) intro_prim intro_special.
    + apply introInv_dialogShow; [| exact H2]. destruct H as (Ht & _). by eapply Ht.
  - intros l ev s1 H. destruct l; closed env (introInv b) intro_prim intro_special.
  - apply introInv_menuItemClicked.
Qed.

Lemma introInv_run inputs s : introInv b s → introInv b (run env inputs s).
Proof. apply run_inv, introInv_step. Qed.

End IntroLoop.

Lemma introInv_init env page width height clock s0 :
  init env (initial page width height clock) = Ok s0 → introInv false s0.
Proof.
  intros Hinit.
  eapply (closed_init env (introInv false));
    try (discharge env (introInv false) intro_prim idtac); [exact Hinit |].
  split; [| split; discriminate]. intros t d Hin. inversion Hin.
Qed.

Lemma panelShown_hiddenClass id s : hiddenClass id s → panelShown id s = false.
Proof.
  unfold hiddenClass, panelShown, shown. destruct (elements s !! id) as [e |]; [| done].
  intros H. rewrite (bool_decide_eq_true_2 _ (H e eq_refl)). simpl.
  by rewrite andb_false_r.
Qed.

Lemma panelShown_displayNone id s : displayNone id s → panelShown id s = false.
Proof.
  unfold displayNone, panelShown, shown. destruct (elements s !! id) as [e |]; [| done].
  intros H. rewrite (H e eq_refl). simpl. apply andb_false_r.
Qed.

(** X1. Once the experience has started it stays started, and the intro
    never comes back, whatever happens next: the start text and the title
    keep the class [hidden] and the social icons keep [display: none].
    Nothing in the script takes them off again (the [visible] class that
    [showSocialMedia]'s timer may still add does not undo the display). *)
Theorem intro_never_returns (env : Env) (page : gmap string Element)
    (width height clock : Z) (s0 : State) (inputs more : list Input) :
  init env (initial page width height clock) = Ok s0 →
  let s := run env inputs s0 in
  hasStarted s = true →
  let s' := run env more s in
  hasStarted s' = true ∧
  panelShown "startText" s' = false ∧ panelShown "titleContainer" s' = false ∧
  panelShown "socialMedia" s' = false.
Proof.
  intros Hinit s Hs s'.
  assert (H1 : introInv false s) by (apply introInv_run; eapply introInv_init, Hinit).
  assert (H2 : introInv true s').
  { apply introInv_run. destruct H1 as (Ht & _ & Hi).
    split; [exact Ht | split; [intros _; exact Hs | exact Hi]]. }
  destruct H2 as (_ & Hb & Hi). specialize (Hb eq_refl). destruct (Hi Hb) as (Hd & Hx & Hy).
  split; [exact Hb |].
  split; [by apply panelShown_hiddenClass |].
  split; [by apply panelShown_hiddenClass | by apply panelShown_displayNone].
Qed.

Lemma intro_never_returns_witness :
  hasStarted (run promptEnv [ClickStartText] (constructed promptEnv)) = true ∧
  panelShown "socialMedia"
    (run promptEnv [RunNext; RunNext; RunNext]
       (run promptEnv [ClickStartText] (constructed promptEnv))) = false.
Proof.
  split; [vm_compute; reflexivity |].
  apply (intro_never_returns promptEnv demoPage 1600 900 demoClock
           (constructed promptEnv) [ClickStartText] [RunNext; RunNext; RunNext]).
  - apply constructed_init.
  - vm_compute. reflexivity.
Defined.

(** ** From the start to the menu *)

Lemma progressInv_same J s s' : progress s' = progress s → progressInv J s → progressInv J s'.
Proof. unfold progressInv. by intros ->. Qed.

(** Take one primitive write that does not touch the progress off a goal
    [progressInv J (w s)]. *)
Ltac progress_prim :=
  idtac;
  lazymatch goal with
  | |- progressInv ?J (?w ?s) =>
      apply (progressInv_same J s);
      [ unfold progress, dialogVisible, gsap_to; rewrite ?pending_schedule; simpl;
        rewrite ?Nat.add_0_r; reflexivity |]
  end.

(** Compute the progress after a few schedules. *)
Ltac progress_eq :=
  unfold progress, pending, gsap_to, setTimeout, setInterval, schedule; simpl;
  rewrite ?List.filter_app, ?length_app; simpl; f_equal; lia.

Ltac oneWay_arith :=
  repeat match goal with H : _ = _ |- _ => rewrite H in * end;
  unfold oneWay, progress in *; simpl in *;
  repeat case_match; lia.

Section Menu.
Context (env : Env).

(** A method that does not touch the progress. *)
Ltac progress_keeps :=
  lazymatch goal with
  | |- progress (?w ?s) = progress ?s =>
      let H := fresh in
      let H0 := fresh in
      assert (H : progressInv (eq (progress s)) (w s));
      [ assert (H0 : progressInv (eq (progress s)) s) by reflexivity;
        discharge env (progressInv (eq (progress s))) progress_prim idtac
      | symmetry; exact H ]
  end.

Lemma progress_playClickSound s : progress (playClickSound env s) = progress s.
Proof. progress_keeps. Qed.

Lemma progress_textTick s : progress (textTick env s) = progress s.
Proof. progress_keeps. Qed.

Lemma progress_zoomToPlanet s :
  progress (zoomToPlanet env s)
  = {| p_started := p_started (progress s); p_zoom := p_zoom (progress s);
       p_tween := S (p_tween (progress s)); p_reveal := p_reveal (progress s);
       p_setups := p_setups (progress s); p_spawners := p_spawners (progress s) |}.
Proof.
  unfold zoomToPlanet. progress_eq.
Qed.

Lemma progress_showGameMenu s :
  progress (showGameMenu s)
  = {| p_started := p_started (progress s); p_zoom := p_zoom (progress s);
       p_tween := p_tween (progress s);
       p_reveal := (p_reveal (progress s)
                    + match elements s !! "gameMenu" with Some _ => 1 | None => 0 end)%nat;
       p_setups := p_setups (progress s); p_spawners := p_spawners (progress s) |}.
Proof.
  unfold showGameMenu, getElementById.
  destruct (elements s !! "gameMenu"); progress_eq.
Qed.

Lemma progress_gameMenuVisible s :
  progress (gameMenuVisible s)
  = {| p_started := p_started (progress s); p_zoom := p_zoom (progress s);
       p_tween := p_tween (progress s); p_reveal := p_reveal (progress s);
       p_setups := S (p_setups (progress s));
       p_spawners := (p_spawners (progress s)
                      + match elements s !! "randomTextContainer" with
                        | Some _ => 1 | None => 0 end)%nat |}.
Proof.
  unfold gameMenuVisible, startRandomTextSpawning, setupMenuInteractions, getElementById,
    setInterval, progress.
  cbv zeta. change (elements (update ?i ?f s) !! ?j) with (alter f i (elements s) !! j).
  rewrite lookup_alter_ne by discriminate.
  destruct (elements s !! "randomTextContainer"); progress_eq.
Qed.

Lemma progress_startGame s :
  progress (startGame env s)
  = {| p_started := true; p_zoom := S (p_zoom (progress s));
       p_tween := p_tween (progress s); p_reveal := p_reveal (progress s);
       p_setups := p_setups (progress s); p_spawners := p_spawners (progress s) |}.
Proof.
  rewrite startGame_eq, <- (progress_playClickSound s).
  generalize (playClickSound env s). intros s1. progress_eq.
Qed.

Lemma oneWay_startGame s :
  hasStarted s = false → progressInv oneWay s → progressInv oneWay (startGame env s).
Proof.
  unfold progressInv. rewrite progress_startGame. unfold oneWay, progress. simpl.
  intros ->. lia.
Qed.

Lemma oneWay_handle_enter ev s :
  progressInv oneWay s → progressInv oneWay (handleEvent env L_enter ev s).
Proof.
  intros H. destruct ev; simpl; try exact H.
  destruct (String.eqb code "Enter" && negb (hasStarted s)) eqn:E; [| exact H].
  apply andb_true_iff in E as [_ E%negb_true_iff]. by apply oneWay_startGame.
Qed.

Lemma oneWay_startTextClicked s :
  progressInv oneWay s → progressInv oneWay (startTextClicked env s).
Proof.
  intros H. unfold startTextClicked. destruct (hasStarted s) eqn:E; simpl; [exact H |].
  by apply oneWay_startGame.
Qed.

Ltac oneWay_special :=
  idtac;
  lazymatch goal with
  | |- _ (handleEvent _ L_enter _ _) => apply oneWay_handle_enter; hyp_exact
  | |- _ (startTextClicked _ _) => apply oneWay_startTextClicked; hyp_exact
  end.

(** What taking a callback off the queue does to the progress. *)
Lemma progress_take s d cb rest :
  take_due d (timers s) = Some (cb, rest) →
  let s1 := set_now (Z.max (now s) d) (set_timers rest s) in
  p_started (progress s) = p_started (progress s1) ∧
  p_setups (progress s) = p_setups (progress s1) ∧
  p_zoom (progress s) = (p_zoom (progress s1) + if is_zoom (d, cb) then 1 else 0)%nat ∧
  p_tween (progress s)
  = (p_tween (progress s1) + if is_menuTween (d, cb) then 1 else 0)%nat ∧
  p_reveal (progress s)
  = (p_reveal (progress s1) + if is_menuVisible (d, cb) then 1 else 0)%nat ∧
  p_spawners (progress s)
  = (p_spawners (progress s1) + if is_textTick (d, cb) then 1 else 0)%nat.
Proof.
  intros H. unfold progress, pending. simpl.
  rewrite !(take_due_count _ _ _ _ _ H). repeat split.
Qed.

Lemma oneWay_run_callback s d cb rest :
  take_due d (timers s) = Some (cb, rest) → progressInv oneWay s →
  progressInv oneWay (run_callback env cb (set_now (Z.max (now s) d) (set_timers rest s))).
Proof.
  intros Htake H. destruct (progress_take _ _ _ _ Htake) as (H1 & H2 & H3 & H4 & H5 & H6).
  revert H1 H2 H3 H4 H5 H6.
  generalize (set_now (Z.max (now s) d) (set_timers rest s)). intros s1 H1 H2 H3 H4 H5 H6.
  unfold progressInv, oneWay in H.
  destruct cb; unfold is_zoom, is_menuTween, is_menuVisible, is_textTick in *;
    simpl snd in *; rewrite ?Nat.add_0_r in *;
    try (assert (H0 : progressInv oneWay s1)
           by (unfold progressInv, oneWay; rewrite <- H1, <- H2, <- H3, <- H4, <- H5, <- H6;
               exact H);
         closed env (progressInv oneWay) progress_prim oneWay_special).
  - (* zoomToPlanet *)
    simpl run_callback. unfold progressInv. rewrite progress_zoomToPlanet. oneWay_arith.
  - (* the end of a tween *)
    simpl run_callback. unfold tweenComplete.
    assert (Hk : ∀ v, progress (match tw_object tw with
                                | CameraPosition => set_camera_position v s1
                                | ControlsTarget => set_controls_target v s1
                                end) = progress s1) by (intros; by destruct (tw_object tw)).
    destruct (tw_showGameMenu tw) eqn:Etw.
    + unfold progressInv. rewrite progress_showGameMenu, Hk. oneWay_arith.
    + unfold progressInv. rewrite Hk. oneWay_arith.
  - (* the menu becomes visible *)
    simpl run_callback. unfold progressInv. rewrite progress_gameMenuVisible. oneWay_arith.
  - (* a tick of the text spawner *)
    simpl run_callback. unfold progressInv.
    replace (progress (setInterval cb_textTick 800 (textTick env s1)))
      with {| p_started := p_started (progress s1); p_zoom := p_zoom (progress s1);
              p_tween := p_tween (progress s1); p_reveal := p_reveal (progress s1);
              p_setups := p_setups (progress s1);
              p_spawners := S (p_spawners (progress s1)) |}; [oneWay_arith |].
    rewrite <- (progress_textTick s1). generalize (textTick env s1). intros s2. progress_eq.
Qed.

Lemma oneWay_step i s : progressInv oneWay s → progressInv oneWay (step env i s).
Proof.
  apply step_inv; try (discharge env (progressInv oneWay) progress_prim oneWay_special).
  - apply runNext_inv. intros s1 d cb rest H _ Htake. by apply oneWay_run_callback.
  - intros l ev s1 H. destruct l;
      first [ by apply oneWay_handle_enter
            | closed env (progressInv oneWay) progress_prim oneWay_special ].
Qed.

Lemma oneWay_run inputs s : progressInv oneWay s → progressInv oneWay (run env inputs s).
Proof. apply run_inv, oneWay_step. Qed.

Lemma oneWay_init page width height clock s0 :
  init env (initial page width height clock) = Ok s0 → progressInv oneWay s0.
Proof.
  intros Hinit.
  eapply (closed_init env (progressInv oneWay));
    try (discharge env (progressInv oneWay) progress_prim idtac); [exact Hinit |].
  unfold progressInv, oneWay, progress, pending. simpl. lia.
Qed.

End Menu.

(** X2. The menu's listeners are registered at most once, and only after
    the start; so a click on a menu item runs its handler at most once, and
    not at all while the menu has not appeared. At most one text spawner
    runs, and only where the menu was set up. *)
Theorem menu_is_set_up_once (env : Env) (page : gmap string Element)
    (width height clock : Z) (s0 : State) (inputs : list Input) :
  init env (initial page width height clock) = Ok s0 →
  let s := run env inputs s0 in
  (menuSetups s ≤ 1)%nat ∧
  (pending is_textTick s ≤ menuSetups s)%nat ∧
  (hasStarted s = false → menuSetups s = 0%nat) ∧
  ∀ key, step env (ClickMenuItem key) s
         = dispatch env ev_click
             (if Nat.eqb (menuSetups s) 0 then s else menuItemClicked env key s).
Proof.
  intros Hinit s.
  assert (H : progressInv oneWay s) by (apply oneWay_run; eapply oneWay_init, Hinit).
  unfold progressInv, oneWay, progress in H. simpl in H. destruct H as [H1 H2].
  assert (Hle : (menuSetups s ≤ 1)%nat) by (destruct (hasStarted s); lia).
  split; [exact Hle |]. split; [exact H2 |].
  split; [intros Hs; rewrite Hs in H1; lia |].
  intros key. simpl. destruct (menuSetups s) as [| [| n]]; [reflexivity | reflexivity | lia].
Qed.

Lemma menu_is_set_up_once_witness :
  let s := run promptEnv toMenu (constructed promptEnv) in
  menuSetups s = 1%nat ∧ (menuSetups s ≤ 1)%nat ∧
  (pending is_textTick s ≤ menuSetups s)%nat ∧
  (hasStarted s = false → menuSetups s = 0%nat) ∧
  ∀ key, step promptEnv (ClickMenuItem key) s
         = dispatch promptEnv ev_click
             (if Nat.eqb (menuSetups s) 0 then s else menuItemClicked promptEnv key s).
Proof.
  split; [vm_compute; reflexivity |].
  apply (menu_is_set_up_once promptEnv demoPage 1600 900 demoClock
           (constructed promptEnv) toMenu).
  apply constructed_init.
Defined.

(** ** Where the tweens lead *)

Lemma tweensAimed_same s s' : tweens s' = tweens s → tweensAimed s → tweensAimed s'.
Proof. unfold tweensAimed. by intros ->. Qed.

Lemma tweensAimed_gsap_to obj d to b s :
  aimed {| tw_object := obj; tw_start := now s; tw_duration := d; tw_to := to;
           tw_showGameMenu := b |} →
  tweensAimed s → tweensAimed (gsap_to obj d to b s).
Proof.
  intros Ha H tw Hin. simpl in Hin. apply elem_of_cons in Hin as [-> | Hin]; [exact Ha |].
  by apply H.
Qed.

(** Take one primitive write that starts no tween off a goal
    [tweensAimed (w s)]. *)
Ltac tweens_prim :=
  idtac;
  lazymatch goal with
  | |- tweensAimed (gsap_to _ _ _ _ _) => fail
  | |- tweensAimed (?w ?s) => apply (tweensAimed_same s); [reflexivity |]
  end.

Section Tweens.
Context (env : Env).

Lemma earthTarget_plane a s : vz (earthTarget env a s) = 0%Q.
Proof. unfold earthTarget. by repeat case_match. Qed.

Lemma tweensAimed_moveEarthTo a s : tweensAimed s → tweensAimed (moveEarthTo env a s).
Proof.
  rewrite moveEarthTo_eq. apply tweensAimed_gsap_to.
  split; [apply earthTarget_plane | by right].
Qed.

Lemma tweensAimed_moveEarthToLeft s : tweensAimed s → tweensAimed (moveEarthToLeft env s).
Proof. apply tweensAimed_gsap_to. split; [reflexivity | by right]. Qed.

Lemma tweensAimed_zoomToPlanet s : tweensAimed s → tweensAimed (zoomToPlanet env s).
Proof.
  intros H. unfold zoomToPlanet.
  apply tweensAimed_gsap_to; [split; [reflexivity | by left] |].
  apply tweensAimed_gsap_to; [by split | exact H].
Qed.

End Tweens.

Ltac tweens_special :=
  idtac;
  lazymatch goal with
  | |- _ (moveEarthTo _ _ _) => apply tweensAimed_moveEarthTo; hyp_exact
  | |- _ (moveEarthToLeft _ _) => apply tweensAimed_moveEarthToLeft; hyp_exact
  | |- _ (zoomToPlanet _ _) => apply tweensAimed_zoomToPlanet; hyp_exact
  end.

Section TweensLoop.
Context (env : Env).

Lemma tweensAimed_step i s : tweensAimed s → tweensAimed (step env i s).
Proof.
  apply step_inv; try (discharge env tweensAimed tweens_prim tweens_special).
  - apply runNext_inv. intros s1 d cb rest H _ Htake.
    destruct cb; try (closed env tweensAimed tweens_prim tweens_special).
    apply (closed_cb_tweenMenu env tweensAimed);
      discharge env tweensAimed tweens_prim tweens_special.
  - intros l ev s1 H. destruct l; closed env tweensAimed tweens_prim tweens_special.
Qed.

Lemma tweensAimed_run inputs s : tweensAimed s → tweensAimed (run env inputs s).
Proof. apply run_inv, tweensAimed_step. Qed.

Lemma tweensAimed_init page width height clock s0 :
  init env (initial page width height clock) = Ok s0 → tweensAimed s0.
Proof.
  intros Hinit.
  eapply (closed_init env tweensAimed);
    try (discharge env tweensAimed tweens_prim tweens_special); [exact Hinit |].
  intros tw Hin. inversion Hin.
Qed.

End TweensLoop.

(** X3. The script never asks the camera to leave the z axis, nor the
    controls target to leave the plane z = 0: of all the [gsap.to] calls
    made up to any moment, those on the camera position ask for the end
    point (0, 0, 160) in 3000 ms, and those on the controls target for an
    end point with z = 0 in 3000 or 2500 ms. What [OrbitControls] makes of
    the two on each frame is not part of this. *)
Theorem tweens_aim_along_axis (env : Env) (page : gmap string Element)
    (width height clock : Z) (s0 : State) (inputs : list Input) (tw : Tween) :
  init env (initial page width height clock) = Ok s0 →
  tw ∈ tweens (run env inputs s0) →
  match tw_object tw with
  | CameraPosition => tw_to tw = onAxis 160 ∧ tw_duration tw = 3000
  | ControlsTarget =>
      vz (tw_to tw) = 0%Q ∧ (tw_duration tw = 3000 ∨ tw_duration tw = 2500)
  end.
Proof.
  intros Hinit Hin.
  exact (tweensAimed_run env inputs s0 (tweensAimed_init env _ _ _ _ _ Hinit) tw Hin).
Qed.

Lemma tweens_aim_along_axis_witness :
  let s := run promptEnv (toMenu ++ openAbout) (constructed promptEnv) in
  length (tweens s) = 3%nat ∧
  ∀ tw, tw ∈ tweens s →
    match tw_object tw with
    | CameraPosition => tw_to tw = onAxis 160 ∧ tw_duration tw = 3000
    | ControlsTarget =>
        vz (tw_to tw) = 0%Q ∧ (tw_duration tw = 3000 ∨ tw_duration tw = 2500)
    end.
Proof.
  split; [vm_compute; reflexivity |].
  intros tw Hin.
  apply (tweens_aim_along_axis promptEnv demoPage 1600 900 demoClock (constructed promptEnv)
           (toMenu ++ openAbout) tw); [apply constructed_init | exact Hin].
Defined.

(** ** The view and the window *)

Lemma viewInv_same s s' :
  innerWidth s' = innerWidth s → innerHeight s' = innerHeight s →
  camera_fov s' = camera_fov s → camera_aspect s' = camera_aspect s →
  camera_projection s' = camera_projection s → renderer_size s' = renderer_size s →
  viewInv s → viewInv s'.
Proof. unfold viewInv, viewAspect. by intros -> -> -> -> -> ->. Qed.

Ltac view_prim :=
  idtac;
  lazymatch goal with
  | |- viewInv (?w ?s) =>
      apply (viewInv_same s);
      [reflexivity | reflexivity | reflexivity | reflexivity | reflexivity | reflexivity |]
  end.

Section View.
Context (env : Env).

Lemma viewInv_resize w h s :
  viewInv s → viewInv (onWindowResize (set_innerHeight h (set_innerWidth w s))).
Proof. intros (Hf & _). unfold onWindowResize. repeat split; simpl; exact Hf. Qed.

Lemma viewInv_step i s : viewInv s → viewInv (step env i s).
Proof.
  apply step_inv; try (discharge env viewInv view_prim idtac).
  - apply runNext_inv. intros s1 d cb rest H _ _.
    assert (H1 : viewInv (set_now (Z.max (now s1) d) (set_timers rest s1))) by exact H.
    revert H1. generalize (set_now (Z.max (now s1) d) (set_timers rest s1)). intros s2 H2.
    destruct cb; try (closed env viewInv view_prim idtac).
    apply (closed_cb_tweenMenu env viewInv); discharge env viewInv view_prim idtac.
  - intros l ev s1 H. destruct l; closed env viewInv view_prim idtac.
  - apply viewInv_resize.
Qed.

Lemma viewInv_run inputs s : viewInv s → viewInv (run env inputs s).
Proof. apply run_inv, viewInv_step. Qed.

Lemma viewInv_init s s0 : init env s = Ok s0 → viewInv s0.
Proof.
  intros ->%init_Ok. unfold setupEventListeners.
  generalize (setupAudio env s). clear s. intros s.
  assert (H : viewInv (createControls
               (set_renderer_size (innerWidth (createCamera s), innerHeight (createCamera s))
                  (createCamera s)))) by (repeat split).
  discharge env viewInv view_prim idtac.
Qed.

End View.

(** X4. At every moment after construction, the camera has the aspect ratio
    of the window as it is now, the projection matrix was computed from the
    camera's current field of view (45 degrees) and aspect ratio, and the
    renderer has the window's size: [createCamera], [createRenderer] and
    the resize handler are the only writers, and each writes all of it. *)
Theorem view_always_matches_window (env : Env) (page : gmap string Element)
    (width height clock : Z) (s0 : State) (inputs : list Input) :
  init env (initial page width height clock) = Ok s0 →
  let s := run env inputs s0 in
  camera_fov s = 45%Q ∧
  camera_aspect s = (Number (innerWidth s) / Number (innerHeight s))%Q ∧
  camera_projection s = (camera_fov s, camera_aspect s) ∧
  renderer_size s = (innerWidth s, innerHeight s).
Proof. intros Hinit s. apply viewInv_run. eapply viewInv_init, Hinit. Qed.

Lemma view_always_matches_window_witness :
  let s := run promptEnv [Resize 800 600; ClickStartText; RunNext; Resize 1024 768]
             (constructed promptEnv) in
  renderer_size s = (1024, 768) ∧
  camera_fov s = 45%Q ∧
  camera_aspect s = (Number (innerWidth s) / Number (innerHeight s))%Q ∧
  camera_projection s = (camera_fov s, camera_aspect s) ∧
  renderer_size s = (innerWidth s, innerHeight s).
Proof.
  split; [vm_compute; reflexivity |].
  apply (view_always_matches_window promptEnv demoPage 1600 900 demoClock
           (constructed promptEnv)
           [Resize 800 600; ClickStartText; RunNext; Resize 1024 768]).
  apply constructed_init.
Defined.

(** ** The voices *)

Lemma present_update id i f s : present id (update i f s) = present id s.
Proof.
  unfold present, update. simpl. rewrite lookup_alter. case_decide; subst; [| done].
  by destruct (elements s !! id).
Qed.

Lemma bothVoices_update i f s : bothVoices (update i f s) = bothVoices s.
Proof. unfold bothVoices. by rewrite !present_update. Qed.

Lemma tickInv_same b pool n s s' :
  bothVoices s' = bothVoices s → distortedVoices s' = distortedVoices s →
  pending is_tick s' = pending is_tick s → tickInv b pool n s → tickInv b pool n s'.
Proof. unfold tickInv. by intros -> -> ->. Qed.

(** Take one primitive write that does not touch the scheduler off a goal
    [tickInv b pool n (w s)]. *)
Ltac tick_prim :=
  idtac;
  lazymatch goal with
  | |- tickInv ?b ?pool ?n (update ?i ?f ?s) =>
      apply (tickInv_same b pool n s); [apply bothVoices_update | reflexivity | reflexivity |]
  | |- tickInv ?b ?pool ?n (dialogVisible ?d ?s) =>
      apply (tickInv_same b pool n s); [apply bothVoices_update | reflexivity | reflexivity |]
  | |- tickInv ?b ?pool ?n (?w ?s) =>
      apply (tickInv_same b pool n s);
      [ reflexivity | reflexivity
      | unfold gsap_to; rewrite ?pending_schedule; simpl; rewrite ?Nat.add_0_r; reflexivity |]
  end.

Section Ticks.
Context (env : Env) (b : bool) (pool : list string).

Lemma tickInv_run_callback n s d cb rest :
  take_due d (timers s) = Some (cb, rest) → tickInv b pool n s →
  tickInv b pool n (run_callback env cb (set_now (Z.max (now s) d) (set_timers rest s))).
Proof.
  intros Htake (Hb & Hp & Hn).
  pose proof (take_due_count is_tick _ _ _ _ Htake) as Hc.
  set (s1 := set_now (Z.max (now s) d) (set_timers rest s)).
  assert (H1 : tickInv b pool (pending is_tick s1) s1) by done.
  change (length (List.filter is_tick rest)) with (pending is_tick s1) in Hc.
  fold (pending is_tick s) in Hc. rewrite Hn in Hc. clearbody s1.
  destruct cb;
    match type of Hc with context [is_tick ?p] =>
      let v := eval cbv in (is_tick p) in change (is_tick p) with v in Hc
    end;
    cbv iota in Hc; rewrite ?Nat.add_0_r in Hc;
    try (rewrite Hc; closed env (tickInv b pool (pending is_tick s1)) tick_prim idtac).
  - (* the tick itself *)
    simpl run_callback. unfold setInterval.
    assert (H2 : tickInv b pool (pending is_tick s1) (maybePlayRandomVoice env s1))
      by discharge env (tickInv b pool (pending is_tick s1)) tick_prim idtac.
    destruct H2 as (H2 & H3 & H4). split; [exact H2 | split; [exact H3 |]].
    rewrite pending_schedule, H4. simpl. lia.
  - rewrite Hc. apply (closed_cb_tweenMenu env (tickInv b pool (pending is_tick s1)));
      discharge env (tickInv b pool (pending is_tick s1)) tick_prim idtac.
Qed.

Lemma tickInv_step n i s : tickInv b pool n s → tickInv b pool n (step env i s).
Proof.
  apply step_inv; try (discharge env (tickInv b pool n) tick_prim idtac).
  - apply runNext_inv. intros s1 d cb rest H _ Htake. by apply tickInv_run_callback.
  - intros l ev s1 H. destruct l; closed env (tickInv b pool n) tick_prim idtac.
Qed.

Lemma tickInv_run n inputs s : tickInv b pool n s → tickInv b pool n (run env inputs s).
Proof. apply run_inv, tickInv_step. Qed.

End Ticks.

Lemma tickInv_setupDistortedVoices s :
  let both := bothVoices s in
  tickInv both [] 0 s →
  tickInv both (if both then ["distortedVoice1"; "distortedVoice2"] else [])
    (if both then 1 else 0) (setupDistortedVoices s).
Proof.
  intros both (_ & Hp & Hn). subst both.
  unfold setupDistortedVoices, getElementById, bothVoices, present.
  destruct (elements s !! "distortedVoice1") eqn:E1;
    destruct (elements s !! "distortedVoice2") eqn:E2; simpl;
    try (split; [unfold bothVoices, present; by rewrite E1, E2 | by split]).
  split; [| split; [reflexivity |]].
  - unfold startRandomVoiceSystem, setInterval.
    change (bothVoices (update "distortedVoice2" (set_volume 0.4%Q)
                          (update "distortedVoice1" (set_volume 0.4%Q) s)) = true).
    rewrite !bothVoices_update. unfold bothVoices, present. by rewrite E1, E2.
  - unfold startRandomVoiceSystem, setInterval. rewrite pending_schedule. simpl.
    change (pending is_tick s + 1 = 1)%nat. lia.
Qed.

Lemma tickInv_init env page width height clock s0 :
  init env (initial page width height clock) = Ok s0 →
  let both := bothVoices (initial page width height clock) in
  tickInv both (if both then ["distortedVoice1"; "distortedVoice2"] else [])
    (if both then 1 else 0) s0.
Proof.
  intros ->%init_Ok both. unfold setupEventListeners, setupAudio.
  set (pool := if both then _ else _). set (n := if both then _ else _).
  assert (H0 : tickInv both [] 0 (initial page width height clock)) by done.
  assert (H1 : tickInv both [] 0
                 (setupClickSound (setupBackgroundMusic env
                    (initial page width height clock))))
    by discharge env (tickInv both [] 0%nat) tick_prim idtac.
  revert H1. generalize (setupClickSound (setupBackgroundMusic env
                           (initial page width height clock))).
  clear H0. intros s H1.
  assert (H2 : tickInv both pool n (setupDistortedVoices s)).
  { pose proof (tickInv_setupDistortedVoices s) as H. destruct H1 as (Hb & Hp & Hn).
    rewrite Hb in H. apply H. by repeat split. }
  revert H2. generalize (setupDistortedVoices s). clear s H1. intros s H2.
  assert (H3 : tickInv both pool n
                 (set_renderer_size (innerWidth (createCamera s), innerHeight (createCamera s))
                    (createCamera s)))
    by discharge env (tickInv both pool n) tick_prim idtac.
  discharge env (tickInv both pool n) tick_prim idtac.
Qed.

(** X5. The pool of voices and the scheduler's interval are fixed at
    construction: with both voice elements on the page, the pool holds the
    two of them and exactly one tick of the scheduler is pending at every
    moment (it neither stops nor doubles); with either missing, the pool
    stays empty and no tick is ever pending. *)
Theorem voice_scheduler_runs_once (env : Env) (page : gmap string Element)
    (width height clock : Z) (s0 : State) (inputs : list Input) :
  init env (initial page width height clock) = Ok s0 →
  let s := run env inputs s0 in
  let both := bool_decide (is_Some (page !! "distortedVoice1") ∧
                           is_Some (page !! "distortedVoice2")) in
  distortedVoices s = (if both then ["distortedVoice1"; "distortedVoice2"] else []) ∧
  pending is_tick s = (if both then 1 else 0)%nat.
Proof.
  intros Hinit s both.
  pose proof (tickInv_init env _ _ _ _ _ Hinit) as H. cbv zeta in H.
  assert (Hb : bothVoices (initial page width height clock) = both).
  { unfold bothVoices, present, both. simpl.
    by destruct (page !! "distortedVoice1"), (page !! "distortedVoice2"). }
  rewrite Hb in H. apply (tickInv_run env) with (inputs := inputs) in H.
  by destruct H as (_ & Hp & Hn).
Qed.

Lemma voice_scheduler_runs_once_witness :
  let s := run promptEnv (toMenu ++ repeat RunNext 30) (constructed promptEnv) in
  distortedVoices s = ["distortedVoice1"; "distortedVoice2"] ∧
  pending is_tick s = 1%nat.
Proof.
  apply (voice_scheduler_runs_once promptEnv demoPage 1600 900 demoClock
           (constructed promptEnv) (toMenu ++ repeat RunNext 30)).
  apply constructed_init.
Defined.

(** ** The escape handlers *)

Lemma listenersOk_same s s' :
  documentListeners s' = documentListeners s → nextListener s' = nextListener s →
  escapeHandler s' = escapeHandler s → listenersOk s → listenersOk s'.
Proof. unfold listenersOk. by intros -> -> ->. Qed.

Lemma orphan_same h s s' :
  documentListeners s' = documentListeners s → nextListener s' = nextListener s →
  escapeHandler s' = escapeHandler s → orphan h s → orphan h s'.
Proof. unfold orphan. by intros -> -> ->. Qed.

(** Take one primitive write that does not touch the listeners off the
    goal. *)
Ltac listeners_prim :=
  idtac;
  lazymatch goal with
  | |- listenersOk (?w ?s) => apply (listenersOk_same s); [reflexivity .. |]
  | |- orphan ?h (?w ?s) => apply (orphan_same h s); [reflexivity .. |]
  end.

Lemma listenersOk_addAudioStartListener s : listenersOk s → listenersOk (addAudioStartListener s).
Proof.
  intros [H1 H2]. split; simpl; intros h Hh.
  - apply elem_of_app in Hh as [Hh | Hh]; [by apply H1 |].
    apply list_elem_of_singleton in Hh. discriminate.
  - apply elem_of_app. left. by apply H2.
Qed.

Lemma filter_ne_absent (x : Listener) (l : list Listener) :
  x ∉ l → filter (λ y, y ≠ x) l = l.
Proof.
  induction l as [| y l IH]; intros H; [done |].
  apply not_elem_of_cons in H as [Hne Hl].
  rewrite filter_cons_True by congruence. by rewrite IH.
Qed.

Lemma listenersOk_startAudio env s : listenersOk s → listenersOk (startAudio env s).
Proof.
  intros [H1 H2]. unfold startAudio.
  set (s1 := match backgroundMusic s with Some _ => _ | None => s end).
  assert (E : documentListeners s1 = documentListeners s ∧ nextListener s1 = nextListener s
              ∧ escapeHandler s1 = escapeHandler s)
    by (subst s1; unfold getElementById, play; repeat case_match; done).
  destruct E as (E1 & E2 & E3).
  split; simpl; rewrite ?E1, ?E2, ?E3; intros h Hh.
  - apply list_elem_of_filter in Hh as [_ Hh]. by apply H1.
  - apply list_elem_of_filter. split; [discriminate | by apply H2].
Qed.

Lemma listenersOk_addEscapeListener s : listenersOk s → listenersOk (addEscapeListener s).
Proof.
  intros [H1 H2]. split; simpl; intros h Hh.
  - apply elem_of_app in Hh as [Hh | Hh]; [apply H1 in Hh; lia |].
    apply list_elem_of_singleton in Hh. injection Hh as ->. lia.
  - injection Hh as <-. apply elem_of_app. right. by apply list_elem_of_singleton.
Qed.

Lemma listenersOk_removeEscapeListener s :
  listenersOk s → listenersOk (removeEscapeListener s).
Proof.
  intros H. unfold removeEscapeListener.
  destruct (escapeHandler s) as [h0 |] eqn:E; [| exact H]. destruct H as [H1 H2].
  split; simpl; intros h Hh; [| discriminate].
  apply list_elem_of_filter in Hh as [_ Hh]. by apply H1.
Qed.

Lemma setupStartExperience_listeners s :
  documentListeners (setupStartExperience s) = documentListeners s ++ [L_voiceTest; L_enter]
  ∧ nextListener (setupStartExperience s) = nextListener s
  ∧ escapeHandler (setupStartExperience s) = escapeHandler s.
Proof.
  unfold setupStartExperience, showSocialMedia, getElementById.
  repeat case_match; simpl; by rewrite <- app_assoc.
Qed.

Lemma listenersOk_setupStartExperience s :
  listenersOk s → listenersOk (setupStartExperience s).
Proof.
  intros [H1 H2]. destruct (setupStartExperience_listeners s) as (E1 & E2 & E3).
  split; rewrite ?E1, ?E2, ?E3; intros h Hh.
  - apply elem_of_app in Hh as [Hh | Hh]; [by apply H1 |].
    repeat (apply elem_of_cons in Hh as [Hh | Hh]; [discriminate |]). inversion Hh.
  - apply elem_of_app. left. by apply H2.
Qed.

Ltac listeners_special :=
  idtac;
  lazymatch goal with
  | |- listenersOk (addAudioStartListener _) =>
      apply listenersOk_addAudioStartListener; hyp_exact
  | |- listenersOk (startAudio _ _) => apply listenersOk_startAudio; hyp_exact
  | |- listenersOk (addEscapeListener _) => apply listenersOk_addEscapeListener; hyp_exact
  | |- listenersOk (removeEscapeListener _) =>
      apply listenersOk_removeEscapeListener; hyp_exact
  | |- listenersOk (setupStartExperience _) =>
      apply listenersOk_setupStartExperience; hyp_exact
  end.

Section Listeners.
Context (env : Env).

Lemma listenersOk_step i s : listenersOk s → listenersOk (step env i s).
Proof.
  apply step_inv; try (discharge env listenersOk listeners_prim listeners_special).
  - apply runNext_inv. intros s1 d cb rest H _ Htake.
    destruct cb; try (closed env listenersOk listeners_prim listeners_special).
    apply (closed_cb_tweenMenu env listenersOk);
      discharge env listenersOk listeners_prim listeners_special.
  - intros l ev s1 H. destruct l; closed env listenersOk listeners_prim listeners_special.
Qed.

Lemma listenersOk_run inputs s : listenersOk s → listenersOk (run env inputs s).
Proof. apply run_inv, listenersOk_step. Qed.

Lemma listenersOk_init page width height clock s0 :
  init env (initial page width height clock) = Ok s0 → listenersOk s0.
Proof.
  intros Hinit.
  eapply (closed_init env listenersOk);
    try (discharge env listenersOk listeners_prim listeners_special); [exact Hinit |].
  split; simpl; intros h Hh; [inversion Hh | discriminate].
Qed.

End Listeners.

Lemma orphan_addAudioStartListener h s : orphan h s → orphan h (addAudioStartListener s).
Proof.
  intros (H1 & H2 & H3). repeat split; [| exact H2 | exact H3].
  simpl. apply elem_of_app. by left.
Qed.

Lemma orphan_startAudio env h s : orphan h s → orphan h (startAudio env s).
Proof.
  intros (H1 & H2 & H3). unfold startAudio.
  set (s1 := match backgroundMusic s with Some _ => _ | None => s end).
  assert (E : documentListeners s1 = documentListeners s ∧ nextListener s1 = nextListener s
              ∧ escapeHandler s1 = escapeHandler s)
    by (subst s1; unfold getElementById, play; repeat case_match; done).
  destruct E as (E1 & E2 & E3).
  repeat split; simpl; rewrite ?E1, ?E2, ?E3; [| exact H2 | exact H3].
  apply list_elem_of_filter. split; [discriminate | exact H1].
Qed.

Lemma orphan_addEscapeListener h s : orphan h s → orphan h (addEscapeListener s).
Proof.
  intros (H1 & H2 & H3). repeat split; simpl.
  - apply elem_of_app. by left.
  - intros [= E]. lia.
  - lia.
Qed.

Lemma orphan_removeEscapeListener h s : orphan h s → orphan h (removeEscapeListener s).
Proof.
  intros H. unfold removeEscapeListener.
  destruct (escapeHandler s) as [h0 |] eqn:E; [| exact H]. destruct H as (H1 & H2 & H3).
  repeat split; simpl; [| discriminate | exact H3].
  apply list_elem_of_filter. split; [| exact H1]. intros [= ->]. by apply H2.
Qed.

Lemma orphan_setupStartExperience h s : orphan h s → orphan h (setupStartExperience s).
Proof.
  intros (H1 & H2 & H3). destruct (setupStartExperience_listeners s) as (E1 & E2 & E3).
  repeat split; rewrite ?E1, ?E2, ?E3; [| exact H2 | exact H3].
  apply elem_of_app. by left.
Qed.

Ltac orphan_special :=
  idtac;
  lazymatch goal with
  | |- orphan _ (addAudioStartListener _) => apply orphan_addAudioStartListener; hyp_exact
  | |- orphan _ (startAudio _ _) => apply orphan_startAudio; hyp_exact
  | |- orphan _ (addEscapeListener _) => apply orphan_addEscapeListener; hyp_exact
  | |- orphan _ (removeEscapeListener _) => apply orphan_removeEscapeListener; hyp_exact
  | |- orphan _ (setupStartExperience _) => apply orphan_setupStartExperience; hyp_exact
  end.

Section Orphans.
Context (env : Env) (h : nat).

Lemma orphan_step i s : orphan h s → orphan h (step env i s).
Proof.
  apply step_inv; try (discharge env (orphan h) listeners_prim orphan_special).
  - apply runNext_inv. intros s1 d cb rest H _ Htake.
    destruct cb; try (closed env (orphan h) listeners_prim orphan_special).
    apply (closed_cb_tweenMenu env (orphan h));
      discharge env (orphan h) listeners_prim orphan_special.
  - intros l ev s1 H. destruct l; closed env (orphan h) listeners_prim orphan_special.
Qed.

Lemma orphan_run inputs s : orphan h s → orphan h (run env inputs s).
Proof. apply run_inv, orphan_step. Qed.

End Orphans.

Lemma showDialog_listeners env d a s :
  documentListeners (showDialog env d a s) = documentListeners s ++ [L_escape (nextListener s)]
  ∧ escapeHandler (showDialog env d a s) = Some (nextListener s)
  ∧ nextListener (showDialog env d a s) = S (nextListener s).
Proof.
  unfold showDialog, getElementById, moveEarthTo. by repeat case_match.
Qed.

Lemma hideDialog_listeners t s :
  documentListeners (hideDialog t s) = documentListeners (removeEscapeListener s)
  ∧ escapeHandler (hideDialog t s) = None.
Proof.
  unfold hideDialog, getElementById.
  destruct (elements s !! (t +:+ "Dialog")); unfold removeEscapeListener; simpl;
    destruct (escapeHandler s) eqn:E; simpl; by rewrite ?E.
Qed.

Lemma removeEscapeListener_listeners s h :
  escapeHandler s = Some h →
  documentListeners (removeEscapeListener s)
  = filter (λ l, l ≠ L_escape h) (documentListeners s).
Proof. unfold removeEscapeListener. by intros ->. Qed.

(** X6. Opening a dialog and closing it again leaves the listeners on
    document as they were, and no escape handler in [this.escapeHandler]:
    [hideDialog] removes the handler [showDialog] added, whatever dialog
    type it is called with (the close button of another dialog, or one
    with no [data-dialog] attribute, removes it as well). *)
Theorem escape_listener_round_trip (env : Env) (page : gmap string Element)
    (width height clock : Z) (s0 : State) (inputs : list Input) :
  init env (initial page width height clock) = Ok s0 →
  let s := run env inputs s0 in
  ∀ dialogId animationType dialogType,
    let s' := hideDialog dialogType (showDialog env dialogId animationType s) in
    documentListeners s' = documentListeners s ∧ escapeHandler s' = None.
Proof.
  intros Hinit s d a t s'.
  assert (Hok : listenersOk s) by (eapply listenersOk_run, listenersOk_init, Hinit).
  destruct (showDialog_listeners env d a s) as (E1 & E2 & E3).
  destruct (hideDialog_listeners t (showDialog env d a s)) as (F1 & F2).
  split; [| exact F2]. subst s'. rewrite F1, (removeEscapeListener_listeners _ _ E2).
  rewrite E1, filter_app, filter_cons_False, filter_nil, app_nil_r by (intros H; by apply H).
  apply filter_ne_absent. intros Hin. destruct Hok as [H1 _]. apply H1 in Hin. lia.
Qed.

Lemma escape_listener_round_trip_witness :
  let s := run promptEnv toMenu (constructed promptEnv) in
  let s' := hideDialog "null" (showDialog promptEnv "aboutDialog" "right" s) in
  documentListeners s' = documentListeners s ∧ escapeHandler s' = None.
Proof.
  apply (escape_listener_round_trip promptEnv demoPage 1600 900 demoClock
           (constructed promptEnv) toMenu).
  apply constructed_init.
Defined.

(** X7. An escape handler is only ever removed through
    [this.escapeHandler]: when [showDialog] runs while a handler is
    registered (a second dialog opened over the first), the older handler
    stays on document whatever happens afterwards, and
    [this.escapeHandler] never holds it again. *)
Theorem escape_handler_leaks (env : Env) (page : gmap string Element)
    (width height clock : Z) (s0 : State) (inputs more : list Input)
    (h : nat) (dialogId animationType : string) :
  init env (initial page width height clock) = Ok s0 →
  let s := run env inputs s0 in
  escapeHandler s = Some h →
  let s' := run env more (showDialog env dialogId animationType s) in
  L_escape h ∈ documentListeners s' ∧ escapeHandler s' ≠ Some h.
Proof.
  intros Hinit s Hh s'.
  assert (Hok : listenersOk s) by (eapply listenersOk_run, listenersOk_init, Hinit).
  destruct Hok as [H1 H2]. pose proof (H2 _ Hh) as Hin. pose proof (H1 _ Hin) as Hlt.
  destruct (showDialog_listeners env dialogId animationType s) as (E1 & E2 & E3).
  assert (Ho : orphan h (showDialog env dialogId animationType s)).
  { repeat split; rewrite ?E1, ?E2, ?E3; [apply elem_of_app; by left | | lia].
    intros [= E]. lia. }
  apply (orphan_run env h more) in Ho. by destruct Ho as (? & ? & _).
Qed.

Lemma escape_handler_leaks_witness :
  let s := run promptEnv (toMenu ++ openAbout) (constructed promptEnv) in
  escapeHandler s = Some 0%nat ∧
  let s' := run promptEnv [Keydown "e" "KeyE"; RunNext; RunNext]
              (showDialog promptEnv "problemDialog" "top" s) in
  L_escape 0 ∈ documentListeners s' ∧ escapeHandler s' ≠ Some 0%nat.
Proof.
  assert (H : escapeHandler (run promptEnv (toMenu ++ openAbout) (constructed promptEnv))
              = Some 0%nat) by (vm_compute; reflexivity).
  split; [exact H |].
  apply (escape_handler_leaks promptEnv demoPage 1600 900 demoClock
           (constructed promptEnv) (toMenu ++ openAbout)
           [Keydown "e" "KeyE"; RunNext; RunNext] 0%nat "problemDialog" "top").
  - apply constructed_init.
  - exact H.
Defined.

(** ** The fallback for the music *)

Lemma noAudioListener_same s s' :
  documentListeners s' = documentListeners s → noAudioListener s → noAudioListener s'.
Proof. unfold noAudioListener. by intros ->. Qed.

Lemma noFallback_same s s' :
  documentListeners s' = documentListeners s → timers s' = timers s →
  noFallback s → noFallback s'.
Proof. unfold noFallback, noAudioListener. by intros -> ->. Qed.

Lemma noFallback_schedule cb d s :
  cb ≠ cb_autoplayPrevented → noFallback s → noFallback (schedule cb d s).
Proof.
  intros Hcb [H1 H2]. split; [exact H1 |]. intros t Hin. simpl in Hin.
  apply elem_of_app in Hin as [Hin | Hin]; [by apply H2 |].
  apply list_elem_of_singleton in Hin. subst t. by destruct cb.
Qed.

(** Take one primitive write off the goal. *)
Ltac audio_prim :=
  idtac;
  lazymatch goal with
  | |- noAudioListener (?w ?s) => apply (noAudioListener_same s); [reflexivity |]
  | |- noFallback (schedule _ _ _) => apply noFallback_schedule; [discriminate |]
  | |- noFallback (setTimeout _ _ _) => apply noFallback_schedule; [discriminate |]
  | |- noFallback (setInterval _ _ _) => apply noFallback_schedule; [discriminate |]
  | |- noFallback (gsap_to _ _ _ _ _) => apply noFallback_schedule; [discriminate |]
  | |- noFallback (?w ?s) => apply (noFallback_same s); [reflexivity | reflexivity |]
  end.

Lemma startAudio_listeners env s :
  documentListeners (startAudio env s) = filter (λ l, l ≠ L_startAudio) (documentListeners s)
  ∧ timers (startAudio env s) = timers s.
Proof. unfold startAudio, getElementById, play. by repeat case_match. Qed.

Lemma startAudio_removes env s : noAudioListener (startAudio env s).
Proof.
  unfold noAudioListener. destruct (startAudio_listeners env s) as [-> _].
  intros [H _]%list_elem_of_filter. by apply H.
Qed.

Lemma noAudioListener_addEscapeListener s :
  noAudioListener s → noAudioListener (addEscapeListener s).
Proof.
  unfold noAudioListener. simpl. intros H [Hin | Hin]%elem_of_app; [by apply H |].
  apply list_elem_of_singleton in Hin. discriminate.
Qed.

Lemma noAudioListener_removeEscapeListener s :
  noAudioListener s → noAudioListener (removeEscapeListener s).
Proof.
  unfold noAudioListener, removeEscapeListener.
  destruct (escapeHandler s); [| done]. simpl.
  intros Hno [_ Hin]%list_elem_of_filter. by apply Hno.
Qed.

Lemma noAudioListener_setupStartExperience s :
  noAudioListener s → noAudioListener (setupStartExperience s).
Proof.
  unfold noAudioListener. destruct (setupStartExperience_listeners s) as (-> & _).
  intros H [Hin | Hin]%elem_of_app; [by apply H |].
  repeat (apply elem_of_cons in Hin as [Hin | Hin]; [discriminate |]). inversion Hin.
Qed.

Ltac audio_special :=
  idtac;
  lazymatch goal with
  | |- noAudioListener (startAudio _ _) => apply startAudio_removes
  | |- noAudioListener (addEscapeListener _) =>
      apply noAudioListener_addEscapeListener; hyp_exact
  | |- noAudioListener (removeEscapeListener _) =>
      apply noAudioListener_removeEscapeListener; hyp_exact
  | |- noAudioListener (setupStartExperience _) =>
      apply noAudioListener_setupStartExperience; hyp_exact
  end.

Section Audio.
Context (env : Env).

Lemma noAudioListener_handleEvent l ev s :
  noAudioListener s → noAudioListener (handleEvent env l ev s).
Proof. intros H. destruct l; closed env noAudioListener audio_prim audio_special. Qed.

Lemma dispatch_removes_startAudio ev s : noAudioListener (dispatch env ev s).
Proof.
  unfold dispatch.
  assert (G : ∀ ls s, (L_startAudio ∈ documentListeners s → L_startAudio ∈ ls) →
                noAudioListener
                  (fold_left (λ s l, if bool_decide (l ∈ documentListeners s)
                                     then handleEvent env l ev s else s) ls s)).
  { clear s. induction ls as [| x ls IH]; intros s Hs; simpl.
    - intros Hin. apply Hs in Hin. inversion Hin.
    - apply IH. destruct (decide (x = L_startAudio)) as [-> | Hne].
      + case_bool_decide as Hx; intros Hin; [| by destruct Hx].
        by destruct (startAudio_removes env s).
      + intros Hin. assert (Hin' : L_startAudio ∈ documentListeners s).
        { case_bool_decide; [| exact Hin].
          destruct (decide (L_startAudio ∈ documentListeners s)) as [Hy | Hn]; [exact Hy |].
          by destruct (noAudioListener_handleEvent x ev s Hn). }
        apply Hs, elem_of_cons in Hin' as [E | Hin']; [by destruct Hne | exact Hin']. }
  by apply G.
Qed.

End Audio.

Lemma noFallback_listeners s s' :
  timers s' = timers s → (noAudioListener s → noAudioListener s') →
  noFallback s → noFallback s'.
Proof. intros Ht Hl [H1 H2]. split; [by apply Hl | by rewrite Ht]. Qed.

Lemma setupStartExperience_timers s :
  ∀ t, t ∈ timers (setupStartExperience s) → t ∈ timers s ∨ snd t = cb_socialVisible.
Proof.
  intros t. unfold setupStartExperience, showSocialMedia, getElementById.
  repeat case_match; simpl; try tauto;
    intros [Hin | Hin]%elem_of_app; try tauto;
    apply list_elem_of_singleton in Hin; subst t; by right.
Qed.

Lemma noFallback_setupStartExperience s :
  noFallback s → noFallback (setupStartExperience s).
Proof.
  intros [H1 H2]. split; [by apply noAudioListener_setupStartExperience |].
  intros t [Hin | Hin]%setupStartExperience_timers; [by apply H2 |].
  unfold is_prevented. by rewrite Hin.
Qed.

Ltac fallback_special :=
  idtac;
  lazymatch goal with
  | |- noFallback (setupStartExperience _) =>
      apply noFallback_setupStartExperience; hyp_exact
  | |- noFallback (startAudio ?env ?s) =>
      apply (noFallback_listeners s);
      [apply startAudio_listeners | intros _; apply startAudio_removes | hyp_exact]
  | |- noFallback (addEscapeListener ?s) =>
      apply (noFallback_listeners s);
      [reflexivity | apply noAudioListener_addEscapeListener | hyp_exact]
  | |- noFallback (removeEscapeListener ?s) =>
      apply (noFallback_listeners s);
      [unfold removeEscapeListener; by case_match
      | apply noAudioListener_removeEscapeListener | hyp_exact]
  end.

Lemma noFallback_take s d cb rest :
  take_due d (timers s) = Some (cb, rest) → noFallback s →
  noFallback (set_now (Z.max (now s) d) (set_timers rest s)).
Proof.
  intros Htake [H1 H2]. split; [exact H1 |].
  intros t Hin. eapply H2, take_due_sub; [exact Htake | exact Hin].
Qed.

Section Fallback.
Context (env : Env).

Lemma noFallback_step i s : noFallback s → noFallback (step env i s).
Proof.
  apply step_inv; try (discharge env noFallback audio_prim fallback_special).
  - apply runNext_inv. intros s1 d cb rest H _ Htake.
    pose proof (take_due_elem _ _ _ _ Htake) as Hin.
    pose proof H as [_ Hq]. apply Hq in Hin.
    pose proof (noFallback_take _ _ _ _ Htake H) as H1. revert H1.
    generalize (set_now (Z.max (now s1) d) (set_timers rest s1)).
    destruct cb; try discriminate; try (closed env noFallback audio_prim fallback_special).
    intros s2 H2. apply (closed_cb_tweenMenu env noFallback);
      discharge env noFallback audio_prim fallback_special.
  - intros l ev s1 H. destruct l; closed env noFallback audio_prim fallback_special.
Qed.

Lemma noFallback_run inputs s : noFallback s → noFallback (run env inputs s).
Proof. apply run_inv, noFallback_step. Qed.

Lemma noFallback_setupBackgroundMusic page width height clock :
  page !! "backgroundMusic" = None ∨ (∃ d, play_outcome env 0 = Resolves d) →
  noFallback (setupBackgroundMusic env (initial page width height clock)).
Proof.
  intros Hm.
  assert (H0 : noFallback (initial page width height clock)).
  { split; [intros Hin | intros t Hin]; inversion Hin. }
  unfold setupBackgroundMusic, getElementById. simpl.
  destruct (page !! "backgroundMusic") as [e |] eqn:E; simpl; [| exact H0].
  destruct Hm as [? | [d Hd]]; [discriminate |]. unfold play. simpl. rewrite Hd.
  discharge env noFallback audio_prim fallback_special.
Qed.

Lemma noFallback_init page width height clock s0 :
  page !! "backgroundMusic" = None ∨ (∃ d, play_outcome env 0 = Resolves d) →
  init env (initial page width height clock) = Ok s0 → noFallback s0.
Proof.
  intros Hm ->%init_Ok. unfold setupEventListeners, setupAudio.
  pose proof (noFallback_setupBackgroundMusic page width height clock Hm) as H. revert H.
  generalize (setupBackgroundMusic env (initial page width height clock)). intros s H.
  staged ltac:(discharge env noFallback audio_prim fallback_special).
Qed.

End Fallback.

(** X10. The fallback for blocked autoplay is used once: after any key
    press, click or touch, no [startAudio] listener is left on document
    (the first listener to run removes every registration of it, and no
    listener registers it again). *)
Theorem audio_fallback_is_one_shot (env : Env) (i : Input) (s : State) :
  interaction i = true → L_startAudio ∉ documentListeners (step env i s).
Proof.
  intros Hi. destruct i; try discriminate; apply dispatch_removes_startAudio.
Qed.

Lemma audio_fallback_is_one_shot_witness :
  let s := run blockedEnv [RunNext] (constructed blockedEnv) in
  L_startAudio ∈ documentListeners s ∧
  L_startAudio ∉ documentListeners (step blockedEnv Touchstart s).
Proof.
  split.
  - vm_compute. repeat first [ by left | right ].
  - apply (audio_fallback_is_one_shot blockedEnv Touchstart). reflexivity.
Defined.

(** X11. Where the music may play at once, there is no fallback: if the
    page has no music element, or the first [play()] call (the one of
    [setupAudio]) resolves, no [startAudio] listener is ever registered. *)
Theorem no_fallback_when_autoplay_allowed (env : Env) (page : gmap string Element)
    (width height clock : Z) (s0 : State) (inputs : list Input) :
  init env (initial page width height clock) = Ok s0 →
  page !! "backgroundMusic" = None ∨ (∃ d, play_outcome env 0 = Resolves d) →
  L_startAudio ∉ documentListeners (run env inputs s0).
Proof.
  intros Hinit Hm.
  by destruct (noFallback_run env inputs s0 (noFallback_init env _ _ _ _ _ Hm Hinit)).
Qed.

Lemma no_fallback_when_autoplay_allowed_witness :
  L_startAudio ∉ documentListeners
    (run promptEnv (toMenu ++ openAbout ++ [Keydown "e" "KeyE"; RunNext])
       (constructed promptEnv)).
Proof.
  apply (no_fallback_when_autoplay_allowed promptEnv demoPage 1600 900 demoClock).
  - apply constructed_init.
  - right. by exists 0.
Defined.

(** ** The clips of the voices *)

Lemma clips_grow s s' :
  (∀ x, x ∈ timers s → x ∈ timers s') →
  (∀ t i, (t, M_playing i) ∈ console s' → (t, M_playing i) ∈ console s) →
  (∀ x, x ∈ console s → x ∈ console s') →
  clipsStopped s → clipsStopped s'.
Proof.
  intros Ht Hp Hc H t i Hin. destruct (H t i (Hp _ _ Hin)) as [[v Hv] | (t' & Hle & Hs)].
  - left. exists v. by apply Ht.
  - right. exists t'. split; [exact Hle | by apply Hc].
Qed.

Lemma clips_schedule cb d s : clipsStopped s → clipsStopped (schedule cb d s).
Proof.
  apply clips_grow; [| exact (λ _ _ H, H) | exact (λ _ H, H)].
  intros x Hx. simpl. apply elem_of_app. by left.
Qed.

Lemma clips_console_log m s :
  (∀ i, m ≠ M_playing i) → clipsStopped s → clipsStopped (console_log m s).
Proof.
  intros Hm. apply clips_grow; [exact (λ _ H, H) | |].
  - intros t i Hin. simpl in Hin. apply elem_of_cons in Hin as [[= _ E] | Hin]; [| exact Hin].
    by destruct (Hm i).
  - intros x Hx. simpl. by right.
Qed.

(** Take one primitive write off a goal [clipsStopped (w s)]. *)
Ltac clips_prim :=
  idtac;
  lazymatch goal with
  | |- clipsStopped (schedule _ _ _) => apply clips_schedule
  | |- clipsStopped (setTimeout _ _ _) => apply clips_schedule
  | |- clipsStopped (setInterval _ _ _) => apply clips_schedule
  | |- clipsStopped (gsap_to _ _ _ _ _) => apply clips_schedule
  | |- clipsStopped (console_log _ _) => apply clips_console_log; [discriminate |]
  | |- clipsStopped (?w ?s) =>
      apply (clips_grow s); [exact (λ _ H, H) | exact (λ _ _ H, H) | exact (λ _ H, H) |]
  end.

Lemma clips_voicePlaying v i s : clipsStopped s → clipsStopped (voicePlaying v i s).
Proof.
  intros H t j Hin. simpl in Hin. apply elem_of_cons in Hin as [[= -> ->] | Hin].
  - left. exists v. simpl. apply elem_of_app. right. by apply list_elem_of_singleton.
  - destruct (H t j Hin) as [[v' Hv] | (t' & Hle & Hs)].
    + left. exists v'. simpl. apply elem_of_app. by left.
    + right. exists t'. split; [exact Hle |]. simpl. by right.
Qed.

Ltac clips_special :=
  idtac;
  lazymatch goal with
  | |- clipsStopped (voicePlaying _ _ _) => apply clips_voicePlaying; hyp_exact
  end.

Lemma clips_take s d cb rest :
  take_due d (timers s) = Some (cb, rest) → (∀ v i, cb ≠ cb_voiceStop v i) →
  clipsStopped s → clipsStopped (set_now (Z.max (now s) d) (set_timers rest s)).
Proof.
  intros Htake Hcb H t i Hin. destruct (H t i Hin) as [[v Hv] | (t' & Hle & Hs)].
  - left. exists v. simpl.
    destruct (take_due_rest _ _ _ _ _ Htake Hv) as [[= _ E] | Hr]; [| exact Hr].
    by destruct (Hcb v i).
  - right. exists t'. by split.
Qed.

Lemma clips_voiceStop s d v i rest :
  take_due d (timers s) = Some (cb_voiceStop v i, rest) → clipsStopped s →
  clipsStopped (voiceStop v i (set_now (Z.max (now s) d) (set_timers rest s))).
Proof.
  intros Htake H t j Hin. change ((t, M_playing j) ∈ (Z.max (now s) d, M_stopped i) :: console s) in Hin.
  apply elem_of_cons in Hin as [[=] | Hin].
  destruct (H t j Hin) as [[v' Hv] | (t' & Hle & Hs)].
  - destruct (take_due_rest _ _ _ _ _ Htake Hv) as [[= <- -> ->] | Hr].
    + right. exists (Z.max (now s) (t + 5000)). split; [lia |].
      change ((Z.max (now s) (t + 5000), M_stopped i)
              ∈ (Z.max (now s) (t + 5000), M_stopped i) :: console s). by left.
    + left. by exists v'.
  - right. exists t'. split; [exact Hle |].
    change ((t', M_stopped j) ∈ (Z.max (now s) d, M_stopped i) :: console s). by right.
Qed.

Section Clips.
Context (env : Env).

Lemma clips_step i s : clipsStopped s → clipsStopped (step env i s).
Proof.
  apply step_inv; try (discharge env clipsStopped clips_prim clips_special).
  - apply runNext_inv. intros s1 d cb rest H _ Htake.
    destruct cb;
      try (pose proof (clips_take _ _ _ _ Htake ltac:(discriminate) H) as H1; revert H1;
           generalize (set_now (Z.max (now s1) d) (set_timers rest s1));
           closed env clipsStopped clips_prim clips_special).
    + by apply clips_voiceStop.
    + pose proof (clips_take _ _ _ _ Htake ltac:(discriminate) H) as H1; revert H1;
        generalize (set_now (Z.max (now s1) d) (set_timers rest s1)). intros s2 H2.
      apply (closed_cb_tweenMenu env clipsStopped);
        discharge env clipsStopped clips_prim clips_special.
  - intros l ev s1 H. destruct l; closed env clipsStopped clips_prim clips_special.
Qed.

Lemma clips_run inputs s : clipsStopped s → clipsStopped (run env inputs s).
Proof. apply run_inv, clips_step. Qed.

Lemma clips_init page width height clock s0 :
  init env (initial page width height clock) = Ok s0 → clipsStopped s0.
Proof.
  intros Hinit.
  eapply (closed_init env clipsStopped);
    try (discharge env clipsStopped clips_prim clips_special); [exact Hinit |].
  intros t i Hin. inversion Hin.
Qed.

End Clips.

(** X8. A clip never plays on: for every clip that started to play (the
    [then] callback of its [play()] ran at time [t]), either the timer that
    stops it is pending, due at [t + 5000], or the clip was stopped, and
    not before [t + 5000]. *)
Theorem clips_stop_after_five_seconds (env : Env) (page : gmap string Element)
    (width height clock : Z) (s0 : State) (inputs : list Input) :
  init env (initial page width height clock) = Ok s0 →
  let s := run env inputs s0 in
  ∀ t randomIndex, (t, M_playing randomIndex) ∈ console s →
    (∃ voice, (t + 5000, cb_voiceStop voice randomIndex) ∈ timers s) ∨
    (∃ t', t + 5000 ≤ t' ∧ (t', M_stopped randomIndex) ∈ console s).
Proof.
  intros Hinit s. apply (clips_run env inputs), (clips_init env _ _ _ _ _ Hinit).
Qed.

Lemma clips_stop_after_five_seconds_witness :
  let s := run promptEnv [Keydown "v" "KeyV"; RunNext; Wait 7000; RunNext]
             (constructed promptEnv) in
  (demoClock + 7000, M_playing 0) ∈ console s ∧
  ∀ t randomIndex, (t, M_playing randomIndex) ∈ console s →
    (∃ voice, (t + 5000, cb_voiceStop voice randomIndex) ∈ timers s) ∨
    (∃ t', t + 5000 ≤ t' ∧ (t', M_stopped randomIndex) ∈ console s).
Proof.
  split.
  - vm_compute. repeat first [ by left | right ].
  - apply (clips_stop_after_five_seconds promptEnv demoPage 1600 900 demoClock
             (constructed promptEnv) [Keydown "v" "KeyV"; RunNext; Wait 7000; RunNext]).
    apply constructed_init.
Defined.

(** ** Before the start *)

Lemma waiting_same s s' :
  hasStarted s' = hasStarted s → tweens s' = tweens s → menuSetups s' = menuSetups s →
  currentDialog s' = currentDialog s → escapeHandler s' = escapeHandler s →
  timers s' = timers s → waiting s → waiting s'.
Proof. unfold waiting. by intros -> -> -> -> -> ->. Qed.

Lemma waiting_schedule cb d s :
  is_flow cb = false → waiting s → waiting (schedule cb d s).
Proof.
  intros Hcb (H1 & H2 & H3 & H4 & H5 & H6). repeat split; try assumption.
  intros t cb' Hin. simpl in Hin. apply elem_of_app in Hin as [Hin | Hin]; [by eapply H6 |].
  apply list_elem_of_singleton in Hin. by injection Hin as -> ->.
Qed.

(** Take one primitive write off a goal [waiting (w s)]. *)
Ltac waiting_prim :=
  idtac;
  lazymatch goal with
  | |- waiting (schedule _ _ _) => apply waiting_schedule; [reflexivity |]
  | |- waiting (setTimeout _ _ _) => apply waiting_schedule; [reflexivity |]
  | |- waiting (setInterval _ _ _) => apply waiting_schedule; [reflexivity |]
  | |- waiting (?w ?s) => apply (waiting_same s); [reflexivity .. |]
  end.

Lemma waiting_take s d cb rest :
  take_due d (timers s) = Some (cb, rest) → waiting s →
  waiting (set_now (Z.max (now s) d) (set_timers rest s)).
Proof.
  intros Htake (H1 & H2 & H3 & H4 & H5 & H6). repeat split; try assumption.
  intros t cb' Hin. eapply H6, take_due_sub; [exact Htake | exact Hin].
Qed.

Section Waiting.
Context (env : Env).

Lemma waiting_handleEvent l ev s :
  match ev with ev_keydown _ code => String.eqb code "Enter" = false | _ => True end →
  waiting s → waiting (handleEvent env l ev s).
Proof.
  intros Hev H. destruct l, ev as [| | key code]; simpl;
    try exact H; try (closed env waiting waiting_prim idtac).
  - case_match; [| exact H]. closed env waiting waiting_prim idtac.
  - rewrite Hev. exact H.
  - case_match; [| exact H].
    assert (Hc : waiting (playClickSound env s)) by closed env waiting waiting_prim idtac.
    destruct Hc as (H1 & H2 & H3 & H4 & H5 & H6). rewrite H4. by repeat split.
Qed.

Lemma waiting_step i s : startInput i = false → waiting s → waiting (step env i s).
Proof.
  intros Hi H. pose proof H as (_ & _ & Hm & _).
  destruct i; simpl in Hi |- *; try discriminate; rewrite ?Hm; simpl;
    try (apply (dispatch_inv env waiting);
         [intros l s1; by apply waiting_handleEvent |]);
    try exact H; try (by repeat case_match);
    try (discharge env waiting waiting_prim idtac).
  clear Hm Hi. revert s H. apply runNext_inv. intros s1 d cb rest H _ Htake.
  pose proof (take_due_elem _ _ _ _ Htake) as Hin.
  pose proof H as (_ & _ & _ & _ & _ & Hq). apply Hq in Hin.
  pose proof (waiting_take _ _ _ _ Htake H) as H1. revert H1.
  generalize (set_now (Z.max (now s1) d) (set_timers rest s1)).
  destruct cb; try discriminate; closed env waiting waiting_prim idtac.
Qed.

Lemma waiting_run inputs s :
  Forall (λ i, startInput i = false) inputs → waiting s → waiting (run env inputs s).
Proof.
  intros Hall. revert s. induction Hall as [| i inputs Hi _ IH]; intros s H; simpl; [exact H |].
  by apply IH, waiting_step.
Qed.

Lemma waiting_init page width height clock s0 :
  init env (initial page width height clock) = Ok s0 → waiting s0.
Proof.
  intros Hinit.
  eapply (closed_init env waiting);
    try (discharge env waiting waiting_prim idtac); [exact Hinit |].
  repeat split. intros t cb Hin. inversion Hin.
Qed.

End Waiting.

(** X9. The experience never starts by itself: as long as no Enter key is
    pressed and the start text is not clicked, whatever else happens
    (timers, other keys, clicks, touches, resizes, loading), [hasStarted]
    stays false, no tween is started, the menu's listeners are not
    registered, no dialog is current and no callback of the flow is
    pending. *)
Theorem never_starts_unprompted (env : Env) (page : gmap string Element)
    (width height clock : Z) (s0 : State) (inputs : list Input) :
  init env (initial page width height clock) = Ok s0 →
  Forall (λ i, startInput i = false) inputs →
  let s := run env inputs s0 in
  hasStarted s = false ∧ tweens s = [] ∧ menuSetups s = 0%nat ∧ currentDialog s = None ∧
  ∀ t cb, (t, cb) ∈ timers s → is_flow cb = false.
Proof.
  intros Hinit Hall s.
  destruct (waiting_run env inputs s0 Hall (waiting_init env _ _ _ _ _ Hinit))
    as (H1 & H2 & H3 & H4 & _ & H6).
  by repeat split.
Qed.

Lemma never_starts_unprompted_witness :
  let s := run promptEnv
             [Keydown "v" "KeyV"; ClickMenuItem "2"; RunNext; Keydown "Enter" "NumpadEnter";
              ClickCloseButton None; Resize 800 600; RunNext; Touchstart]
             (constructed promptEnv) in
  hasStarted s = false ∧ tweens s = [] ∧ menuSetups s = 0%nat ∧ currentDialog s = None ∧
  ∀ t cb, (t, cb) ∈ timers s → is_flow cb = false.
Proof.
  apply (never_starts_unprompted promptEnv demoPage 1600 900 demoClock (constructed promptEnv)).
  - apply constructed_init.
  - repeat constructor.
Defined.

(** ** The loading bar *)

Lemma barWidth_update i f s :
  (∀ e, style_width (f e) = style_width e) → barWidth (update i f s) = barWidth s.
Proof.
  intros Hf. unfold barWidth, update. simpl. rewrite lookup_alter. case_decide; [| done].
  subst i. destruct (elements s !! ".loading-progress"); simpl; [by rewrite Hf | done].
Qed.

Lemma barIs_same w s s' : barWidth s' = barWidth s → barIs w s → barIs w s'.
Proof. unfold barIs. by intros ->. Qed.

(** Take one primitive write other than that of the width off a goal
    [barIs w (write s)]. *)
Ltac bar_prim :=
  idtac;
  lazymatch goal with
  | |- barIs ?w (update ?i ?f ?s) =>
      apply (barIs_same w s); [apply barWidth_update; reflexivity |]
  | |- barIs ?w (dialogVisible ?d ?s) =>
      apply (barIs_same w s); [apply barWidth_update; reflexivity |]
  | |- barIs ?w (?f ?s) => apply (barIs_same w s); [reflexivity |]
  end.

Lemma percentage_bounds (a b : Z) :
  0 < b → 0 ≤ a ≤ b →
  (0 <= Number a / Number b * 100)%Q ∧ (Number a / Number b * 100 <= 100)%Q.
Proof.
  intros Hb [Ha Hab]. unfold Number.
  assert (Hb' : (0 < inject_Z b)%Q) by (change (inject_Z 0 < inject_Z b)%Q; rewrite <- Zlt_Qlt; exact Hb).
  assert (H0 : (0 <= inject_Z a / inject_Z b)%Q).
  { apply Qle_shift_div_l; [exact Hb' |]. rewrite Qmult_0_l. change (inject_Z 0 <= inject_Z a)%Q. rewrite <- Zle_Qle. exact Ha. }
  assert (H1 : (inject_Z a / inject_Z b <= 1)%Q).
  { apply Qle_shift_div_r; [exact Hb' |]. rewrite Qmult_1_l, <- Zle_Qle. exact Hab. }
  split.
  - apply Qmult_le_0_compat; [exact H0 | discriminate].
  - apply (Qle_trans _ (1 * 100)); [| discriminate].
    apply Qmult_le_compat_r; [exact H1 | discriminate].
Qed.

Section Bar.
Context (env : Env) (w : option (option Q)).

Lemma barIs_step i s : is_progress i = false → barIs w s → barIs w (step env i s).
Proof.
  revert i s. apply step_inv_loaded; try (discharge env (barIs w) bar_prim idtac).
  - apply runNext_inv. intros s1 d cb rest H _ Htake.
    destruct cb; try (closed env (barIs w) bar_prim idtac).
    apply (closed_cb_tweenMenu env (barIs w)); discharge env (barIs w) bar_prim idtac.
  - intros l ev s1 H. destruct l; closed env (barIs w) bar_prim idtac.
Qed.

Lemma barIs_run inputs s :
  Forall (λ i, is_progress i = false) inputs → barIs w s → barIs w (run env inputs s).
Proof.
  intros Hall. revert s. induction Hall as [| i inputs Hi _ IH]; intros s H; simpl; [exact H |].
  by apply IH, barIs_step.
Qed.

End Bar.

(** X12. The loading bar shows the last report of the loading manager:
    after [onProgress] the width of the bar is the percentage
    [itemsLoaded / itemsTotal * 100], between 0 and 100, and nothing but
    the next report changes it. Without a bar on the page nothing
    happens. *)
Theorem loading_bar_keeps_last_progress (env : Env) (s : State)
    (itemsLoaded itemsTotal : Z) (rest : list Input) :
  0 < itemsTotal → 0 ≤ itemsLoaded ≤ itemsTotal →
  Forall (λ i, is_progress i = false) rest →
  let s' := run env (LoadProgress itemsLoaded itemsTotal :: rest) s in
  let progress := (Number itemsLoaded / Number itemsTotal * 100)%Q in
  (0 <= progress)%Q ∧ (progress <= 100)%Q ∧
  barWidth s' = match elements s !! ".loading-progress" with
                | Some _ => Some (Some progress)
                | None => None
                end.
Proof.
  intros Hb Ha Hrest s' p. destruct (percentage_bounds _ _ Hb Ha) as [H0 H1].
  split; [exact H0 | split; [exact H1 |]].
  subst s'. simpl. apply barIs_run; [exact Hrest |].
  unfold barIs, onProgress, querySelector, getElementById, barWidth.
  destruct (elements s !! ".loading-progress") as [e |] eqn:E; [| by rewrite E].
  unfold update. simpl. by rewrite lookup_alter_eq, E.
Qed.

Lemma loading_bar_keeps_last_progress_witness :
  let s' := run promptEnv (LoadProgress 3 5 :: LoadComplete :: toMenu)
              (constructed promptEnv) in
  barWidth s' = Some (Some (Number 3 / Number 5 * 100)%Q).
Proof.
  apply (loading_bar_keeps_last_progress promptEnv (constructed promptEnv) 3 5
           (LoadComplete :: toMenu)); [lia | lia | repeat constructor].
Defined.

(** ** The spawned labels *)

Lemma labels_update i f s :
  (∀ e, childNodes (f e) = childNodes e) → labels (update i f s) = labels s.
Proof.
  intros Hf. unfold labels, update. simpl. rewrite lookup_alter. case_decide; [| done].
  subst i. destruct (elements s !! "randomTextContainer"); simpl; [by rewrite Hf | done].
Qed.

Lemma labels_grow s s' :
  labels s' = labels s → (nextLabel s ≤ nextLabel s')%nat →
  (∀ x, x ∈ timers s → x ∈ timers s') → now s ≤ now s' →
  labelsExpire s → labelsExpire s'.
Proof.
  intros Hl Hn Ht Hnow [H1 H2]. split; rewrite Hl; [exact H1 |].
  intros l Hin. destruct (H2 l Hin) as (Hlt & t & Hin' & Hle).
  split; [lia |]. exists t. split; [by apply Ht | lia].
Qed.

Lemma labels_schedule cb d s : labelsExpire s → labelsExpire (schedule cb d s).
Proof.
  apply labels_grow; [reflexivity | exact (le_n _) | | exact (Z.le_refl _)].
  intros x Hx. simpl. apply elem_of_app. by left.
Qed.

(** Take one primitive write off a goal [labelsExpire (w s)]. *)
Ltac labels_prim :=
  idtac;
  lazymatch goal with
  | |- labelsExpire (schedule _ _ _) => apply labels_schedule
  | |- labelsExpire (setTimeout _ _ _) => apply labels_schedule
  | |- labelsExpire (setInterval _ _ _) => apply labels_schedule
  | |- labelsExpire (gsap_to _ _ _ _ _) => apply labels_schedule
  | |- labelsExpire (update ?i ?f ?s) =>
      apply (labels_grow s);
      [apply labels_update; reflexivity | exact (le_n _) | exact (λ _ H, H)
      | exact (Z.le_refl _) |]
  | |- labelsExpire (dialogVisible ?d ?s) =>
      apply (labels_grow s);
      [apply labels_update; reflexivity | exact (le_n _) | exact (λ _ H, H)
      | exact (Z.le_refl _) |]
  | |- labelsExpire (?w ?s) =>
      apply (labels_grow s);
      [reflexivity | exact (le_n _) | exact (λ _ H, H) | simpl; lia |]
  end.

Lemma labels_spawnText env s : labelsExpire s → labelsExpire (spawnText env s).
Proof.
  intros [H1 H2]. unfold spawnText, Math_random. simpl.
  match goal with |- labelsExpire (setTimeout _ _ (update _ (appendChild ?l) ?s1)) =>
    set (lbl := l); set (s2 := s1) end.
  assert (Hl : labels (update "randomTextContainer" (appendChild lbl) s2)
               = match elements s !! "randomTextContainer" with
                 | Some _ => labels s ++ [lbl] | None => [] end).
  { unfold labels, update. simpl. rewrite lookup_alter_eq.
    by destruct (elements s !! "randomTextContainer"). }
  assert (Hs : labels s = [] ∨ is_Some (elements s !! "randomTextContainer")).
  { unfold labels. destruct (elements s !! "randomTextContainer"); eauto. }
  unfold labelsExpire, setTimeout.
  change (labels (schedule ?cb ?d ?s)) with (labels s). rewrite Hl.
  destruct (elements s !! "randomTextContainer") as [c |] eqn:E;
    [| split; [constructor | intros l Hin; inversion Hin]].
  split.
  - rewrite fmap_app. apply NoDup_app. split; [exact H1 | split; [| apply NoDup_singleton]].
    intros x Hx Hx'. apply list_elem_of_singleton in Hx'. simpl in Hx'. subst x.
    apply list_elem_of_fmap in Hx as (l & Hid & Hin). apply H2 in Hin as [Hlt _]. lia.
  - intros l [Hin | Hin]%elem_of_app.
    + destruct (H2 l Hin) as (Hlt & t & Hin' & Hle). split; [simpl; lia |].
      exists t. split; [| exact Hle]. simpl. apply elem_of_app. by left.
    + apply list_elem_of_singleton in Hin. subst l. split; [simpl; lia |].
      exists (now s + 4000). split; [| simpl; lia].
      simpl. apply elem_of_app. right. by apply list_elem_of_singleton.
Qed.

Ltac labels_special :=
  idtac;
  lazymatch goal with
  | |- labelsExpire (spawnText _ _) => apply labels_spawnText; hyp_exact
  end.

Lemma labels_take s d cb rest :
  take_due d (timers s) = Some (cb, rest) → (∀ l, cb ≠ cb_removeText l) →
  labelsExpire s → labelsExpire (set_now (Z.max (now s) d) (set_timers rest s)).
Proof.
  intros Htake Hcb [H1 H2]. split; [exact H1 |].
  intros l Hin. destruct (H2 l Hin) as (Hlt & t & Hin' & Hle).
  split; [exact Hlt |]. exists t. split; [| simpl; lia].
  destruct (take_due_rest _ _ _ _ _ Htake Hin') as [[= _ E] | Hr]; [| exact Hr].
  by destruct (Hcb (label_id l)).
Qed.

Lemma labels_removeText s d lid rest :
  take_due d (timers s) = Some (cb_removeText lid, rest) → labelsExpire s →
  labelsExpire (removeText lid (set_now (Z.max (now s) d) (set_timers rest s))).
Proof.
  intros Htake [H1 H2].
  assert (Hl : labels (removeText lid (set_now (Z.max (now s) d) (set_timers rest s)))
               = filter (λ l, label_id l ≠ lid) (labels s)).
  { unfold labels, removeText, update. simpl. rewrite lookup_alter_eq.
    by destruct (elements s !! "randomTextContainer"). }
  split; rewrite Hl.
  - eapply sublist_NoDup; [exact H1 |]. apply fmap_sublist, sublist_filter.
  - intros l [Hne Hin]%list_elem_of_filter.
    destruct (H2 l Hin) as (Hlt & t & Hin' & Hle).
    split; [exact Hlt |]. exists t. split; [| simpl; lia].
    destruct (take_due_rest _ _ _ _ _ Htake Hin') as [[= _ E] | Hr]; [| exact Hr].
    by destruct Hne.
Qed.

Section Labels.
Context (env : Env).

Lemma labels_step i s : labelsExpire s → labelsExpire (step env i s).
Proof.
  apply step_inv; try (discharge env labelsExpire labels_prim labels_special).
  - apply runNext_inv. intros s1 d cb rest H _ Htake.
    destruct cb;
      try (pose proof (labels_take _ _ _ _ Htake ltac:(discriminate) H) as H1; revert H1;
           generalize (set_now (Z.max (now s1) d) (set_timers rest s1));
           closed env labelsExpire labels_prim labels_special).
    + pose proof (labels_take _ _ _ _ Htake ltac:(discriminate) H) as H1; revert H1;
        generalize (set_now (Z.max (now s1) d) (set_timers rest s1)). intros s2 H2.
      apply (closed_cb_tweenMenu env labelsExpire);
        discharge env labelsExpire labels_prim labels_special.
    + by apply labels_removeText.
  - intros l ev s1 H. destruct l; closed env labelsExpire labels_prim labels_special.
Qed.

Lemma labels_run inputs s : labelsExpire s → labelsExpire (run env inputs s).
Proof. apply run_inv, labels_step. Qed.

Lemma labels_init page width height clock s0 :
  (∀ c, page !! "randomTextContainer" = Some c → childNodes c = []) →
  init env (initial page width height clock) = Ok s0 → labelsExpire s0.
Proof.
  intros Hpage Hinit.
  eapply (closed_init env labelsExpire);
    try (discharge env labelsExpire labels_prim labels_special); [exact Hinit |].
  assert (E : labels (initial page width height clock) = []).
  { unfold labels. simpl. destruct (page !! "randomTextContainer") eqn:E; [| done].
    by apply Hpage. }
  split; rewrite E; [constructor | intros l Hin; inversion Hin].
Qed.

End Labels.

(** X13. No spawned label stays for good: on a page whose text container
    starts empty, the labels in the container have distinct identities at
    every moment, and each of them has the timer that removes it pending,
    due at most 4000 ms from now. *)
Theorem labels_always_expire (env : Env) (page : gmap string Element)
    (width height clock : Z) (s0 : State) (inputs : list Input) :
  init env (initial page width height clock) = Ok s0 →
  (∀ c, page !! "randomTextContainer" = Some c → childNodes c = []) →
  let s := run env inputs s0 in
  NoDup (label_id <$> labels s) ∧
  ∀ l, l ∈ labels s →
    ∃ t, (t, cb_removeText (label_id l)) ∈ timers s ∧ t ≤ now s + 4000.
Proof.
  intros Hinit Hpage s.
  destruct (labels_run env inputs s0 (labels_init env _ _ _ _ _ Hpage Hinit)) as [H1 H2].
  split; [exact H1 |]. intros l Hin. by destruct (H2 l Hin).
Qed.

Lemma labels_always_expire_witness :
  let s := run busyEnv (toMenu ++ repeat RunNext 12) (constructed busyEnv) in
  length (labels s) = 4%nat ∧
  NoDup (label_id <$> labels s) ∧
  ∀ l, l ∈ labels s →
    ∃ t, (t, cb_removeText (label_id l)) ∈ timers s ∧ t ≤ now s + 4000.
Proof.
  split; [vm_compute; reflexivity |].
  apply (labels_always_expire busyEnv demoPage 1600 900 demoClock (constructed busyEnv)).
  - apply constructed_init.
  - intros c Hc. vm_compute in Hc. by injection Hc as <-.
Defined.

(** ** The star field *)

Lemma set_draws_twice a b s : set_draws a (set_draws b s) = set_draws a s.
Proof. reflexivity. Qed.

Lemma set_draws_same s : set_draws (draws s) s = s.
Proof. by destruct s. Qed.

Lemma starLoop_spec env fround n : ∀ i positions s,
  (i + 3 * n ≤ length positions)%nat →
  length (fst (starLoop env fround n i positions s)) = length positions ∧
  snd (starLoop env fround n i positions s) = set_draws (draws s + N.of_nat (3 * n)) s ∧
  ∀ k, fst (starLoop env fround n i positions s) !! k
       = if decide (i ≤ k < i + 3 * n)%nat
         then Some (fround ((Math_random_at env (draws s + N.of_nat (k - i)) - 0.5) * 2000)%Q)
         else positions !! k.
Proof.
  induction n as [| n IH]; intros i p s Hlen.
  - cbn [starLoop fst snd]. split; [reflexivity | split].
    + rewrite N.add_0_r. symmetry. apply set_draws_same.
    + intros k. case_decide; [lia | reflexivity].
  - cbn [starLoop Math_random].
    set (s3 := set_draws _ (set_draws _ (set_draws _ s))).
    set (p3 := <[(i + 2)%nat := _]> (<[(i + 1)%nat := _]> (<[i := _]> p))).
    assert (Hl3 : length p3 = length p) by (subst p3; by rewrite !length_insert).
    destruct (IH (i + 3)%nat p3 s3) as (H1 & H2 & H3); [lia |].
    split; [congruence | split].
    + rewrite H2. subst s3. rewrite !set_draws_twice. f_equal. simpl draws. lia.
    + intros k. rewrite H3. subst p3 s3. simpl draws.
      rewrite !list_lookup_insert, !length_insert.
      repeat case_decide; try lia; try reflexivity; do 4 f_equal; f_equal; lia.
Qed.

Lemma toGrid_rounds : rounds toGrid.
Proof.
  split; [| split; vm_compute; reflexivity].
  intros x y Hxy. unfold toGrid.
  apply Qmult_le_compat_r; [| discriminate].
  rewrite <- Zle_Qle. apply Qfloor_resp_le.
  apply Qplus_le_compat; [| apply Qle_refl].
  apply Qmult_le_compat_r; [exact Hxy | discriminate].
Qed.

(** X14. The star field: [createStarfield] makes exactly 45000 draws and
    writes every one of the 45000 slots of [positions], slot [k] with the
    binary32 number nearest to (draw [k] - 0.5) * 2000. With draws in
    [0, 1) every coordinate lies between -1000 and 1000, both included:
    the rounding of the store can reach 1000, which the product cannot. *)
Theorem stars_fill_the_cube (env : Env) (fround : Q → Q) (s : State) :
  draws_in_range env → rounds fround →
  let positions := fst (starPositions env fround s) in
  Z.of_nat (length positions) = 45000 ∧
  snd (starPositions env fround s) = createStarfield s ∧
  (∀ k, (k < length positions)%nat →
     positions !! k
     = Some (fround ((Math_random_at env (draws s + N.of_nat k) - 0.5) * 2000)%Q)) ∧
  (∀ x, x ∈ positions → (-1000 <= x)%Q ∧ (x <= 1000)%Q).
Proof.
  intros Hr (Hmono & Hlo & Hhi) positions. subst positions. unfold starPositions.
  assert (Hc : Z.of_nat starCount = 15000) by (apply Z2Nat.id; lia).
  revert Hc. generalize starCount. intros n Hc.
  destruct (starLoop_spec env fround n 0 (replicate (n * 3) 0%Q) s) as (H1 & H2 & H3).
  { rewrite length_replicate. lia. }
  set (positions := fst (starLoop env fround n 0 (replicate (n * 3) 0%Q) s)) in *.
  rewrite length_replicate in H1.
  assert (Hk : ∀ k, (k < length positions)%nat →
            positions !! k
            = Some (fround ((Math_random_at env (draws s + N.of_nat k) - 0.5) * 2000)%Q)).
  { intros k Hlt. rewrite H3. case_decide; [| lia]. by rewrite Nat.sub_0_r. }
  split; [| split; [| split; [exact Hk |]]].
  - rewrite H1. lia.
  - rewrite H2. unfold createStarfield. f_equal. lia.
  - intros x Hx. apply list_elem_of_lookup in Hx as [k Hx].
    rewrite Hk in Hx by (by eapply lookup_lt_Some). injection Hx as <-.
    destruct (Hr (draws s + N.of_nat k)%N) as [H0 Hlt1].
    set (r := Math_random_at env (draws s + N.of_nat k)) in *. clearbody r.
    split.
    + rewrite <- Hlo. apply Hmono.
      apply (Qle_trans _ ((0 - 0.5) * 2000)); [discriminate |].
      apply Qmult_le_compat_r; [| discriminate].
      apply Qplus_le_compat; [exact H0 | apply Qle_refl].
    + rewrite <- Hhi. apply Hmono.
      apply (Qle_trans _ ((1 - 0.5) * 2000)); [| discriminate].
      apply Qmult_le_compat_r; [| discriminate].
      apply Qplus_le_compat; [by apply Qlt_le_weak | apply Qle_refl].
Qed.

(** X14 where every draw is 0.99999999: the coordinates are within the
    bounds, and the first one is 1000. *)
Lemma stars_fill_the_cube_witness :
  let positions := fst (starPositions edgeEnv toGrid (constructed edgeEnv)) in
  Z.of_nat (length positions) = 45000 ∧
  (∀ x, x ∈ positions → (-1000 <= x)%Q ∧ (x <= 1000)%Q) ∧
  ∃ x, positions !! 0%nat = Some x ∧ (x == 1000)%Q.
Proof.
  assert (Hd : draws_in_range edgeEnv) by (intros n; split; vm_compute; congruence).
  destruct (stars_fill_the_cube edgeEnv toGrid (constructed edgeEnv) Hd toGrid_rounds)
    as (H1 & _ & H3 & H4).
  split; [exact H1 | split; [exact H4 |]].
  eexists. split; [apply H3; lia |]. vm_compute. reflexivity.
Defined.

(** ** Zooming out *)

Lemma zoomingOut_same s s' :
  (∀ obj, at_ obj s' = at_ obj s) → timers s' = timers s → zoomingOut s → zoomingOut s'.
Proof.
  unfold zoomingOut. intros Ha ->. intros [H1 H2]. split; [| exact H2].
  intros obj. rewrite Ha. apply H1.
Qed.

Lemma zoomingOut_schedule cb d s :
  is_move cb = false → zoomingOut s → zoomingOut (schedule cb d s).
Proof.
  intros Hcb [H1 H2]. split.
  - intros obj. destruct (H1 obj) as [E | (t & tw & Hin & E)]; [by left | right].
    exists t, tw. split; [| exact E]. simpl. apply elem_of_app. by left.
  - intros t cb' Hin. simpl in Hin. apply elem_of_app in Hin as [Hin | Hin]; [by eapply H2 |].
    apply list_elem_of_singleton in Hin. injection Hin as -> ->. by destruct cb.
Qed.

(** Take one primitive write off a goal [zoomingOut (w s)]. *)
Ltac zoom_prim :=
  idtac;
  lazymatch goal with
  | |- zoomingOut (schedule _ _ _) => apply zoomingOut_schedule; [reflexivity |]
  | |- zoomingOut (setTimeout _ _ _) => apply zoomingOut_schedule; [reflexivity |]
  | |- zoomingOut (setInterval _ _ _) => apply zoomingOut_schedule; [reflexivity |]
  | |- zoomingOut (?w ?s) =>
      apply (zoomingOut_same s); [intros []; reflexivity | reflexivity |]
  end.

Lemma zoomingOut_take s d cb rest :
  take_due d (timers s) = Some (cb, rest) → is_move cb = false →
  zoomingOut s → zoomingOut (set_now (Z.max (now s) d) (set_timers rest s)).
Proof.
  intros Htake Hcb [H1 H2]. split.
  - intros obj. destruct (H1 obj) as [E | (t & tw & Hin & E)]; [by left | right].
    exists t, tw. split; [| exact E].
    destruct (take_due_rest _ _ _ _ _ Htake Hin) as [[= _ <-] | Hr]; [discriminate | exact Hr].
  - intros t cb' Hin. eapply H2, take_due_sub; [exact Htake | exact Hin].
Qed.

Lemma zoomingOut_tweenComplete s d tw rest :
  take_due d (timers s) = Some (cb_tweenComplete tw, rest) →
  zoomingOut s → zoomingOut (tweenComplete tw (set_now (Z.max (now s) d) (set_timers rest s))).
Proof.
  intros Htake [H1 H2].
  destruct (H2 _ _ (take_due_elem _ _ _ _ Htake)) as [Hto Hmenu].
  unfold tweenComplete. rewrite Hmenu. split.
  - intros obj.
    assert (Hd : tw_object tw = obj ∨ tw_object tw ≠ obj)
      by (destruct (tw_object tw), obj; first [by left | by right]).
    destruct Hd as [E | Hne].
    + left. rewrite Hto, E. by destruct obj, (tw_object tw).
    + destruct (H1 obj) as [E | (t & tw' & Hin & E)].
      * left. rewrite <- E. by destruct obj, (tw_object tw).
      * right. exists t, tw'. split; [| exact E].
        assert (Hr : (t, cb_tweenComplete tw') ∈ rest).
        { destruct (take_due_rest _ _ _ _ _ Htake Hin) as [[= _ ->] | Hr]; [| exact Hr].
          by destruct Hne. }
        by destruct (tw_object tw).
  - intros t cb Hin. apply (H2 t cb). eapply take_due_sub; [exact Htake |].
    by destruct (tw_object tw).
Qed.

Lemma zoomingOut_zoomOut s :
  (∀ t cb, (t, cb) ∈ timers s → is_move cb = false) → zoomingOut (zoomOut s).
Proof.
  intros Hs. split.
  - intros obj. right. destruct obj; eexists _, _; split.
    + simpl. apply elem_of_app. left. apply elem_of_app. right.
      apply list_elem_of_singleton. reflexivity.
    + reflexivity.
    + simpl. apply elem_of_app. right. apply list_elem_of_singleton. reflexivity.
    + reflexivity.
  - intros t cb Hin. simpl in Hin.
    apply elem_of_app in Hin as [[Hin | Hin]%elem_of_app | Hin].
    + pose proof (Hs _ _ Hin) as Hm. by destruct cb.
    + apply list_elem_of_singleton in Hin. by injection Hin as -> ->.
    + apply list_elem_of_singleton in Hin. by injection Hin as -> ->.
Qed.

Section ZoomOut.
Context (env : Env).

Lemma zoomingOut_step i s : passive i = true → zoomingOut s → zoomingOut (step env i s).
Proof.
  intros Hi. destruct i; try discriminate; clear Hi; simpl; revert s;
    try (discharge env zoomingOut zoom_prim idtac).
  apply runNext_inv. intros s1 d cb rest H _ Htake.
  pose proof H as [_ Hq]. specialize (Hq _ _ (take_due_elem _ _ _ _ Htake)).
  destruct cb; try discriminate;
    try (pose proof (zoomingOut_take _ _ _ _ Htake eq_refl H) as H1; revert H1;
         generalize (set_now (Z.max (now s1) d) (set_timers rest s1));
         closed env zoomingOut zoom_prim idtac).
  by apply zoomingOut_tweenComplete.
Qed.

Lemma zoomingOut_run inputs s :
  Forall (λ i, passive i = true) inputs → zoomingOut s → zoomingOut (run env inputs s).
Proof. apply (run_inv_where env zoomingOut passive), zoomingOut_step. Qed.

End ZoomOut.

(** X15. [zoomOut] leads back to the pose [createCamera] and
    [createControls] set: started where no tween and no callback that
    starts one is pending, and left to the timers, the resize handler and
    the loading manager, it has the camera at (0, 0, 1000) and the target
    at the origin as soon as no end of a tween is pending any more. No
    menu is shown at its end, unlike [zoomToPlanet]. *)
Theorem zoomOut_restores_pose (env : Env) (s : State) (inputs : list Input) :
  (∀ t cb, (t, cb) ∈ timers s → is_move cb = false) →
  Forall (λ i, passive i = true) inputs →
  let s' := run env inputs (zoomOut s) in
  (∀ t tw, (t, cb_tweenComplete tw) ∉ timers s') →
  camera_position s' = onAxis 1000 ∧ controls_target s' = onAxis 0.
Proof.
  intros Hs Hin s' Hdone.
  destruct (zoomingOut_run env inputs _ Hin (zoomingOut_zoomOut s Hs)) as [H1 _].
  split.
  - destruct (H1 CameraPosition) as [E | (t & tw & Ht & _)]; [exact E | by destruct (Hdone t tw)].
  - destruct (H1 ControlsTarget) as [E | (t & tw & Ht & _)]; [exact E | by destruct (Hdone t tw)].
Qed.

Lemma zoomOut_restores_pose_witness :
  let s := run promptEnv toMenu (constructed promptEnv) in
  let s' := run promptEnv (Resize 800 600 :: repeat RunNext 5) (zoomOut s) in
  camera_position s = onAxis 160 ∧
  camera_position s' = onAxis 1000 ∧ controls_target s' = onAxis 0.
Proof.
  split; [vm_compute; reflexivity |].
  apply (zoomOut_restores_pose promptEnv (run promptEnv toMenu (constructed promptEnv))
           (Resize 800 600 :: repeat RunNext 5)).
  - intros t cb Hin. vm_compute in Hin.
    repeat (apply elem_of_cons in Hin as [[= -> ->] | Hin]; [reflexivity |]). inversion Hin.
  - repeat constructor.
  - intros t tw Hin. vm_compute in Hin.
    repeat (apply elem_of_cons in Hin as [[=] | Hin]). inversion Hin.
Defined.

(** ** The render loop *)

Lemma turned_S r d n : (turned r d n + d == turned r d (S n))%Q.
Proof.
  unfold turned. rewrite Nat2Z.inj_succ. unfold Z.succ. rewrite inject_Z_plus. ring.
Qed.

Lemma option_Qeq_refl a : option_Qeq a a.
Proof. destruct a; simpl; [reflexivity | exact I]. Qed.

Lemma after_first_frame sc : after_frames sc 1 (animate sc).
Proof.
  split; try reflexivity; simpl.
  - destruct (has_controls sc); lia.
  - destruct (can_render sc); lia.
  - destruct (isAnimating sc && earthGroup sc); [unfold turned; simpl; ring | reflexivity].
  - destruct (isAnimating sc && earthGroup sc); [| apply option_Qeq_refl].
    destruct (clouds_rotation_y sc); simpl; [unfold turned; simpl; ring | exact I].
  - destruct (isAnimating sc && earthGroup sc); [| apply option_Qeq_refl].
    destruct (stars_rotation_y sc); simpl; [unfold turned; simpl; ring | exact I].
Qed.

Lemma after_next_frame sc n sc' :
  after_frames sc n sc' → after_frames sc (S n) (nextFrame sc').
Proof.
  intros [H1 H2 H3 H4 H5 H6 H7 H8 H9 H10 H11 H12]. unfold nextFrame. rewrite H7.
  split; simpl; rewrite ?H1, ?H2, ?H3, ?H4, ?H5, ?H6; try reflexivity.
  - rewrite H8. destruct (has_controls sc); lia.
  - rewrite H9. destruct (can_render sc); lia.
  - destruct (isAnimating sc && earthGroup sc); [| exact H10].
    rewrite H10. apply turned_S.
  - destruct (isAnimating sc && earthGroup sc); [| exact H11].
    destruct (clouds_rotation_y sc), (clouds_rotation_y sc'); simpl in *; try done.
    rewrite H11. apply turned_S.
  - destruct (isAnimating sc && earthGroup sc); [| exact H12].
    destruct (stars_rotation_y sc), (stars_rotation_y sc'); simpl in *; try done.
    rewrite H12. apply turned_S.
Qed.

Lemma after_frames_iter sc n : after_frames sc (S n) (Nat.iter n nextFrame (animate sc)).
Proof.
  induction n as [| n IH]; simpl; [apply after_first_frame | by apply after_next_frame].
Qed.

(** X16. The render loop keeps itself going and turns the scene at a
    steady pace: after [animate] and [n] further frames exactly one more
    frame request is pending than before, the controls were updated and the
    scene rendered once per frame where they exist, and, while
    [isAnimating] holds and the earth group exists, every frame has turned
    the earth by 0.0028 times its speed, the clouds by 0.0063 times theirs
    and the stars by 0.0001. *)
Theorem render_loop_turns_steadily (sc : Scene) (n : nat) :
  let sc' := Nat.iter n nextFrame (animate sc) in
  let turning := isAnimating sc && earthGroup sc in
  let frames := inject_Z (Z.of_nat (S n)) in
  frameRequests sc' = S (frameRequests sc) ∧
  controlsUpdates sc' = (controlsUpdates sc + if has_controls sc then S n else 0)%nat ∧
  renders sc' = (renders sc + if can_render sc then S n else 0)%nat ∧
  (earth_rotation_y sc'
   == if turning then earth_rotation_y sc + frames * (0.0028 * earthRotationSpeed sc)
      else earth_rotation_y sc)%Q ∧
  option_Qeq (clouds_rotation_y sc')
    (if turning
     then (λ r, r + frames * (0.0063 * cloudRotationSpeed sc))%Q <$> clouds_rotation_y sc
     else clouds_rotation_y sc) ∧
  option_Qeq (stars_rotation_y sc')
    (if turning then (λ r, r + frames * 0.0001)%Q <$> stars_rotation_y sc
     else stars_rotation_y sc).
Proof.
  intros sc' turning frames.
  destruct (after_frames_iter sc n) as [_ _ _ _ _ _ H7 H8 H9 H10 H11 H12].
  repeat split; assumption.
Qed.

(** ** The loading overlay *)

Lemma hiddenClass_update id i f s :
  (∀ e, "hidden" ∈ classList e → "hidden" ∈ classList (f e)) ∨ i ≠ id →
  hiddenClass id s → hiddenClass id (update i f s).
Proof.
  intros Hf H e. unfold update. simpl. rewrite lookup_alter. case_decide as E.
  - subst i. destruct (elements s !! id) as [e0 |] eqn:E0; simpl; [| discriminate].
    intros [= <-]. destruct Hf as [Hf | Hne]; [| done]. apply Hf. by apply H.
  - apply H.
Qed.

Lemma loadedInv_update i f s :
  (∀ e, "hidden" ∈ classList e → "hidden" ∈ classList (f e)) ∨ i ≠ "loading" →
  loadedInv s → loadedInv (update i f s).
Proof.
  intros Hf [Ht [Hh | Hp]]; (split; [exact Ht |]); [left | by right].
  by apply hiddenClass_update.
Qed.

Lemma loadedInv_schedule cb d s :
  (∀ x, cb = cb_dialogShow x → x ∈ dialogs) → loadedInv s → loadedInv (schedule cb d s).
Proof.
  intros Hcb [Ht Hl]. split.
  - intros t x. unfold schedule. simpl.
    intros [Hin | Hin%list_elem_of_singleton]%elem_of_app; [by eapply Ht |].
    inversion Hin. by apply Hcb.
  - destruct Hl as [Hh | [t Hp]]; [by left | right]. exists t. simpl.
    apply elem_of_app. by left.
Qed.

Lemma loadedInv_same s s' :
  timers s' = timers s → elements s' = elements s → loadedInv s → loadedInv s'.
Proof. unfold loadedInv, dialogShowsOk, hiddenClass. by intros -> ->. Qed.

Ltac loading_update :=
  apply loadedInv_update;
  [ first [ left; intros ?; first [ apply classList_add_keeps
                                  | apply classList_remove_keeps; discriminate
                                  | exact (λ H, H) ]
          | right; discriminate ]
  | ].

(** Take one primitive write off a goal [loadedInv (w s)]. *)
Ltac loading_prim :=
  idtac;
  lazymatch goal with
  | |- loadedInv (update _ _ _) => loading_update
  | |- loadedInv (dialogVisible _ _) => unfold dialogVisible; loading_update
  | |- loadedInv (schedule _ _ _) => apply loadedInv_schedule; [intros ? [=] |]
  | |- loadedInv (setTimeout _ _ _) => apply loadedInv_schedule; [intros ? [=] |]
  | |- loadedInv (setInterval _ _ _) => apply loadedInv_schedule; [intros ? [=] |]
  | |- loadedInv (gsap_to _ _ _ _ ?s) =>
      unfold gsap_to; apply loadedInv_schedule; [intros ? [=] |];
      apply (loadedInv_same s); [reflexivity | reflexivity |]
  | |- loadedInv (?w ?s) => apply (loadedInv_same s); [reflexivity | reflexivity |]
  end.

Lemma loadedInv_take s d cb rest :
  take_due d (timers s) = Some (cb, rest) → cb ≠ cb_loadingHidden →
  loadedInv s → loadedInv (set_now (Z.max (now s) d) (set_timers rest s)).
Proof.
  intros Htake Hcb [Ht Hl]. split.
  - intros t x Hin. eapply Ht, take_due_sub; [exact Htake | exact Hin].
  - destruct Hl as [Hh | [t Hp]]; [by left | right]. exists t.
    destruct (take_due_rest _ _ _ _ _ Htake Hp) as [[= _ E] | Hr]; [by destruct Hcb | exact Hr].
Qed.

Section Loading.
Context (env : Env).

Lemma loadedInv_loadingHidden s d rest :
  take_due d (timers s) = Some (cb_loadingHidden, rest) → loadedInv s →
  loadedInv (run_callback env cb_loadingHidden (set_now (Z.max (now s) d) (set_timers rest s))).
Proof.
  intros Htake [Ht _]. split.
  - intros t x Hin. apply (Ht t x). eapply take_due_sub; [exact Htake |].
    revert Hin. simpl. unfold getElementById. by case_match.
  - left. simpl. unfold getElementById, hiddenClass. simpl.
    destruct (elements s !! "loading") as [e0 |] eqn:E; simpl.
    + intros e. rewrite lookup_alter_eq, E. simpl. intros [= <-]. apply classList_add_elem.
    + intros e. rewrite E. discriminate.
Qed.

Lemma loadedInv_menuItemClicked k s : loadedInv s → loadedInv (menuItemClicked env k s).
Proof.
  intros H. unfold menuItemClicked. destruct (menuOption k) as [[d a] |] eqn:Hk; [| exact H].
  apply menuOption_dialogs in Hk. rewrite showDialog_eq.
  assert (H1 : loadedInv (update "gameMenu" (set_display "none") (playClickSound env s)))
    by discharge env loadedInv loading_prim idtac.
  revert H1. generalize (update "gameMenu" (set_display "none") (playClickSound env s)).
  intros s1 H1.
  assert (H2 : loadedInv (moveEarthTo env a (set_currentDialog (Some d) s1)))
    by discharge env loadedInv loading_prim idtac.
  revert H2. generalize (moveEarthTo env a (set_currentDialog (Some d) s1)). intros s2 H2.
  assert (H3 : loadedInv (setTimeout (cb_dialogShow d) 500 s2)).
  { apply loadedInv_schedule; [| exact H2]. by intros x [= <-]. }
  revert H3. generalize (setTimeout (cb_dialogShow d) 500 s2). intros s3 H3.
  discharge env loadedInv loading_prim idtac.
Qed.

Lemma loadedInv_dialogShow d s : d ∈ dialogs → loadedInv s → loadedInv (dialogShow d s).
Proof.
  intros Hd H. unfold dialogShow, getElementById. case_match; [| exact H].
  apply loadedInv_schedule; [intros ? [=] |].
  apply loadedInv_update; [right | exact H].
  unfold dialogs in Hd. intros ->.
  repeat (apply elem_of_cons in Hd as [Hd | Hd]; [discriminate |]); inversion Hd.
Qed.

Lemma loadedInv_step i s : loadedInv s → loadedInv (step env i s).
Proof.
  apply step_inv; try (discharge env loadedInv loading_prim idtac).
  - apply runNext_inv. intros s1 d cb rest H _ Htake.
    pose proof (take_due_elem _ _ _ _ Htake) as Hin.
    destruct cb;
      try (pose proof (loadedInv_take _ _ _ _ Htake ltac:(discriminate) H) as H1; revert H1;
           generalize (set_now (Z.max (now s1) d) (set_timers rest s1));
           closed env loadedInv loading_prim idtac).
    + by apply loadedInv_loadingHidden.
    + pose proof (loadedInv_take _ _ _ _ Htake ltac:(discriminate) H) as H1; revert H1;
        generalize (set_now (Z.max (now s1) d) (set_timers rest s1)). intros s2 H2.
      apply (closed_cb_tweenMenu env loadedInv); discharge env loadedInv loading_prim idtac.
    + apply loadedInv_dialogShow; [destruct H as [Ht _]; by eapply Ht |].
      eapply loadedInv_take; [exact Htake | discriminate | exact H].
  - intros l ev s1 H. destruct l; closed env loadedInv loading_prim idtac.
  - apply loadedInv_menuItemClicked.
Qed.

Lemma loadedInv_run inputs s : loadedInv s → loadedInv (run env inputs s).
Proof. apply run_inv, loadedInv_step. Qed.

End Loading.

(** X17. The loading overlay goes and does not come back: once the
    loading manager has reported the end of the loading, at every later
    moment either the timer that hides the overlay is still pending or the
    overlay carries the class [hidden] and is not shown. *)
Theorem loading_overlay_goes (env : Env) (page : gmap string Element)
    (width height clock : Z) (s0 : State) (inputs more : list Input) :
  init env (initial page width height clock) = Ok s0 →
  let s := run env (inputs ++ LoadComplete :: more) s0 in
  (∀ t, (t, cb_loadingHidden) ∉ timers s) →
  hiddenClass "loading" s ∧ panelShown "loading" s = false.
Proof.
  intros Hinit s Hdone.
  assert (E : s = run env more (setTimeout cb_loadingHidden 500 (run env inputs s0)))
    by (subst s; unfold run; by rewrite fold_left_app).
  clearbody s. subst s.
  assert (H0 : dialogShowsOk (run env inputs s0)).
  { by destruct (introInv_run env false inputs s0 (introInv_init env _ _ _ _ _ Hinit)). }
  assert (H1 : loadedInv (setTimeout cb_loadingHidden 500 (run env inputs s0))).
  { split.
    - intros t x. simpl. intros [Hin | Hin%list_elem_of_singleton]%elem_of_app;
        [by eapply H0 | discriminate].
    - right. eexists. simpl. apply elem_of_app. right. by apply list_elem_of_singleton. }
  apply (loadedInv_run env more) in H1. destruct H1 as [_ [Hh | [t Hp]]].
  - split; [exact Hh | by apply panelShown_hiddenClass].
  - by destruct (Hdone t).
Qed.

Lemma loading_overlay_goes_witness :
  let s := run promptEnv ([LoadProgress 5 5] ++ LoadComplete :: toMenu)
             (constructed promptEnv) in
  hiddenClass "loading" s ∧ panelShown "loading" s = false.
Proof.
  apply (loading_overlay_goes promptEnv demoPage 1600 900 demoClock (constructed promptEnv)
           [LoadProgress 5 5] toMenu).
  - apply constructed_init.
  - intros t Hin. vm_compute in Hin.
    repeat (apply elem_of_cons in Hin as [[=] | Hin]). inversion Hin.
Defined.

(** ** Inputs that find nothing to do *)

(** X18. An input no listener answers changes nothing: a key other than
    V, E and Enter, a touch, or a click outside the elements with
    listeners leaves the whole state as it is, unless the fallback for the
    music is waiting for the first interaction. *)
Theorem stray_input_changes_nothing (env : Env) (i : Input) (s : State) :
  stray i = true → L_startAudio ∉ documentListeners s → step env i s = s.
Proof.
  intros Hi Hno.
  destruct i as [| | key code | | | | | | | | | |]; try discriminate; simpl;
    apply dispatch_id; intros l Hl; destruct l; try reflexivity;
    try (by destruct Hno); simpl in Hi |- *.
  - apply andb_prop in Hi as [[Hv _]%andb_prop _]. apply negb_true_iff in Hv. by rewrite Hv.
  - apply andb_prop in Hi as [_ Hc]. apply negb_true_iff in Hc. by rewrite Hc.
  - apply andb_prop in Hi as [[_ He]%andb_prop _]. apply negb_true_iff in He. by rewrite He.
Qed.

Lemma stray_input_changes_nothing_witness :
  let s := run promptEnv (toMenu ++ openAbout) (constructed promptEnv) in
  step promptEnv (Keydown "Escape" "Escape") s = s.
Proof.
  apply (stray_input_changes_nothing promptEnv (Keydown "Escape" "Escape")).
  - reflexivity.
  - intros Hin. vm_compute in Hin.
    repeat (apply elem_of_cons in Hin as [[=] | Hin]). inversion Hin.
Defined.

Lemma look_same_elements id s s' : elements s' = elements s → look id s' = look id s.
Proof. unfold look. by intros ->. Qed.

(** X19. A close button that names no dialog closes nothing but disarms
    the E key: when the page has no element for its [data-dialog] value
    plus [Dialog] ([nullDialog] where the attribute is missing), a click on
    it leaves every panel, the timers and [currentDialog] as they are, yet
    removes the escape handler from document. *)
Theorem close_button_without_target (env : Env) (data_dialog : option string) (s : State) :
  elements s !! (default "null" data_dialog +:+ "Dialog") = None →
  let s' := closeButtonClicked env data_dialog s in
  (∀ id, look id s' = look id s) ∧ timers s' = timers s ∧
  currentDialog s' = currentDialog s ∧ escapeHandler s' = None ∧
  (∀ h, escapeHandler s = Some h → L_escape h ∉ documentListeners s').
Proof.
  intros Hnone s'. subst s'. unfold closeButtonClicked, hideDialog, getElementById.
  assert (Hs : timers (playClickSound env s) = timers s ∧
               escapeHandler (playClickSound env s) = escapeHandler s ∧
               currentDialog (playClickSound env s) = currentDialog s ∧
               documentListeners (playClickSound env s) = documentListeners s).
  { destruct (playClickSound_shape env s) as (els & n & ->). by repeat split. }
  destruct Hs as (Ht & Hh & Hc & Hl).
  assert (He' : elements (playClickSound env s) !! (default "null" data_dialog +:+ "Dialog")
                = None).
  { pose proof (look_playClickSound env (default "null" data_dialog +:+ "Dialog") s) as Hk.
    unfold look in Hk. rewrite Hnone in Hk. by destruct (elements (playClickSound env s) !! _). }
  rewrite He'. unfold removeEscapeListener. rewrite Hh.
  destruct (escapeHandler s) as [h |] eqn:Eh; simpl.
  - repeat split; try assumption.
    + intros id. rewrite <- (look_playClickSound env id s). by apply look_same_elements.
    + intros h' [= <-] [Hne _]%list_elem_of_filter. by apply Hne.
  - repeat split; try assumption.
    + intros id. apply look_playClickSound.
    + intros h' [=].
Qed.

Lemma close_button_without_target_witness :
  let s := run promptEnv (toMenu ++ openAbout) (constructed promptEnv) in
  let s' := closeButtonClicked promptEnv None s in
  panelShown "aboutDialog" s' = true ∧ escapeHandler s = Some 0%nat ∧
  escapeHandler s' = None ∧ L_escape 0 ∉ documentListeners s'.
Proof.
  destruct (close_button_without_target promptEnv None
              (run promptEnv (toMenu ++ openAbout) (constructed promptEnv)))
    as (H1 & H2 & H3 & H4 & H5); [vm_compute; reflexivity |].
  assert (E : escapeHandler (run promptEnv (toMenu ++ openAbout) (constructed promptEnv))
              = Some 0%nat) by (vm_compute; reflexivity).
  split; [vm_compute; reflexivity | split; [exact E | split; [exact H4 | exact (H5 _ E)]]].
Defined.

(** ** A menu selection, through the event loop *)

Lemma not_a_dialog id :
  id ∉ dialogs ↔ id ≠ "aboutDialog" ∧ id ≠ "problemDialog" ∧ id ≠ "contactDialog"
                 ∧ id ≠ "sponsorsDialog".
Proof.
  unfold dialogs. rewrite !not_elem_of_cons. split; [tauto |].
  intros (? & ? & ? & ?). repeat split; try assumption. apply not_elem_of_nil.
Qed.

Section Opening.
Context (env : Env) (others : string → option (list string * string)) (d : string).
Hypothesis d_dialog : d ∈ dialogs.

(** A step that leaves the current dialog and the look of the dialogs
    alone, keeps the menu off, loses no timer and adds no callback of the
    dialogs. *)
Lemma opening_keep s s' :
  currentDialog s' = currentDialog s →
  (∀ id, id ∈ dialogs → look id s' = look id s) →
  (menuOff s → menuOff s') →
  (∀ x, x ∈ timers s → x ∈ timers s') →
  (∀ t cb, (t, cb) ∈ timers s' → (t, cb) ∈ timers s ∨ is_dialogCallback cb = false) →
  opening others d s → opening others d s'.
Proof.
  intros Hc Hl Hm Ht Hn (H1 & H2 & H3 & H4 & cl & dp & H5 & H6 & H7).
  split; [congruence |]. split; [by apply Hm |]. split; [| split].
  - intros t cb Hin Hcb. destruct (Hn t cb Hin) as [Hin' | Hno]; [by eapply H3 | congruence].
  - intros id Hid Hne. rewrite Hl by exact Hid. by apply H4.
  - exists cl, dp. rewrite Hl by exact d_dialog. split; [exact H5 | split; [exact H6 |]].
    destruct H7 as [[t Hs] | [Hh [[t Hv] | Hv]]]; [left | right; split; [exact Hh | left] | by right; split; [| right]];
      exists t; by apply Ht.
Qed.

Lemma opening_schedule cb t s :
  is_dialogCallback cb = false → opening others d s → opening others d (schedule cb t s).
Proof.
  intros Hcb. apply opening_keep; [reflexivity | reflexivity | exact (λ H, H) | |].
  - intros x Hx. simpl. apply elem_of_app. by left.
  - intros t' cb' Hin. simpl in Hin. apply elem_of_app in Hin as [Hin | Hin]; [by left |].
    apply list_elem_of_singleton in Hin. injection Hin as -> ->. by right.
Qed.

Lemma opening_same s s' :
  currentDialog s' = currentDialog s → elements s' = elements s → timers s' = timers s →
  opening others d s → opening others d s'.
Proof.
  intros Hc He Ht. apply opening_keep; [exact Hc | | | |].
  - intros id _. unfold look. by rewrite He.
  - unfold menuOff, look. by rewrite He.
  - by rewrite Ht.
  - rewrite Ht. by left.
Qed.

(** A write to an element that is not a dialog and, on the menu, keeps
    the display; or one that changes neither classes nor display. *)
Lemma opening_update i f s :
  styleNeutral f ∨
    ((i ∉ dialogs) ∧ (i ≠ "gameMenu" ∨ ∀ e, style_display (f e) = style_display e)) →
  opening others d s → opening others d (update i f s).
Proof.
  intros Hf. apply opening_keep; [reflexivity | | | exact (λ _ H, H) | by left].
  - intros id Hid. destruct Hf as [Hf | [Hi _]]; [by apply look_update_neutral |].
    apply look_update_ne. by intros ->.
  - intros Hm cl dp. destruct Hf as [Hf | [_ [Hi | Hf]]].
    + rewrite look_update_neutral by exact Hf. apply Hm.
    + rewrite look_update_ne by congruence. apply Hm.
    + destruct (decide (i = "gameMenu")) as [-> | Hi];
        [| rewrite look_update_ne by congruence; apply Hm].
      rewrite look_update_eq. unfold menuOff, look in Hm.
      destruct (elements s !! "gameMenu") as [e |]; simpl; [| discriminate].
      intros [= <- <-]. rewrite Hf. by eapply Hm.
Qed.

End Opening.

Ltac not_dialog :=
  apply not_a_dialog; repeat split; discriminate.

(** Take one primitive write off a goal [opening others d (w s)]. *)
Ltac opening_prim :=
  idtac;
  lazymatch goal with
  | |- opening _ _ (schedule _ _ _) => apply opening_schedule; [assumption | reflexivity |]
  | |- opening _ _ (setTimeout _ _ _) => apply opening_schedule; [assumption | reflexivity |]
  | |- opening _ _ (setInterval _ _ _) => apply opening_schedule; [assumption | reflexivity |]
  | |- opening ?o ?d (gsap_to _ _ _ _ ?s) =>
      unfold gsap_to; apply opening_schedule; [assumption | reflexivity |];
      apply (opening_same o d ltac:(assumption) s); [reflexivity | reflexivity | reflexivity |]
  | |- opening _ _ (update _ _ _) =>
      apply opening_update;
      [ assumption
      | first [ left; intros ?; split; reflexivity
              | right; split;
                [ not_dialog
                | first [ left; discriminate | right; intros ?; reflexivity ] ] ]
      | ]
  | |- opening ?o ?d (?w ?s) =>
      apply (opening_same o d ltac:(assumption) s); [reflexivity | reflexivity | reflexivity |]
  end.

Section OpeningLoop.
Context (env : Env) (others : string → option (list string * string)) (d : string).
Hypothesis d_dialog : d ∈ dialogs.

Lemma opening_startGame s : opening others d s → opening others d (startGame env s).
Proof.
  intros H. rewrite startGame_eq.
  discharge env (opening others d) opening_prim idtac.
Qed.

Ltac opening_special :=
  idtac;
  lazymatch goal with
  | |- _ (startGame _ _) => apply opening_startGame; hyp_exact
  end.

Lemma opening_handleEvent l ev s :
  match ev with ev_keydown key _ => String.eqb (toLowerCase key) "e" = false | _ => True end →
  opening others d s → opening others d (handleEvent env l ev s).
Proof.
  intros Hev H. destruct l; try (closed env (opening others d) opening_prim opening_special).
  destruct ev as [| | key code]; simpl; [exact H | exact H |]. by rewrite Hev.
Qed.

(** The timer taken is not one of the dialogs. *)
Lemma opening_take s t cb rest :
  take_due t (timers s) = Some (cb, rest) → is_dialogCallback cb = false →
  opening others d s → opening others d (set_now (Z.max (now s) t) (set_timers rest s)).
Proof.
  intros Htake Hcb (H1 & H2 & H3 & H4 & cl & dp & H5 & H6 & H7).
  assert (Hr : ∀ t' cb', is_dialogCallback cb' = true → (t', cb') ∈ timers s → (t', cb') ∈ rest).
  { intros t' cb' Hd Hin.
    destruct (take_due_rest _ _ _ _ _ Htake Hin) as [[= _ ->] | Hr]; [congruence | exact Hr]. }
  split; [exact H1 |]. split; [exact H2 |]. split; [| split; [exact H4 |]].
  - intros t' cb' Hin. apply (H3 t' cb'). eapply take_due_sub; [exact Htake | exact Hin].
  - exists cl, dp. split; [exact H5 | split; [exact H6 |]].
    destruct H7 as [[t' Hs] | [Hh [[t' Hv] | Hv]]].
    + left. exists t'. by apply Hr.
    + right. split; [exact Hh |]. left. exists t'. by apply Hr.
    + right. split; [exact Hh |]. by right.
Qed.

(** The first callback of [showDialog] runs: [hidden] goes, the second
    callback is queued. *)
Lemma opening_dialogShow s t rest :
  take_due t (timers s) = Some (cb_dialogShow d, rest) →
  opening others d s →
  opening others d (dialogShow d (set_now (Z.max (now s) t) (set_timers rest s))).
Proof.
  intros Htake (H1 & H2 & H3 & H4 & cl & dp & H5 & H6 & H7).
  set (s1 := set_now (Z.max (now s) t) (set_timers rest s)).
  assert (Hl : ∀ id, look id s1 = look id s) by reflexivity.
  rewrite dialogShow_present by (rewrite Hl, H5; eauto).
  split; [exact H1 |]. split; [| split; [| split]].
  - intros cl' dp'. change (look "gameMenu" (setTimeout ?c ?n ?x)) with (look "gameMenu" x).
    rewrite look_update_ne by (by apply not_eq_sym, dialogs_not_menu). apply H2.
  - intros t' cb Hin Hcb. simpl in Hin. apply elem_of_app in Hin as [Hin | Hin].
    + apply (H3 t' cb); [| exact Hcb]. eapply take_due_sub; [exact Htake | exact Hin].
    + apply list_elem_of_singleton in Hin. injection Hin as _ ->. by right.
  - intros id Hid Hne. change (look id (setTimeout ?c ?n ?x)) with (look id x).
    rewrite look_update_ne by exact Hne. by apply H4.
  - change (look d (setTimeout ?c ?n ?x)) with (look d x). rewrite look_update_eq.
    unfold look in H5. change (elements s1) with (elements s).
    destruct (elements s !! d) as [e |]; simpl in *; [| discriminate].
    injection H5 as <- <-. eexists _, _. split; [reflexivity |]. split; [exact H6 |].
    right. split.
    + intros [Hne _]%list_elem_of_filter. by apply Hne.
    + left. eexists. simpl. apply elem_of_app. right. by apply list_elem_of_singleton.
Qed.

(** The second callback runs: [visible] comes. *)
Lemma opening_dialogVisible s t rest :
  take_due t (timers s) = Some (cb_dialogVisible d, rest) →
  opening others d s →
  opening others d (dialogVisible d (set_now (Z.max (now s) t) (set_timers rest s))).
Proof.
  intros Htake (H1 & H2 & H3 & H4 & cl & dp & H5 & H6 & H7).
  set (s1 := set_now (Z.max (now s) t) (set_timers rest s)).
  unfold dialogVisible.
  split; [exact H1 |]. split; [| split; [| split]].
  - intros cl' dp'. rewrite look_update_ne by (by apply not_eq_sym, dialogs_not_menu).
    apply H2.
  - intros t' cb Hin. apply (H3 t' cb). eapply take_due_sub; [exact Htake | exact Hin].
  - intros id Hid Hne. rewrite look_update_ne by exact Hne. by apply H4.
  - rewrite look_update_eq. unfold look in H5. change (elements s1) with (elements s).
    destruct (elements s !! d) as [e |]; simpl in *; [| discriminate].
    injection H5 as <- <-. eexists _, _. split; [reflexivity |]. split; [exact H6 |].
    destruct H7 as [[t' Hs] | [Hh _]].
    + left. exists t'.
      destruct (take_due_rest _ _ _ _ _ Htake Hs) as [[=] | Hr]. exact Hr.
    + right. split; [| right; apply classList_add_elem].
      unfold classList_add. simpl. case_bool_decide; [exact Hh |].
      intros [Hin | Hin]%elem_of_app; [by apply Hh |].
      apply list_elem_of_singleton in Hin. discriminate.
Qed.

Lemma opening_runNext s : opening others d s → opening others d (runNext env s).
Proof.
  revert s. apply runNext_inv. intros s t cb rest H _ Htake.
  pose proof (take_due_elem _ _ _ _ Htake) as Hin.
  pose proof H as (_ & _ & Hq & _). specialize (Hq _ _ Hin).
  destruct cb;
    try (pose proof (opening_take _ _ _ _ Htake eq_refl H) as H1; revert H1;
         generalize (set_now (Z.max (now s) t) (set_timers rest s));
         closed env (opening others d) opening_prim opening_special).
  - (* the loading overlay *)
    pose proof (opening_take _ _ _ _ Htake eq_refl H) as H1. revert H1.
    generalize (set_now (Z.max (now s) t) (set_timers rest s)). intros s1 H1.
    simpl. unfold getElementById. case_match; [| exact H1].
    discharge env (opening others d) opening_prim opening_special.
  - (* the end of a tween *)
    pose proof (opening_take _ _ _ _ Htake eq_refl H) as H1. revert H1.
    generalize (set_now (Z.max (now s) t) (set_timers rest s)). intros s1 H1.
    apply (closed_cb_tweenMenu env (opening others d));
      discharge env (opening others d) opening_prim opening_special.
  - destruct (Hq eq_refl) as [[= ->] | [=]]. by apply opening_dialogShow.
  - destruct (Hq eq_refl) as [[=] | [= ->]]. by apply opening_dialogVisible.
  - destruct (Hq eq_refl) as [[=] | [=]].
Qed.

Lemma opening_step i s :
  dialogInput i = false → opening others d s → opening others d (step env i s).
Proof.
  intros Hi H.
  destruct i; try discriminate; simpl;
    try (apply (dispatch_inv env (opening others d));
         [intros l s1; by apply opening_handleEvent |]);
    try exact H;
    try (discharge env (opening others d) opening_prim opening_special).
  - by apply opening_runNext.
  - case_match; [| exact H]. closed env (opening others d) opening_prim opening_special.
Qed.

Lemma opening_run inputs s :
  Forall (λ i, dialogInput i = false) inputs →
  opening others d s → opening others d (run env inputs s).
Proof.
  intros Hall. revert s. induction Hall as [| i inputs Hi _ IH]; intros s H; simpl; [exact H |].
  by apply IH, opening_step.
Qed.

End OpeningLoop.

Lemma opening_showDialog (env : Env) (s : State) (d a : string) (dlg : Element) :
  d ∈ dialogs → elements s !! d = Some dlg → style_display dlg ≠ "none" → settled s →
  opening (λ id, look id s) d (showDialog env d a (playClickSound env s)).
Proof.
  intros Hd Hdlg Hdisp Hset.
  destruct (showDialog_timers env d a (playClickSound env s)) as [Ht Hc].
  destruct (playClickSound_timers env s) as [Hpt _]. rewrite Hpt in Ht.
  assert (Hl : ∀ id, id ≠ "gameMenu" →
            look id (showDialog env d a (playClickSound env s)) = look id s).
  { intros id Hid. rewrite look_showDialog, look_update_ne by exact Hid.
    apply look_playClickSound. }
  split; [exact Hc |]. split; [| split; [| split]].
  - intros cl dp. rewrite look_showDialog, look_update_eq.
    destruct (elements (playClickSound env s) !! "gameMenu"); simpl; [| discriminate].
    by intros [= _ <-].
  - intros t cb Hin Hcb. rewrite Ht in Hin. apply elem_of_app in Hin as [Hin | Hin].
    + rewrite (Hset _ _ Hin) in Hcb. discriminate.
    + apply elem_of_cons in Hin as [[= _ ->] | Hin]; [discriminate |].
      apply list_elem_of_singleton in Hin. injection Hin as _ ->. by left.
  - intros id Hid _. apply Hl. by apply dialogs_not_menu.
  - exists (classList dlg), (style_display dlg).
    rewrite Hl by (by apply dialogs_not_menu).
    split; [unfold look; by rewrite Hdlg |]. split; [exact Hdisp |]. left. eexists.
    rewrite Ht. apply elem_of_app. right. right. left.
Qed.

(** C2, amended. In the menu state, with the menu's listeners in place, no
    dialog shown and no callback of [showDialog] or [hideDialog] pending, a
    click on a menu item calls [showDialog] for its dialog, and from then
    on, whatever the event loop runs other than the listeners of the
    dialogs (a further menu click, a close button, a click on a dialog, the
    E key): the selected dialog is the current one, the menu panel is not
    shown, no other dialog is shown, and the selected dialog is shown as
    soon as its two callbacks have run; until then one of them is
    pending. The listener itself tests nothing: the call of [showDialog]
    does not depend on [currentDialog] or on what is on screen. *)
Theorem menu_selection_shows_dialog (env : Env) (s : State) (key d a : string)
    (dlg : Element) (more : list Input) :
  menuSetups s = 1%nat →
  menuOption key = Some (d, a) →
  elements s !! d = Some dlg →
  style_display dlg ≠ "none" →
  settled s →
  (∀ d', d' ∈ dialogs → panelShown d' s = false) →
  Forall (λ i, dialogInput i = false) more →
  let s1 := step env (ClickMenuItem key) s in
  let s' := run env more s1 in
  s1 = dispatch env ev_click (showDialog env d a (playClickSound env s)) ∧
  currentDialog s' = Some d ∧
  panelShown "gameMenu" s' = false ∧
  (∀ d', d' ∈ dialogs → d' ≠ d → panelShown d' s' = false) ∧
  ((∃ t, (t, cb_dialogShow d) ∈ timers s') ∨
   (∃ t, (t, cb_dialogVisible d) ∈ timers s') ∨
   shownDialogs s' = [d]).
Proof.
  intros Hsetup Hopt Hdlg Hdisp Hset Hnone Hmore s1 s'.
  assert (Hd : d ∈ dialogs) by (by eapply menuOption_dialogs).
  assert (Hs1 : s1 = dispatch env ev_click (showDialog env d a (playClickSound env s))).
  { subst s1. simpl. rewrite Hsetup. simpl. by rewrite (menuItemClicked_eq env _ _ _ _ Hopt). }
  split; [exact Hs1 |].
  assert (H : opening (λ id, look id s) d s').
  { subst s'. apply opening_run; [exact Hd | exact Hmore |]. rewrite Hs1.
    apply (dispatch_inv env (opening (λ id, look id s) d)).
    - intros l s2. by apply opening_handleEvent.
    - by eapply opening_showDialog. }
  clearbody s'. destruct H as (H1 & H2 & _ & H4 & cl & dp & H5 & H6 & H7).
  assert (Hothers : ∀ d', d' ∈ dialogs → d' ≠ d → panelShown d' s' = false).
  { intros d' Hd' Hne. rewrite (panelShown_look d' s s') by (by apply H4). by apply Hnone. }
  split; [exact H1 |]. split; [| split; [exact Hothers |]].
  - rewrite panelShown_eq. destruct (look "gameMenu" s') as [[cl' dp'] |] eqn:E; [| done].
    rewrite (H2 _ _ E). simpl. apply andb_false_r.
  - destruct H7 as [Hs | [Hh [Hv | Hv]]]; [by left | by right; left | right; right].
    assert (Hshown : panelShown d s' = true).
    { rewrite panelShown_eq, H5. rewrite bool_decide_eq_true_2 by exact Hv.
      rewrite bool_decide_eq_false_2 by exact Hh.
      by rewrite bool_decide_eq_false_2 by exact H6. }
    unfold shownDialogs.
    rewrite (List.filter_ext_in (λ d', panelShown d' s') (λ d', bool_decide (d' = d))).
    + unfold dialogs in Hd |- *.
      repeat (apply elem_of_cons in Hd as [-> | Hd]; [reflexivity |]). inversion Hd.
    + intros d' Hd'%list_elem_of_In. case_bool_decide as E; [by subst d' |].
      by apply Hothers.
Qed.

(** C2 on the demo page: option 2 selected from the menu, and then time,
    timers, a resize, the V key and a click elsewhere. *)
Lemma menu_selection_shows_dialog_witness :
  let s := run promptEnv toMenu (constructed promptEnv) in
  let more := [Wait 100; RunNext; Resize 800 600; Keydown "v" "KeyV"; RunNext; RunNext;
               ClickElsewhere] in
  let s' := run promptEnv more (step promptEnv (ClickMenuItem "2") s) in
  settled s ∧
  currentDialog s' = Some "aboutDialog" ∧
  panelShown "gameMenu" s' = false ∧
  (∀ d', d' ∈ dialogs → d' ≠ "aboutDialog" → panelShown d' s' = false) ∧
  shownDialogs s' = ["aboutDialog"].
Proof.
  intros s more s'.
  assert (Hset : settled s).
  { intros t cb Hin. vm_compute in Hin.
    repeat (apply elem_of_cons in Hin as [[= _ ->] | Hin]; [reflexivity |]). inversion Hin. }
  assert (Hnone : ∀ d', d' ∈ dialogs → panelShown d' s = false).
  { intros d' Hd'. unfold dialogs in Hd'.
    repeat (apply elem_of_cons in Hd' as [-> | Hd']; [vm_compute; reflexivity |]).
    inversion Hd'. }
  assert (Hmore : Forall (λ i, dialogInput i = false) more) by (repeat constructor).
  assert (Hdlg : elements s !! "aboutDialog" = Some hiddenPanel)
    by (exact (proj1 (proj2 demo_menu_state))).
  assert (Hsetup : menuSetups s = 1%nat) by (exact (proj2 (proj2 (proj2 demo_menu_state)))).
  pose proof (menu_selection_shows_dialog promptEnv s "2" "aboutDialog" "right" hiddenPanel
                more Hsetup eq_refl Hdlg hiddenPanel_display Hset Hnone Hmore) as H.
  assert (Hshown : shownDialogs s' = ["aboutDialog"]) by (vm_compute; reflexivity).
  cbv zeta in H. fold s' in H. clearbody s'. destruct H as (_ & H2 & H3 & H4 & _).
  split; [exact Hset |]. split; [exact H2 |]. split; [exact H3 |]. split; [exact H4 |].
  exact Hshown.
Defined.

(** Why the selection has to find the dialogs settled: closed twice (the E
    key, then its close button during the fade), [aboutDialog] leaves two
    callbacks of [hideDialog] behind. The first shows the menu again; a
    click on option 3 hides it; the second shows it once more, while
    [problemDialog] is opening and no dialog is on screen. A click on
    option 4 then opens [contactDialog] as well. *)
Example stale_callback_reshows_menu :
  let closedTwice :=
    toMenu ++ openAbout
    ++ [Keydown "e" "KeyE"; Wait 100; ClickCloseButton (Some "about"); RunNext; RunNext] in
  let s := run promptEnv closedTwice (constructed promptEnv) in
  let s1 := run promptEnv [ClickMenuItem "3"; RunNext] s in
  let s2 := run promptEnv (ClickMenuItem "4" :: repeat RunNext 5) s1 in
  panelShown "gameMenu" s = true ∧ shownDialogs s = [] ∧
  panelShown "gameMenu" s1 = true ∧ shownDialogs s1 = [] ∧
  currentDialog s1 = Some "problemDialog" ∧
  shownDialogs s2 = ["problemDialog"; "contactDialog"].
Proof. vm_compute. repeat split. Qed.

